(** * Beaker CLI: session orchestration and executor lifecycle

    A shallow embedding of [cmd/beaker/session.go] and
    [cmd/beaker/executor_linux.go].  The Go code talks to three outside
    parties (the remote scheduler, the container runtime, the host operating
    system); every such call is modelled as a primitive of a small monad
    that appends an event to a trace and takes its answer from an
    environment.  The environment's answers are functions of the whole trace
    so far, so any behaviour of the outside world that depends on the
    history of the run is covered. *)

From Stdlib Require Import ZArith Ascii String List.
From stdpp Require Import base tactics option list strings gmap.

Local Open Scope string_scope.
Local Open Scope Z_scope.

(** ** Go values *)

(** Errno values met by the file operations of the executor commands. *)
Inductive Errno := ENOENT | EACCES | EISDIR | ENOTEMPTY | ENOTDIR | EIO.

(** Go's [error] values, by the constructor that built them. *)
Inductive error :=
| Errorf (msg : string)                        (* fmt.Errorf with a constant text *)
| Wrapf (text : string) (cause : error)        (* fmt.Errorf("text: %w", cause) *)
| PathError (op path : string) (no : Errno)    (* *os.PathError *)
| Foreign (msg : string).                      (* an error built by a library or a remote party *)

Definition Errno_Error (no : Errno) : string :=
  match no with
  | ENOENT => "no such file or directory"
  | EACCES => "permission denied"
  | EISDIR => "is a directory"
  | ENOTEMPTY => "directory not empty"
  | ENOTDIR => "not a directory"
  | EIO => "input/output error"
  end.

(** [err.Error()] *)
Fixpoint Error (e : error) : string :=
  match e with
  | Errorf msg => msg
  | Wrapf text cause => text +:+ ": " +:+ Error cause
  | PathError op path no => op +:+ " " +:+ path +:+ ": " +:+ Errno_Error no
  | Foreign msg => msg
  end.

(** [os.IsNotExist(err)]: looks through [*os.PathError] only, not through
    the chain of [%w]. *)
Definition os_IsNotExist (e : error) : bool :=
  match e with
  | PathError _ _ ENOENT => true
  | _ => false
  end.

(** A Go pair [(T, error)] with exactly one side set. *)
Inductive result (A : Type) :=
| Ok (a : A)
| Err (e : error).
Arguments Ok {A} a.
Arguments Err {A} e.

(** [strings.HasPrefix(s, prefix)] *)
Fixpoint strings_HasPrefix (s prefix : string) {struct prefix} : bool :=
  match prefix, s with
  | EmptyString, _ => true
  | String p prefix', String c s' => if Ascii.eqb p c then strings_HasPrefix s' prefix' else false
  | String _ _, EmptyString => false
  end.

(** [strings.Join(elems, sep)] *)
Fixpoint strings_Join (elems : list string) (sep : string) : string :=
  match elems with
  | [] => EmptyString
  | [x] => x
  | x :: rest => x +:+ sep +:+ strings_Join rest sep
  end.

Definition newline : string := String (ascii_of_nat 10) EmptyString.
Definition dquote : string := String (ascii_of_nat 34) EmptyString.

(** ** The remote scheduler's data (package [api] of the client library) *)

(** [*time.Time] is [option Z]: [None] is the nil pointer, [Some t] a time in
    nanoseconds. *)
Record ExecutionState := {
  Scheduled : option Z;
  Started : option Z;
  Ended : option Z;
  Finalized : option Z;
  Canceled : option Z;
}.

(** [api.ExecutionState{}] *)
Definition ExecutionState_zero : ExecutionState :=
  {| Scheduled := None; Started := None; Ended := None; Finalized := None; Canceled := None |}.

(** The resources granted to a session.  [CPUCount] is a float64 that the
    code only passes on; it is kept as its bit pattern.  [Memory] is the
    value of [Memory.Int64()]. *)
Record ResourceLimits := {
  CPUCount : Z;
  GPUs : list string;
  Memory : Z;
}.

Record Session := {
  ID : string;
  Limits : option ResourceLimits;     (* a pointer: nil until resources are granted *)
  State : ExecutionState;
}.

Record SessionSpec := {
  spec_Name : string;
  spec_Node : string;
  spec_GPUCount : Z;                  (* Resources: &api.TaskResources{GPUCount: gpus} *)
}.

(** [api.SessionPatch]; [State] is a pointer, [None] is nil. *)
Record SessionPatch := {
  patch_State : option ExecutionState;
}.

(** ** The container runtime's data (package [runtime]) *)

Record Mount := {
  HostPath : string;
  ContainerPath : string;
}.

Record ContainerOpts := {
  Name : string;
  Image : string;                        (* &runtime.DockerImage{Tag: image} *)
  Command : option (list string);        (* [None] is the nil slice *)
  Labels : gmap string string;
  Env : gmap string string;
  Mounts : list Mount;
  opts_CPUCount : Z;
  opts_GPUs : list string;
  opts_Memory : Z;
  Interactive : bool;
  User : string;
  WorkingDir : string;
}.

(** A container handle of the docker runtime. *)
Definition container := string.

Record ContainerInfo := {
  info_Labels : gmap string string;
}.

(** [user.User] *)
Record OsUser := {
  Uid : string;
  Gid : string;
  HomeDir : string;
}.

(** [executor config] as read back by [getExecutorConfig] and as rendered by
    the config template. *)
Record configOpts := {
  StoragePath : string;
  TokenPath : string;
  Cluster : string;
}.

Record systemdOpts := {
  BinaryPath : string;
  ConfigPath : string;
}.

(** An HTTP response: the bytes its body delivers and the error, if any,
    that ends the body early. *)
Record Response := {
  Body : string;
  BodyErr : option error;
}.

(** ** Events *)

(** Which context a remote call was made under: the command's [ctx] or
    [context.Background()]. *)
Inductive ctx_kind := Ctx | Background.

Inductive event :=
(* terminal *)
| Stdout (text : string)
| StdoutReserved (gpus : nat) (cpu : Z) (memory : Z)   (* the "Reserved ..." line, by its arguments *)
| Stderr (text : string)
| Confirm (prompt : string)
| PrintSessions (sessions : list Session)
(* remote scheduler *)
| GetCurrentNode
| CreateSession (spec : SessionSpec)
| SessionGet (id : string) (answer : result Session)
| SessionPatched (c : ctx_kind) (id : string) (patch : SessionPatch)
| ClusterGet (name : string)
(* timer and select of the scheduling wait *)
| TimerSet (d : Z)
| TimerFired
| CtxDone (e : error)
(* container runtime driver *)
| NewRuntime
| PullImage (tag : string) (quiet : bool)
| CreateContainer (opts : ContainerOpts)
| ContainerStart (c : container)
| ContainerAttach (c : container)
| ContainerExec (c : container) (command : option (list string))
| ListContainers
| ContainerInfoOf (c : container)
(* operating system *)
| UserCurrent
| GetExecutorConfig
| Stat (path : string)
| MkdirAll (path : string)
| WriteFile (path : string) (mode : Z)
| Create (path : string)
| Write (path : string)
| Chmod (path : string) (mode : Z)
| Remove (path : string)
| RemoveAll (path : string)
| HttpGet (url : string)
| Exec (argv : list string) (env : list string).

(** ** The environment *)

Record World := {
  (* package-level variables of package main that other files declare *)
  quiet : bool;
  beakerConfig_UserToken : string;
  executorConfigDir : string;
  executorConfigPath : string;
  (* Go library functions whose tables are not part of the repository *)
  path_Join : list string → string;
  unicode_ToLower_from : string → string;
  strings_TrimSpace : string → string;
  strconv_Quote : string → string;
  (* the outside world, answering as a function of the trace so far; the
     helpers [getCurrentNode], [printSessions], [confirm] and
     [getExecutorConfig], which other files of package main define, answer
     here too *)
  clock : list event → Z;
  ctx_Done : list event → option error;
  answer_getCurrentNode : list event → result string;
  answer_CreateSession : list event → SessionSpec → result Session;
  answer_SessionGet : list event → string → result Session;
  answer_SessionPatch : list event → ctx_kind → string → SessionPatch → result Session;
  answer_ClusterGet : list event → string → option error;
  answer_printSessions : list event → list Session → option error;
  answer_confirm : list event → string → result bool;
  answer_getExecutorConfig : list event → result configOpts;
  answer_UserCurrent : list event → result OsUser;
  answer_NewRuntime : list event → option error;
  answer_PullImage : list event → string → option error;
  answer_CreateContainer : list event → ContainerOpts → result container;
  answer_Start : list event → container → option error;
  answer_Attach : list event → container → option error;
  answer_Exec : list event → container → option (list string) → option error;
  answer_ListContainers : list event → result (list container);
  answer_Info : list event → container → result ContainerInfo;
  os_fault : list event → event → option Errno;
  answer_HttpGet : list event → string → result Response;
  answer_Run : list event → list string → list string → string * option error;
}.

(** ** The host file system *)

Inductive node :=
| File (data : string) (mode : Z)
| Dir (mode : Z).

Record state := {
  trace : list event;
  files : gmap string node;
}.

(** ** The monad *)

(** A run either finishes with a value, panics (a nil dereference), or is
    still going when the fuel of an unbounded loop is used up. *)
Inductive outcome (A : Type) :=
| Done (a : A)
| Panic (msg : string)
| Pending.
Arguments Done {A} a.
Arguments Panic {A} msg.
Arguments Pending {A}.

Definition M (A : Type) : Type := state → outcome A * state.

#[export] Instance M_ret : MRet M := λ A a s, (Done a, s).

#[export] Instance M_bind : MBind M := λ A B f m s,
  match m s with
  | (Done a, s') => f a s'
  | (Panic msg, s') => (Panic msg, s')
  | (Pending, s') => (Pending, s')
  end.

Definition emit (e : event) : M unit :=
  λ s, (Done (), {| trace := (trace s ++ [e])%list; files := files s |}).

Definition ask {A : Type} (f : list event → A) : M A :=
  λ s, (Done (f (trace s)), s).

(** A call to the outside: the environment answers from the trace so far,
    and the call, with what its event keeps of the answer, joins the trace. *)
Definition call {A : Type} (answer : list event → A) (ev : A → event) : M A :=
  λ s, (Done (answer (trace s)),
        {| trace := (trace s ++ [ev (answer (trace s))])%list; files := files s |}).

Definition get_files : M (gmap string node) :=
  λ s, (Done (files s), s).

Definition put_files (fs : gmap string node) : M unit :=
  λ s, (Done (), {| trace := trace s; files := fs |}).

Definition panic {A : Type} (msg : string) : M A :=
  λ s, (Panic msg, s).

Definition pending {A : Type} : M A :=
  λ s, (Pending, s).

(** [if cond { body }] *)
Definition when (cond : bool) (body : M unit) : M unit :=
  if cond then body else mret ().

(** The events a computation adds to the trace of [s]. *)
Definition emitted {A : Type} (m : M A) (s : state) : list event :=
  drop (length (trace s)) (trace (m s).2).

(** ** strings.ToLower *)

Definition is_upper (c : ascii) : bool :=
  (65 <=? Z.of_nat (nat_of_ascii c)) && (Z.of_nat (nat_of_ascii c) <=? 90).

(** [c += 'a' - 'A'] on an upper-case ASCII letter. *)
Definition lower_byte (c : ascii) : ascii :=
  if is_upper c then ascii_of_nat (nat_of_ascii c + 32) else c.

Definition is_ASCII (c : ascii) : bool :=
  Z.of_nat (nat_of_ascii c) <? 128.

(** ** session.go *)

Definition sessionContainerLabel : string := "beaker.org/session".
Definition sessionGPULabel : string := "beaker.org/gpus".

(** [time.Second], in nanoseconds. *)
Definition time_Second : Z := 1000000000.

(** What [os.Stat(path)] answers, given what the system says ([fault]) and
    what the file system holds. *)
Definition do_Stat (path : string) (fault : option Errno) (fs : gmap string node)
  : option error :=
  match fault with
  | Some no => Some (PathError "stat" path no)
  | None =>
      match fs !! path with
      | Some _ => None
      | None => Some (PathError "stat" path ENOENT)
      end
  end.

Section Program.

Context (w : World).

(** [strings.ToLower] lowers an all-ASCII string byte by byte and otherwise
    maps [unicode.ToLower] over the runes.  An ASCII byte is a rune of its
    own and [unicode.ToLower] treats it as [lower_byte] does, so both paths
    agree up to the first non-ASCII byte; from there on the result is that
    of the rune-wise map, which depends on the Unicode tables and is taken
    from the environment. *)
Fixpoint strings_ToLower (s : string) : string :=
  match s with
  | EmptyString => EmptyString
  | String c rest =>
      if is_ASCII c then String (lower_byte c) (strings_ToLower rest)
      else unicode_ToLower_from w s
  end.

(** *** Calls to the outside *)

(** [now()] *)
Definition now : M (option Z) :=
  t ← ask (clock w); mret (Some t).

Definition print (text : string) : M unit := emit (Stdout text).

Definition getCurrentNode : M (result string) :=
  call (answer_getCurrentNode w) (λ _, GetCurrentNode).

Definition printSessions (sessions : list Session) : M (option error) :=
  call (λ t, answer_printSessions w t sessions) (λ _, PrintSessions sessions).

Definition beaker_CreateSession (spec : SessionSpec) : M (result Session) :=
  call (λ t, answer_CreateSession w t spec) (λ _, CreateSession spec).

Definition beaker_Session_Get (id : string) : M (result Session) :=
  call (λ t, answer_SessionGet w t id) (λ r, SessionGet id r).

Definition beaker_Session_Patch (c : ctx_kind) (id : string) (patch : SessionPatch)
  : M (result Session) :=
  call (λ t, answer_SessionPatch w t c id patch) (λ _, SessionPatched c id patch).

Definition user_Current : M (result OsUser) :=
  call (answer_UserCurrent w) (λ _, UserCurrent).

Definition docker_NewRuntime : M (option error) :=
  call (answer_NewRuntime w) (λ _, NewRuntime).

Definition rt_PullImage (tag : string) (q : bool) : M (option error) :=
  call (λ t, answer_PullImage w t tag) (λ _, PullImage tag q).

Definition rt_CreateContainer (opts : ContainerOpts) : M (result container) :=
  call (λ t, answer_CreateContainer w t opts) (λ _, CreateContainer opts).

Definition container_Start (c : container) : M (option error) :=
  call (λ t, answer_Start w t c) (λ _, ContainerStart c).

Definition container_Attach (c : container) : M (option error) :=
  call (λ t, answer_Attach w t c) (λ _, ContainerAttach c).

Definition container_Exec (c : container) (command : option (list string)) : M (option error) :=
  call (λ t, answer_Exec w t c command) (λ _, ContainerExec c command).

Definition rt_ListContainers : M (result (list container)) :=
  call (answer_ListContainers w) (λ _, ListContainers).

Definition container_Info (c : container) : M (result ContainerInfo) :=
  call (λ t, answer_Info w t c) (λ _, ContainerInfoOf c).

(** [os.Stat(path)], as its error.  The system may refuse the call
    ([os_fault]: a permission, a device error); otherwise it fails, with
    [ENOENT], exactly when nothing is there. *)
Definition os_Stat (path : string) : M (option error) :=
  fault ← ask (λ t, os_fault w t (Stat path));
  _ ← emit (Stat path);
  fs ← get_files;
  mret (do_Stat path fault fs).

(** *** handleAttachErr *)

Definition handleAttachErr (err : option error) : option error :=
  match err with
  | Some e =>
      if strings_HasPrefix (Error e) "exited with code " then
        (* Ignore errors coming from the container. *)
        None
      else err
  | None => err
  end.

(** *** awaitSessionSchedule *)

(** One turn of the [for] loop per unit of fuel.  The [select] takes the
    [ctx.Done()] case when the environment says so and the timer's case
    otherwise. *)
Fixpoint awaitSessionSchedule_loop (fuel : nat) (session : string) : M (result Session) :=
  match fuel with
  | O => pending
  | S fuel' =>
      done ← ask (ctx_Done w);
      match done with
      | Some e => _ ← emit (CtxDone e); mret (Err e)
      | None =>
          _ ← emit TimerFired;
          r ← beaker_Session_Get session;
          match r with
          | Err e => mret (Err e)
          | Ok info =>
              if bool_decide (Scheduled (State info) ≠ None) then
                _ ← when (negb (quiet w)) (print newline);
                mret (Ok info)
              else
                _ ← when (negb (quiet w)) (print ".");
                _ ← emit (TimerSet time_Second);
                awaitSessionSchedule_loop fuel' session
          end
      end
  end.

Definition awaitSessionSchedule (fuel : nat) (session : string) : M (result Session) :=
  _ ← when (negb (quiet w)) (print "Waiting for session to be scheduled");
  _ ← emit (TimerSet 0);  (* No delay on first attempt. *)
  awaitSessionSchedule_loop fuel session.

(** *** startSession *)

Definition startSession (fuel : nat) (sessionID image : string) (command : option (list string))
  : M (option error) :=
  r ← awaitSessionSchedule fuel sessionID;
  match r with
  | Err e => mret (Some e)
  | Ok session =>
      _ ← match Limits session with
          | Some limits =>
              when (negb (quiet w))
                (emit (StdoutReserved (length (GPUs limits)) (CPUCount limits) (Memory limits)))
          | None => mret ()
          end;
      match Limits session with
      | None => panic "invalid memory address or nil pointer dereference"
      | Some limits =>
          let labels : gmap string string :=
            <[sessionContainerLabel := ID session]>
              (<[sessionGPULabel := strings_Join (GPUs limits) ","]> ∅) in
          u ← user_Current;
          match u with
          | Err e => mret (Some e)
          | Ok u =>
              let home := negb (String.eqb (HomeDir u) EmptyString) in
              let env : gmap string string :=
                if home then <["HOME" := HomeDir u]> ∅ else ∅ in
              let mounts : list Mount :=
                if home then [{| HostPath := HomeDir u; ContainerPath := HomeDir u |}] else [] in
              net ← os_Stat "/net";
              let mounts :=
                if negb (from_option os_IsNotExist false net)
                then (mounts ++ [{| HostPath := "/net"; ContainerPath := "/net" |}])%list
                else mounts in
              let opts := {|
                Name := strings_ToLower ("session-" +:+ ID session);
                Image := image;
                Command := command;
                Labels := labels;
                Env := env;
                Mounts := mounts;
                opts_CPUCount := CPUCount limits;
                opts_GPUs := GPUs limits;
                opts_Memory := Memory limits;
                Interactive := true;
                User := Uid u +:+ ":" +:+ Gid u;
                WorkingDir := HomeDir u;
              |} in
              rt ← docker_NewRuntime;
              match rt with
              | Some e => mret (Some e)
              | None =>
                  _ ← when (negb (quiet w)) (print ("Pulling image..." +:+ newline));
                  pulled ← rt_PullImage (Image opts) (quiet w);
                  match pulled with
                  | Some e => mret (Some e)
                  | None =>
                      created ← rt_CreateContainer opts;
                      match created with
                      | Err e => mret (Some e)
                      | Ok c =>
                          started ← container_Start c;
                          match started with
                          | Some e => mret (Some e)
                          | None =>
                              attached ← container_Attach c;
                              mret (handleAttachErr attached)
                          end
                      end
                  end
              end
          end
      end
  end.

(** *** findRunningContainer *)

Fixpoint findRunningContainer_scan (session : string) (containers : list container)
  : M (result (option container)) :=
  match containers with
  | [] => mret (Ok None)
  | c :: rest =>
      info ← container_Info c;
      match info with
      | Err e => mret (Err e)
      | Ok info =>
          if String.eqb session (default EmptyString (info_Labels info !! sessionContainerLabel))
          then mret (Ok (Some c))
          else findRunningContainer_scan session rest
      end
  end.

Definition findRunningContainer (session : string) : M (result container) :=
  r ← beaker_Session_Get session;
  match r with
  | Err e => mret (Err e)
  | Ok info =>
      if bool_decide (Started (State info) = None) then
        mret (Err (Errorf "session not started"))
      else if bool_decide (Ended (State info) ≠ None) then
        mret (Err (Errorf "session already ended"))
      else if bool_decide (Finalized (State info) ≠ None) then
        mret (Err (Errorf "session already finalized"))
      else
        rt ← docker_NewRuntime;
        match rt with
        | Some e => mret (Err e)
        | None =>
            containers ← rt_ListContainers;
            match containers with
            | Err e => mret (Err e)
            | Ok containers =>
                found ← findRunningContainer_scan session containers;
                match found with
                | Err e => mret (Err e)
                | Ok None => mret (Err (Errorf "container not found"))
                | Ok (Some c) => mret (Ok c)
                end
            end
        end
  end.

(** *** The session commands

    Each command is its [RunE]; cobra has checked the number of arguments
    before it runs, so [args] has the shape the command declares. *)

Definition newSessionAttachCommand (session : string) : M (option error) :=
  r ← findRunningContainer session;
  match r with
  | Err e => mret (Some e)
  | Ok c => attached ← container_Attach c; mret (handleAttachErr attached)
  end.

Definition newSessionExecCommand (session : string) (command : list string) : M (option error) :=
  r ← findRunningContainer session;
  match r with
  | Err e => mret (Some e)
  | Ok c =>
      (* Pass nil instead of empty slice when there are no arguments. *)
      let command := match command with [] => None | _ => Some command end in
      e ← container_Exec c command;
      mret (handleAttachErr e)
  end.

Definition newSessionCreateCommand (fuel : nat) (gpus : Z) (image name node : string)
    (args : list string) : M (option error) :=
  n ← (if String.eqb node EmptyString then
         r ← getCurrentNode;
         mret (match r with
               | Err e => Err (Wrapf "failed to detect node; use --node flag" e)
               | Ok n => Ok n
               end)
       else mret (Ok node));
  match n with
  | Err e => mret (Some e)
  | Ok node =>
      r ← beaker_CreateSession {| spec_Name := name; spec_Node := node; spec_GPUCount := gpus |};
      match r with
      | Err e => mret (Some e)
      | Ok session =>
          (* Pass nil instead of empty slice when there are no arguments. *)
          let command := match args with [] => None | _ => Some args end in
          started ← startSession fuel (ID session) image command;
          match started with
          | Some e =>
              (* If we fail to start the session, cancel it so that the executor
                 can immediately reclaim the resources allocated to it.
                 Use context.Background() since ctx may already be canceled. *)
              t ← now;
              _ ← beaker_Session_Patch Background (ID session)
                    {| patch_State := Some {| Scheduled := None; Started := None; Ended := None;
                                              Finalized := None; Canceled := t |} |};
              mret (Some e)
          | None => mret None
          end
      end
  end.

Definition newSessionUpdateCommand (cancel : bool) (session : string) : M (option error) :=
  t ← (if cancel then now else mret None);
  let patch := {| patch_State := Some {| Scheduled := None; Started := None; Ended := None;
                                         Finalized := None; Canceled := t |} |} in
  r ← beaker_Session_Patch Ctx session patch;
  match r with
  | Err e => mret (Some e)
  | Ok session => printSessions [session]
  end.

End Program.

(** ** executor_linux.go *)

Definition versionURL : string := "https://storage.googleapis.com/ai2-beaker-public/bin/latest".

(** [fmt.Sprintf(executorURL, version)] *)
Definition executorURL (version : string) : string :=
  "https://storage.googleapis.com/ai2-beaker-public/bin/" +:+ version +:+ "/executor".

Definition executorPath : string := "/usr/bin/beaker-executor".
Definition executorService : string := "beaker-executor".

(** [fmt.Sprintf("/etc/systemd/system/%s.service", executorService)] *)
Definition executorSystemdPath : string :=
  "/etc/systemd/system/" +:+ executorService +:+ ".service".

(** [configTemplate.Execute]: the text it writes. *)
Definition configTemplate (o : configOpts) : string :=
  newline +:+ "storagePath: " +:+ StoragePath o +:+ newline +:+
  "beaker:" +:+ newline +:+
  "  tokenPath: " +:+ TokenPath o +:+ newline +:+
  "  cluster: " +:+ Cluster o.

(** [systemdTemplate.Execute]: the text it writes. *)
Definition systemdTemplate (o : systemdOpts) : string :=
  newline +:+ "[Unit]" +:+ newline +:+
  "Description=Beaker executor" +:+ newline +:+
  "After=network.target" +:+ newline +:+
  "StartLimitIntervalSec=0" +:+ newline +:+
  newline +:+
  "[Service]" +:+ newline +:+
  "Type=simple" +:+ newline +:+
  "Restart=always" +:+ newline +:+
  "RestartSec=1" +:+ newline +:+
  "ExecStart=" +:+ BinaryPath o +:+ newline +:+
  "Environment=CONFIG_PATH=" +:+ ConfigPath o +:+ newline +:+
  newline +:+
  "[Install]" +:+ newline +:+
  "WantedBy=multi-user.target".

(** *** File operations

    The file system is a finite map from paths to nodes.  A directory is
    known by its own path; what lies under it are the paths that extend it
    by a slash. *)

Definition under (dir path : string) : bool :=
  String.eqb path dir || strings_HasPrefix path (dir +:+ "/").

Definition has_children (fs : gmap string node) (dir : string) : bool :=
  bool_decide (filter (λ kv, strings_HasPrefix kv.1 (dir +:+ "/") = true) fs ≠ ∅).

Definition do_MkdirAll (path : string) (mode : Z) (fs : gmap string node)
  : Errno + gmap string node :=
  match fs !! path with
  | Some (Dir _) => inr fs
  | Some (File _ _) => inl ENOTDIR
  | None => inr (<[path := Dir mode]> fs)
  end.

(** [O_WRONLY|O_CREATE|O_TRUNC] followed by one write of [data]. *)
Definition do_WriteFile (path data : string) (mode : Z) (fs : gmap string node)
  : Errno + gmap string node :=
  match fs !! path with
  | Some (Dir _) => inl EISDIR
  | Some (File _ m) => inr (<[path := File data m]> fs)
  | None => inr (<[path := File data mode]> fs)
  end.

(** [os.Create]: [O_RDWR|O_CREATE|O_TRUNC], mode 0666. *)
Definition do_Create (path : string) (fs : gmap string node) : Errno + gmap string node :=
  do_WriteFile path EmptyString 438 fs.

(** A write through the handle of a file opened before. *)
Definition do_Write (path data : string) (fs : gmap string node) : Errno + gmap string node :=
  match fs !! path with
  | Some (File old m) => inr (<[path := File (old +:+ data) m]> fs)
  | _ => inl EIO
  end.

Definition do_Chmod (path : string) (mode : Z) (fs : gmap string node)
  : Errno + gmap string node :=
  match fs !! path with
  | Some (File data _) => inr (<[path := File data mode]> fs)
  | Some (Dir _) => inr (<[path := Dir mode]> fs)
  | None => inl ENOENT
  end.

Definition do_Remove (path : string) (fs : gmap string node) : Errno + gmap string node :=
  match fs !! path with
  | None => inl ENOENT
  | Some (File _ _) => inr (delete path fs)
  | Some (Dir _) => if has_children fs path then inl ENOTEMPTY else inr (delete path fs)
  end.

(** [path] without its trailing slashes: the directory that a path such as
    ["/var/beaker/"] names.  The root becomes the empty string, which every
    absolute path extends by a slash. *)
Fixpoint strip_slashes (path : string) : string :=
  match path with
  | EmptyString => EmptyString
  | String c rest =>
      match strip_slashes rest with
      | EmptyString => if Ascii.eqb c "/" then EmptyString else String c EmptyString
      | rest' => String c rest'
      end
  end.

(** [os.RemoveAll]: "If the path does not exist, RemoveAll returns nil".  It
    returns nil for the empty path too, and removes the tree that the path
    names, trailing slashes or not.  What the system refuses (a permission,
    a path that ends in a dot) comes through [os_fault]. *)
Definition do_RemoveAll (path : string) (fs : gmap string node) : Errno + gmap string node :=
  if String.eqb path EmptyString then inr fs
  else inr (filter (λ kv, under (strip_slashes path) kv.1 = false) fs).

Section Executor.

Context (w : World).

(** A file operation that changes the file system: the environment may make
    it fail (permissions, a device error); otherwise it acts on the map. *)
Definition os_op (ev : event) (op path : string)
    (act : gmap string node → Errno + gmap string node) : M (option error) :=
  fault ← ask (λ t, os_fault w t ev);
  _ ← emit ev;
  match fault with
  | Some no => mret (Some (PathError op path no))
  | None =>
      fs ← get_files;
      match act fs with
      | inl no => mret (Some (PathError op path no))
      | inr fs' => _ ← put_files fs'; mret None
      end
  end.

Definition os_MkdirAll (path : string) (mode : Z) : M (option error) :=
  os_op (MkdirAll path) "mkdir" path (do_MkdirAll path mode).

Definition ioutil_WriteFile (path data : string) (mode : Z) : M (option error) :=
  os_op (WriteFile path mode) "open" path (do_WriteFile path data mode).

Definition os_Create (path : string) : M (option error) :=
  os_op (Create path) "open" path (do_Create path).

Definition file_Write (path data : string) : M (option error) :=
  os_op (Write path) "write" path (do_Write path data).

Definition os_Chmod (path : string) (mode : Z) : M (option error) :=
  os_op (Chmod path mode) "chmod" path (do_Chmod path mode).

Definition os_Remove (path : string) : M (option error) :=
  os_op (Remove path) "remove" path (do_Remove path).

Definition os_RemoveAll (path : string) : M (option error) :=
  os_op (RemoveAll path) "unlinkat" path (do_RemoveAll path).

Definition http_Get (url : string) : M (result Response) :=
  call (λ t, answer_HttpGet w t url) (λ _, HttpGet url).

Definition beaker_Cluster_Get (name : string) : M (option error) :=
  call (λ t, answer_ClusterGet w t name) (λ _, ClusterGet name).

Definition confirm (prompt : string) : M (result bool) :=
  call (λ t, answer_confirm w t prompt) (λ _, Confirm prompt).

Definition getExecutorConfig : M (result configOpts) :=
  call (answer_getExecutorConfig w) (λ _, GetExecutorConfig).

(** [path.Join(executorConfigDir, "executor-token")] *)
Definition executorTokenPath : string :=
  path_Join w [executorConfigDir w; "executor-token"].

(** *** Subprocesses

    A subprocess answers with its combined output and its error; what it
    does to the host is not part of the state. *)

Definition runCmd (argv env : list string) : M (option error) :=
  r ← call (λ t, answer_Run w t argv env) (λ _, Exec argv env);
  match r.2 with
  | Some e =>
      _ ← print ("Output from " +:+ strconv_Quote w (strings_Join argv " ") +:+ ":" +:+ newline
                 +:+ r.1 +:+ newline);
      mret (Some e)
  | None => mret None
  end.

Definition run (path : string) (args : list string) : M (option error) :=
  runCmd (path :: args) [].

Definition startExecutor : M (option error) :=
  e ← run "systemctl" ["daemon-reload"];
  match e with
  | Some e => mret (Some e)
  | None =>
      e ← run "systemctl" ["enable"; executorService];
      match e with
      | Some e => mret (Some e)
      | None => run "systemctl" ["start"; executorService]
      end
  end.

Definition stopExecutor : M (option error) :=
  e ← run "systemctl" ["disable"; executorService];
  match e with
  | Some e => mret (Some e)
  | None => run "systemctl" ["stop"; executorService]
  end.

(** The executor cleanup command removes running containers. *)
Definition cleanupExecutor : M (option error) :=
  runCmd [executorPath; "cleanup"]
         [strings_Join ["CONFIG_PATH"; executorConfigPath w] "="].

(** *** Download *)

Definition getLatestVersion : M (result string) :=
  r ← http_Get versionURL;
  match r with
  | Err e => mret (Err e)
  | Ok resp =>
      match BodyErr resp with
      | Some e => mret (Err e)
      | None => mret (Ok (strings_TrimSpace w (Body resp)))
      end
  end.

Definition downloadExecutor : M (option error) :=
  v ← getLatestVersion;
  match v with
  | Err e => mret (Some e)
  | Ok version =>
      r ← http_Get (executorURL version);
      match r with
      | Err e => mret (Some e)
      | Ok resp =>
          out ← os_Create executorPath;
          match out with
          | Some e => mret (Some e)
          | None =>
              (* io.Copy(out, resp.Body) *)
              copied ← file_Write executorPath (Body resp);
              match copied with
              | Some e => mret (Some e)
              | None =>
                  match BodyErr resp with
                  | Some e => mret (Some e)
                  | None => os_Chmod executorPath 448
                  end
              end
          end
      end
  end.

(** *** The executor commands *)

Definition println (text : string) : M unit := emit (Stdout (text +:+ newline)).

Definition install_refusal : string :=
  "executor is already installed." +:+ newline +:+
  "Run " +:+ dquote +:+ "upgrade" +:+ dquote +:+ " to install the latest version or run " +:+
  dquote +:+ "uninstall" +:+ dquote +:+ " before installing.".

Definition newExecutorInstallCommand (storageDir cluster : string) : M (option error) :=
  st ← os_Stat w executorPath;
  match st with
  | None =>
      mret (Some (Errorf install_refusal))
  | Some _ =>
      c ← beaker_Cluster_Get cluster;
      match c with
      | Some e => mret (Some e)
      | None =>
      e ← os_MkdirAll (executorConfigDir w) 511;
      match e with
      | Some e => mret (Some e)
      | None =>
      e ← ioutil_WriteFile executorTokenPath (beakerConfig_UserToken w) 384;
      match e with
      | Some e => mret (Some e)
      | None =>
      e ← os_Create (executorConfigPath w);
      match e with
      | Some e => mret (Some e)
      | None =>
      e ← file_Write (executorConfigPath w)
            (configTemplate {| StoragePath := storageDir; TokenPath := executorTokenPath;
                               Cluster := cluster |});
      match e with
      | Some e => mret (Some e)
      | None =>
      e ← os_Create executorSystemdPath;
      match e with
      | Some e => mret (Some e)
      | None =>
      e ← file_Write executorSystemdPath
            (systemdTemplate {| BinaryPath := executorPath; ConfigPath := executorConfigPath w |});
      match e with
      | Some e => mret (Some e)
      | None =>
      e ← downloadExecutor;
      match e with
      | Some e => mret (Some e)
      | None =>
      e ← startExecutor;
      match e with
      | Some e => mret (Some e)
      | None =>
          _ ← when (negb (quiet w)) (println "Executor installed and started");
          mret None
      end end end end end end end end end
  end.

Definition newExecutorRestartCommand : M (option error) :=
  e ← stopExecutor;
  match e with
  | Some e => mret (Some e)
  | None =>
      e ← startExecutor;
      match e with
      | Some e => mret (Some e)
      | None => _ ← when (negb (quiet w)) (println "Executor restarted"); mret None
      end
  end.

Definition newExecutorStartCommand : M (option error) :=
  e ← startExecutor;
  match e with
  | Some e => mret (Some e)
  | None => _ ← when (negb (quiet w)) (println "Executor started"); mret None
  end.

Definition stop_prompt : string :=
  "Stopping the executor will kill all running tasks." +:+ newline +:+
  "Are you sure you want to stop the executor?".

Definition newExecutorStopCommand : M (option error) :=
  c ← confirm stop_prompt;
  match c with
  | Err e => mret (Some e)
  | Ok false => mret None
  | Ok true =>
      e ← stopExecutor;
      match e with
      | Some e => mret (Some e)
      | None =>
          e ← cleanupExecutor;
          match e with
          | Some e => mret (Some e)
          | None => _ ← when (negb (quiet w)) (println "Executor stopped"); mret None
          end
      end
  end.

(** [fmt.Sprintf(prompt, config.StoragePath)], with [%q] *)
Definition uninstall_prompt (storagePath : string) : string :=
  "Uninstalling the executor will kill all running tasks" +:+ newline +:+
  "and delete all data in " +:+ strconv_Quote w storagePath +:+ "." +:+ newline +:+
  newline +:+
  "Are you sure you want to uninstall the executor?".

(** [err != nil && !os.IsNotExist(err)] *)
Definition fatal (err : option error) : option error :=
  match err with
  | Some e => if os_IsNotExist e then None else Some e
  | None => None
  end.

Definition newExecutorUninstallCommand : M (option error) :=
  cfg ← getExecutorConfig;
  match cfg with
  | Err e => mret (Some e)
  | Ok config =>
      c ← confirm (uninstall_prompt (StoragePath config));
      match c with
      | Err e => mret (Some e)
      | Ok false => mret None
      | Ok true =>
          (* This may fail if the systemd file has already been deleted. *)
          e ← stopExecutor;
          _ ← match e with
              | Some e => emit (Stderr ("error stopping executor: " +:+ Error e +:+ newline))
              | None => mret ()
              end;
          (* This may fail if the executor binary has already been deleted. *)
          e ← cleanupExecutor;
          _ ← match e with
              | Some e => emit (Stderr ("error cleaning up executor: " +:+ Error e +:+ newline))
              | None => mret ()
              end;
          e ← os_RemoveAll (StoragePath config);
          match fatal e with
          | Some e => mret (Some e)
          | None =>
          e ← os_Remove executorTokenPath;
          match fatal e with
          | Some e => mret (Some e)
          | None =>
          e ← os_Remove executorSystemdPath;
          match fatal e with
          | Some e => mret (Some e)
          | None =>
          e ← os_Remove (executorConfigPath w);
          match fatal e with
          | Some e => mret (Some e)
          | None =>
          e ← os_Remove executorPath;
          match fatal e with
          | Some e => mret (Some e)
          | None =>
              _ ← when (negb (quiet w)) (println "Executor uninstalled");
              mret None
          end end end end end
      end
  end.

Definition newExecutorUpgradeCommand : M (option error) :=
  e ← stopExecutor;
  match e with
  | Some e => mret (Some e)
  | None =>
      e ← downloadExecutor;
      match e with
      | Some e => mret (Some e)
      | None =>
          e ← startExecutor;
          match e with
          | Some e => mret (Some e)
          | None => _ ← when (negb (quiet w)) (println "Executor upgraded"); mret None
          end
      end
  end.

End Executor.

(** ** Reading traces *)

(** Calls to the container runtime driver. *)
Definition driver_call (e : event) : bool :=
  match e with
  | NewRuntime | PullImage _ _ | CreateContainer _ | ContainerStart _ | ContainerAttach _
  | ContainerExec _ _ | ListContainers | ContainerInfoOf _ => true
  | _ => false
  end.

(** Requests that change a session on the remote scheduler. *)
Definition is_patch (e : event) : bool :=
  match e with
  | SessionPatched _ _ _ => true
  | _ => false
  end.

(** The path an event writes to, creates or removes. *)
Definition touched (e : event) : option string :=
  match e with
  | MkdirAll p | WriteFile p _ | Create p | Write p | Chmod p _ | Remove p | RemoveAll p => Some p
  | _ => None
  end.

Definition is_removal (e : event) : bool :=
  match e with
  | Remove _ | RemoveAll _ => true
  | _ => false
  end.

(** The durations the wait's timer was set to, in order. *)
Definition timer_settings (evs : list event) : list Z :=
  omap (λ e, match e with TimerSet d => Some d | _ => None end) evs.

(** The answers the session fetches of a run got, in order. *)
Definition fetches (evs : list event) : list (string * result Session) :=
  omap (λ e, match e with SessionGet id r => Some (id, r) | _ => None end) evs.

(** The events of one turn of the scheduling wait that fetched the
    unscheduled session [info], and of a whole sequence of such turns. *)
Definition poll_round (w : World) (id : string) (info : Session) : list event :=
  [TimerFired; SessionGet id (Ok info)] ++
  (if quiet w then [] else [Stdout "."]) ++
  [TimerSet time_Second].

Definition poll_rounds (w : World) (id : string) (infos : list Session) : list event :=
  concat (map (poll_round w id) infos).

(** The events that open the scheduling wait. *)
Definition wait_banner (w : World) : list event :=
  (if quiet w then [] else [Stdout "Waiting for session to be scheduled"]) ++ [TimerSet 0].

(** The events that end a scheduling wait with the result [r]: a fetch that
    found the session scheduled, a fetch that failed, or ([by_ctx]) the
    context's cancellation. *)
Definition wait_end (w : World) (id : string) (r : result Session) (by_ctx : bool) : list event :=
  match r with
  | Ok info => [TimerFired; SessionGet id (Ok info)] ++ (if quiet w then [] else [Stdout newline])
  | Err e => if by_ctx then [CtxDone e] else [TimerFired; SessionGet id (Err e)]
  end.

(** The events of the loop of a scheduling wait: its turns, then its end if
    it has one. *)
Definition wait_trace (w : World) (id : string) (infos : list Session)
    (o : outcome (result Session)) (by_ctx : bool) : list event :=
  poll_rounds w id infos ++
  match o with
  | Done r => wait_end w id r by_ctx
  | _ => []
  end.

(** The events a scheduling wait can add to the trace. *)
Definition wait_event (e : event) : bool :=
  match e with
  | Stdout _ | TimerSet _ | TimerFired | SessionGet _ _ | CtxDone _ => true
  | _ => false
  end.

(** A computation is confined to the paths in [P] when it returns, every
    event it adds that touches a path touches one in [P], and every other
    path holds afterwards what it held before. *)
Definition confined {A : Type} (P : string → Prop) (m : M A) : Prop :=
  ∀ s, ∃ a evs,
    (m s).1 = Done a ∧
    trace (m s).2 = (trace s ++ evs)%list ∧
    Forall (λ e, ∀ p, touched e = Some p → P p) evs ∧
    ∀ p, ¬ P p → files (m s).2 !! p = files s !! p.

(** The file operations on one path leave the other paths alone. *)
Definition local_to (path : string) (act : gmap string node → Errno + gmap string node) : Prop :=
  ∀ fs fs' p, act fs = inr fs' → p ≠ path → fs' !! p = fs !! p.

(** The removals of an uninstall, in the order the command makes them. *)
Definition uninstall_targets (w : World) (config : configOpts) : list event :=
  [ RemoveAll (StoragePath config); Remove (executorTokenPath w); Remove executorSystemdPath;
    Remove (executorConfigPath w); Remove executorPath ].

(** [fs'] holds nothing that [fs] did not hold. *)
Definition shrinks (fs' fs : gmap string node) : Prop :=
  ∀ p, fs' !! p = None ∨ fs' !! p = fs !! p.

(** Nothing, or a regular file, is at [p]. *)
Definition absent_or_file (fs : gmap string node) (p : string) : Prop :=
  fs !! p = None ∨ ∃ data mode, fs !! p = Some (File data mode).

(** The four files an uninstall removes one by one. *)
Definition uninstall_files (w : World) : list string :=
  [executorTokenPath w; executorSystemdPath; executorConfigPath w; executorPath].

(** ** Example worlds *)

Definition canceled : error := Foreign "context canceled".

Definition example_limits : ResourceLimits :=
  {| CPUCount := 0; GPUs := ["0"; "1"]; Memory := 8589934592 |}.

Definition example_session (st : ExecutionState) : Session :=
  {| ID := "01F2ZXCV"; Limits := Some example_limits; State := st |}.

Definition scheduled_at (t : Z) : ExecutionState :=
  {| Scheduled := Some t; Started := None; Ended := None; Finalized := None; Canceled := None |}.

Definition example_user : OsUser := {| Uid := "1000"; Gid := "1000"; HomeDir := "/home/ada" |}.

(** A quiet world in which every call succeeds, but for the answers given
    as arguments: whether the context is done, what a session fetch
    returns, which file operations fail, and how subprocesses end. *)
Definition example_world
    (done : list event → option error)
    (get : list event → string → result Session)
    (fault : list event → event → option Errno)
    (runs : list event → list string → list string → string * option error) : World :=
  {| quiet := true;
     beakerConfig_UserToken := "secret";
     executorConfigDir := "/etc/beaker";
     executorConfigPath := "/etc/beaker/executor.yml";
     path_Join := λ elems, strings_Join elems "/";
     unicode_ToLower_from := λ s, s;
     strings_TrimSpace := λ s, s;
     strconv_Quote := λ s, dquote +:+ s +:+ dquote;
     clock := λ t, Z.of_nat (length t);
     ctx_Done := done;
     answer_getCurrentNode := λ _, Ok "node-1";
     answer_CreateSession := λ _ _, Ok (example_session ExecutionState_zero);
     answer_SessionGet := get;
     answer_SessionPatch := λ _ _ _ _, Ok (example_session ExecutionState_zero);
     answer_ClusterGet := λ _ _, None;
     answer_printSessions := λ _ _, None;
     answer_confirm := λ _ _, Ok true;
     answer_getExecutorConfig := λ _,
       Ok {| StoragePath := "/var/beaker"; TokenPath := "/etc/beaker/executor-token";
             Cluster := "ai2/prod" |};
     answer_UserCurrent := λ _, Ok example_user;
     answer_NewRuntime := λ _, None;
     answer_PullImage := λ _ _, None;
     answer_CreateContainer := λ _ _, Ok "c0ffee";
     answer_Start := λ _ _, None;
     answer_Attach := λ _ _, None;
     answer_Exec := λ _ _ _, None;
     answer_ListContainers := λ _, Ok [];
     answer_Info := λ _ _, Ok {| info_Labels := ∅ |};
     os_fault := fault;
     answer_HttpGet := λ _ _, Ok {| Body := "v1.2.3"; BodyErr := None |};
     answer_Run := runs |}.

Definition never_done : list event → option error := λ _, None.
Definition no_fault : list event → event → option Errno := λ _ _, None.
Definition runs_ok : list event → list string → list string → string * option error :=
  λ _ _ _, (EmptyString, None).

(** The scheduler never schedules the session. *)
Definition world_unscheduled : World :=
  example_world never_done (λ _ _, Ok (example_session ExecutionState_zero)) no_fault runs_ok.

(** The scheduler has scheduled the session at the first fetch. *)
Definition world_scheduled : World :=
  example_world never_done (λ _ _, Ok (example_session (scheduled_at 7))) no_fault runs_ok.

(** The context is canceled before the first fetch. *)
Definition world_canceled : World :=
  example_world (λ _, Some canceled) (λ _ _, Ok (example_session ExecutionState_zero))
    no_fault runs_ok.

Definition fresh_host : state := {| trace := []; files := ∅ |}.

(** What the launcher asks the runtime to create in [world_scheduled]. *)
Definition example_opts : ContainerOpts :=
  {| Name := "session-01f2zxcv";
     Image := "allenai/base:cuda11.2-ubuntu20.04";
     Command := None;
     Labels := <["beaker.org/session" := "01F2ZXCV"]> (<["beaker.org/gpus" := "0,1"]> ∅);
     Env := <["HOME" := "/home/ada"]> ∅;
     Mounts := [{| HostPath := "/home/ada"; ContainerPath := "/home/ada" |}];
     opts_CPUCount := 0;
     opts_GPUs := ["0"; "1"];
     opts_Memory := 8589934592;
     Interactive := true;
     User := "1000:1000";
     WorkingDir := "/home/ada" |}.

(** A host with the NFS mount point, and what the launcher asks for there. *)
Definition host_with_net : state := {| trace := []; files := {["/net" := Dir 493]} |}.

Definition opts_with_net : ContainerOpts :=
  {| Name := "session-01f2zxcv";
     Image := "allenai/base:cuda11.2-ubuntu20.04";
     Command := None;
     Labels := <["beaker.org/session" := "01F2ZXCV"]> (<["beaker.org/gpus" := "0,1"]> ∅);
     Env := <["HOME" := "/home/ada"]> ∅;
     Mounts := [{| HostPath := "/home/ada"; ContainerPath := "/home/ada" |};
                {| HostPath := "/net"; ContainerPath := "/net" |}];
     opts_CPUCount := 0;
     opts_GPUs := ["0"; "1"];
     opts_Memory := 8589934592;
     Interactive := true;
     User := "1000:1000";
     WorkingDir := "/home/ada" |}.

(** Subprocesses in which [systemctl] succeeds and everything else (the
    executor's own cleanup) fails. *)
Definition runs_cleanup_fails : list event → list string → list string → string * option error :=
  λ _ argv _,
    if String.eqb (hd EmptyString argv) "systemctl" then (EmptyString, None)
    else ("cannot reach docker", Some (Foreign "exit status 1")).

Definition world_cleanup_fails : World :=
  example_world never_done (λ _ _, Ok (example_session ExecutionState_zero)) no_fault
    runs_cleanup_fails.

(** Removing the storage directory is refused. *)
Definition fault_storage : list event → event → option Errno :=
  λ _ ev, match ev with RemoveAll _ => Some EACCES | _ => None end.

Definition world_storage_locked : World :=
  example_world never_done (λ _ _, Ok (example_session ExecutionState_zero)) fault_storage
    runs_ok.

(** A host on which the executor is installed. *)
Definition installed_host : state :=
  {| trace := [];
     files := <["/usr/bin/beaker-executor" := File "ELF" 448]>
              (<["/etc/beaker/executor.yml" := File "storagePath: /var/beaker" 438]>
              (<["/etc/beaker/executor-token" := File "secret" 384]>
              (<["/etc/systemd/system/beaker-executor.service" := File "[Unit]" 438]>
              (<["/var/beaker" := Dir 511]> ∅)))) |}.

(** ** More of session.go: get and list *)

Section SessionGet.
Context (w : World).

(** The [for _, id := range args] of [session get]: [sessions] is what has
    been appended so far. *)
Fixpoint newSessionGetCommand_loop (args : list string) (sessions : list Session)
  : M (result (list Session)) :=
  match args with
  | [] => mret (Ok sessions)
  | id :: rest =>
      r ← beaker_Session_Get w id;
      match r with
      | Err e => mret (Err e)
      | Ok info => newSessionGetCommand_loop rest (sessions ++ [info])%list
      end
  end.

Definition newSessionGetCommand (args : list string) : M (option error) :=
  r ← newSessionGetCommand_loop args [];
  match r with
  | Err e => mret (Some e)
  | Ok sessions => printSessions w sessions
  end.

End SessionGet.

(** [session list] makes at most three calls, each at most once: the
    current node, the listing, the printing.  The command is written out as
    the calls it makes and the error it returns; the answers are given once
    for each call. *)
Module SessionList.

(** [client.ListSessionOpts]: three pointers. *)
Record ListSessionOpts := {
  Cluster : option string;
  Node : option string;
  Finalized : option bool;
}.

Inductive call :=
| GetCurrentNode
| ListSessions (opts : ListSessionOpts)
| PrintSessions (sessions : list Session).

Record Answers := {
  getCurrentNode : result string;
  ListSessions_answer : ListSessionOpts → result (list Session);
  printSessions : list Session → option error;
}.

(** The end of [RunE]: list with [opts], then print. *)
Definition list_and_print (a : Answers) (opts : ListSessionOpts) : list call * option error :=
  match ListSessions_answer a opts with
  | Err e => ([ListSessions opts], Some e)
  | Ok sessions => ([ListSessions opts; PrintSessions sessions], printSessions a sessions)
  end.

(** [var opts client.ListSessionOpts] *)
Definition no_opts : ListSessionOpts :=
  {| Cluster := None; Node := None; Finalized := None |}.

(** The flags: [--all], [--cluster], [--node] with whether it was given
    ([cmd.Flag("node").Changed]), [--finalized]. *)
Definition newSessionListCommand (a : Answers) (all : bool) (cluster node : string)
    (node_changed finalized : bool) : list call * option error :=
  if all then list_and_print a no_opts
  else
    let opts_cluster := if String.eqb cluster EmptyString then None else Some cluster in
    let with_node (node : string) : ListSessionOpts :=
      {| Cluster := opts_cluster;
         Node := if String.eqb node EmptyString then None else Some node;
         Finalized := Some finalized |} in
    if negb node_changed && String.eqb cluster EmptyString then
      match getCurrentNode a with
      | Err e => ([GetCurrentNode], Some (Wrapf "failed to detect node; use --node flag" e))
      | Ok node =>
          let r := list_and_print a (with_node node) in
          (GetCurrentNode :: r.1, r.2)
      end
    else list_and_print a (with_node node).

(** Answers for an example: the current node is known, and it has one
    session. *)
Definition example_list_answers : Answers :=
  {| getCurrentNode := Ok "node-1";
     ListSessions_answer := λ _, Ok [example_session (scheduled_at 7)];
     printSessions := λ _, None |}.

End SessionList.

(** ** dataset stream-file

    [run] of the [stream-file] command makes four calls in a row, each at
    most once; it is written out as the calls it makes and the error it
    returns. *)
Module StreamFile.

(** [api.DatasetFile]; the time of last modification is not used. *)
Record DatasetFile := {
  File : string;
  Size : Z;
}.

(** [api.DatasetManifest] *)
Record DatasetManifest := {
  ID : string;
  SingleFile : bool;
  Files : list DatasetFile;
}.

(** A dataset handle of the client library. *)
Definition handle := string.

Inductive call :=
| Dataset (reference : string)
| Manifest (dataset : handle)
| Download (dataset : handle) (filename : string)
| CopyToStdout (data : string).

Record Answers := {
  Dataset_answer : string → result handle;
  Manifest_answer : handle → result DatasetManifest;
  Download_answer : handle → string → result string;
  Copy_answer : string → option error;       (* io.Copy(os.Stdout, r) *)
}.

(** [streamFileOptions] *)
Record streamFileOptions := {
  dataset : string;
  file : string;
}.

(** [errors.WithStack(err)] keeps nil and keeps the text of an error; the
    stack it records is left out. *)
Definition errors_WithStack (err : option error) : option error := err.

(** From the download on. *)
Definition download (a : Answers) (d : handle) (filename : string) (before : list call)
  : list call * option error :=
  match Download_answer a d filename with
  | Err e => ((before ++ [Download d filename])%list, Some e)
  | Ok r =>
      ((before ++ [Download d filename; CopyToStdout r])%list,
       errors_WithStack (Copy_answer a r))
  end.

Definition run (a : Answers) (o : streamFileOptions) : list call * option error :=
  match Dataset_answer a (dataset o) with
  | Err e => ([Dataset (dataset o)], Some e)
  | Ok d =>
      match Manifest_answer a d with
      | Err e => ([Dataset (dataset o); Manifest d], Some e)
      | Ok manifest =>
          let before := [Dataset (dataset o); Manifest d] in
          if String.eqb (file o) EmptyString then
            if negb (SingleFile manifest) then
              (before,
               Some (Errorf ("filename required for multi-file dataset " +:+ ID manifest)))
            else
              match Files manifest with
              | [] => (before, Some (Errorf ("dataset " +:+ ID manifest +:+ " has no files")))
              | first :: _ => download a d (File first) before
              end
          else download a d (file o) before
      end
  end.

(** Answers for an example: a single-file dataset. *)
Definition example_stream_answers : Answers :=
  {| Dataset_answer := λ _, Ok "ds_1hz9k6sgxi0a";
     Manifest_answer := λ d,
       Ok {| ID := d; SingleFile := true;
             Files := [{| File := "moby.txt"; Size := 1276201 |}] |};
     Download_answer := λ _ _, Ok "Call me Ishmael.";
     Copy_answer := λ _, None |}.

End StreamFile.

(** ** Reading traces of the launch and of the executor commands *)

(** The lines a launch prints between its steps, when it is not quiet. *)
Definition reserved_line (w : World) (limits : ResourceLimits) : list event :=
  if quiet w then []
  else [StdoutReserved (length (GPUs limits)) (CPUCount limits) (Memory limits)].

Definition pulling_line (w : World) : list event :=
  if quiet w then [] else [Stdout ("Pulling image..." +:+ newline)].

(** The calls a launch makes to the runtime, in the order it makes them. *)
Definition launch_calls (image : string) (q : bool) (opts : ContainerOpts) (c : container)
  : list event :=
  [NewRuntime; PullImage image q; CreateContainer opts; ContainerStart c; ContainerAttach c].

(** Everything a command does, as opposed to what it prints. *)
Definition is_action (e : event) : bool :=
  match e with
  | Stdout _ | StdoutReserved _ _ _ | Stderr _ => false
  | _ => true
  end.

(** Subprocesses started by [run], one after the other. *)
Definition run_steps (cmds : list (list string)) : list event :=
  map (λ argv, Exec argv []) cmds.

Definition systemctl_stop : list (list string) :=
  [["systemctl"; "disable"; executorService]; ["systemctl"; "stop"; executorService]].

Definition systemctl_start : list (list string) :=
  [["systemctl"; "daemon-reload"]; ["systemctl"; "enable"; executorService];
   ["systemctl"; "start"; executorService]].

(** What the version URL answers after the trace [t], trimmed. *)
Definition latest_version (w : World) (t : list event) : string :=
  match answer_HttpGet w t versionURL with
  | Ok latest => strings_TrimSpace w (Body latest)
  | Err _ => EmptyString
  end.

(** The steps of a download of the executor, in order. *)
Definition download_steps (version : string) : list event :=
  [ HttpGet versionURL; HttpGet (executorURL version);
    Create executorPath; Write executorPath; Chmod executorPath 448 ].

(** The steps of the executor commands, in the order each command makes
    them. *)
Definition restart_steps : list event :=
  run_steps systemctl_stop ++ run_steps systemctl_start.

Definition upgrade_steps (version : string) : list event :=
  run_steps systemctl_stop ++ download_steps version ++ run_steps systemctl_start.

(** An install first checks and writes the configuration ... *)
Definition install_config_steps (w : World) (cluster : string) : list event :=
  [ Stat executorPath; ClusterGet cluster;
    MkdirAll (executorConfigDir w); WriteFile (executorTokenPath w) 384;
    Create (executorConfigPath w); Write (executorConfigPath w);
    Create executorSystemdPath; Write executorSystemdPath ].

(** ... and then downloads and starts the executor. *)
Definition install_steps (w : World) (cluster version : string) : list event :=
  install_config_steps w cluster ++ download_steps version ++ run_steps systemctl_start.

Definition stop_steps (w : World) : list event :=
  [Confirm stop_prompt] ++ run_steps systemctl_stop ++
  [Exec [executorPath; "cleanup"] ["CONFIG_PATH=" +:+ executorConfigPath w]].

(** A run from [s] to [s'] follows [script]: it returns, what it did is an
    initial part of the script, anything else it added to the trace is
    output, and it succeeds only at the end of the script ([silent]: and
    then without output). *)
Definition scripted (silent : bool) (script : list event) (s : state)
    (o : outcome (option error)) (s' : state) : Prop :=
  ∃ n r tail,
    (n ≤ length script)%nat ∧
    o = Done r ∧
    trace s' = (trace s ++ take n script ++ tail)%list ∧
    List.filter is_action tail = [] ∧
    (r = None → n = length script ∧ (silent = true → tail = [])).

(** A run from [s] to [s'] is driven along [script] by its subprocesses: it
    follows the script; a run that fails has made at least one step; and
    every subprocess of the script that was started was asked at the trace
    the steps before it had left, and succeeded, but for a subprocess that
    is the last step made: what that one answered is the result. *)
Definition driven (w : World) (silent : bool) (script : list event) (s : state)
    (o : outcome (option error)) (s' : state) : Prop :=
  ∃ n r tail,
    (n ≤ length script)%nat ∧
    o = Done r ∧
    trace s' = (trace s ++ take n script ++ tail)%list ∧
    List.filter is_action tail = [] ∧
    (r = None → n = length script ∧ (silent = true → tail = [])) ∧
    (r ≠ None → (0 < n)%nat) ∧
    (∀ j argv env, script !! j = Some (Exec argv env) → (j < n)%nat →
       (answer_Run w (trace s ++ take j script) argv env).2 =
         if decide (S j = n) then r else None).

(** The events of looking a session's container up. *)
Definition lookup_event (e : event) : bool :=
  match e with
  | SessionGet _ _ | NewRuntime | ListContainers | ContainerInfoOf _ => true
  | _ => false
  end.

(** The session is running: started, not ended, not finalized. *)
Definition running (info : Session) : Prop :=
  Started (State info) ≠ None ∧ Ended (State info) = None ∧ Finalized (State info) = None.

(** The session label of a container, as the lookup reads it: a missing
    label reads as the empty string. *)
Definition session_label (info : ContainerInfo) : string :=
  default EmptyString (info_Labels info !! sessionContainerLabel).


(** ** More example worlds *)

(** A session the scheduler reports as scheduled, but without limits. *)
Definition unlimited_session : Session :=
  {| ID := "01F2ZXCV"; Limits := None; State := scheduled_at 7 |}.

Definition world_no_limits : World :=
  example_world never_done (λ _ _, Ok unlimited_session) no_fault runs_ok.

Definition started_at (t : Z) : ExecutionState :=
  {| Scheduled := Some t; Started := Some t; Ended := None; Finalized := None; Canceled := None |}.

(** [w], but for what a session fetch returns and what the container
    runtime lists and reports. *)
Definition with_runtime (w : World)
    (get : list event → string → result Session)
    (containers : list event → result (list container))
    (info : list event → container → result ContainerInfo) : World :=
  {| quiet := quiet w;
     beakerConfig_UserToken := beakerConfig_UserToken w;
     executorConfigDir := executorConfigDir w;
     executorConfigPath := executorConfigPath w;
     path_Join := path_Join w;
     unicode_ToLower_from := unicode_ToLower_from w;
     strings_TrimSpace := strings_TrimSpace w;
     strconv_Quote := strconv_Quote w;
     clock := clock w;
     ctx_Done := ctx_Done w;
     answer_getCurrentNode := answer_getCurrentNode w;
     answer_CreateSession := answer_CreateSession w;
     answer_SessionGet := get;
     answer_SessionPatch := answer_SessionPatch w;
     answer_ClusterGet := answer_ClusterGet w;
     answer_printSessions := answer_printSessions w;
     answer_confirm := answer_confirm w;
     answer_getExecutorConfig := answer_getExecutorConfig w;
     answer_UserCurrent := answer_UserCurrent w;
     answer_NewRuntime := answer_NewRuntime w;
     answer_PullImage := answer_PullImage w;
     answer_CreateContainer := answer_CreateContainer w;
     answer_Start := answer_Start w;
     answer_Attach := answer_Attach w;
     answer_Exec := answer_Exec w;
     answer_ListContainers := containers;
     answer_Info := info;
     os_fault := os_fault w;
     answer_HttpGet := answer_HttpGet w;
     answer_Run := answer_Run w |}.

(** The session is running, and the second of two containers on the host
    is its own. *)
Definition world_running : World :=
  with_runtime world_scheduled
    (λ _ _, Ok (example_session (started_at 7)))
    (λ _, Ok ["dead"; "c0ffee"])
    (λ _ c, Ok {| info_Labels := if String.eqb c "c0ffee"
                                 then <[sessionContainerLabel := "01F2ZXCV"]> ∅ else ∅ |}).



(** [w], with output switched on or off. *)
Definition with_quiet (q : bool) (w : World) : World :=
  {| quiet := q;
     beakerConfig_UserToken := beakerConfig_UserToken w;
     executorConfigDir := executorConfigDir w;
     executorConfigPath := executorConfigPath w;
     path_Join := path_Join w;
     unicode_ToLower_from := unicode_ToLower_from w;
     strings_TrimSpace := strings_TrimSpace w;
     strconv_Quote := strconv_Quote w;
     clock := clock w;
     ctx_Done := ctx_Done w;
     answer_getCurrentNode := answer_getCurrentNode w;
     answer_CreateSession := answer_CreateSession w;
     answer_SessionGet := answer_SessionGet w;
     answer_SessionPatch := answer_SessionPatch w;
     answer_ClusterGet := answer_ClusterGet w;
     answer_printSessions := answer_printSessions w;
     answer_confirm := answer_confirm w;
     answer_getExecutorConfig := answer_getExecutorConfig w;
     answer_UserCurrent := answer_UserCurrent w;
     answer_NewRuntime := answer_NewRuntime w;
     answer_PullImage := answer_PullImage w;
     answer_CreateContainer := answer_CreateContainer w;
     answer_Start := answer_Start w;
     answer_Attach := answer_Attach w;
     answer_Exec := answer_Exec w;
     answer_ListContainers := answer_ListContainers w;
     answer_Info := answer_Info w;
     os_fault := os_fault w;
     answer_HttpGet := answer_HttpGet w;
     answer_Run := answer_Run w |}.




(** The scheduler schedules the session between the first fetch and the
    second; the command prints what it does. *)
Definition pending_session : Session :=
  {| ID := "01F2ZXCV";
     Limits := Some {| CPUCount := 0; GPUs := ["7"]; Memory := 1 |};
     State := ExecutionState_zero |}.

Definition world_late : World :=
  with_quiet false
    (example_world never_done
       (λ t _, match fetches t with
               | [] => Ok pending_session
               | _ => Ok (example_session (scheduled_at 7))
               end)
       no_fault runs_ok).

(** ** A weakest-precondition reading of the monad *)

Definition wp {A : Type} (m : M A) (s : state) (Q : outcome A → state → Prop) : Prop :=
  Q (m s).1 (m s).2.

(** * Properties *)

(** ** Rules of the weakest precondition *)

Section wp.
Context {A B : Type}.
Implicit Types (s : state) (Q : outcome A → state → Prop).

Lemma wp_run (m : M A) s (P : outcome A * state → Prop) :
  wp m s (λ o s', P (o, s')) → P (m s).
Proof. unfold wp. by destruct (m s). Qed.

Lemma wp_ret (a : A) s Q : Q (Done a) s → wp (mret a) s Q.
Proof. done. Qed.

Lemma wp_bind (m : M B) (f : B → M A) s Q :
  wp m s (λ o s', match o with
                  | Done b => wp (f b) s' Q
                  | Panic msg => Q (Panic msg) s'
                  | Pending => Q Pending s'
                  end) →
  wp (m ≫= f) s Q.
Proof. unfold wp, mbind, M_bind. by destruct (m s) as [[b|msg|] s']. Qed.

Lemma wp_call (answer : list event → A) (ev : A → event) s Q :
  Q (Done (answer (trace s)))
    {| trace := (trace s ++ [ev (answer (trace s))])%list; files := files s |} →
  wp (call answer ev) s Q.
Proof. done. Qed.

Lemma wp_ask (f : list event → A) s Q : Q (Done (f (trace s))) s → wp (ask f) s Q.
Proof. done. Qed.

Lemma wp_panic (msg : string) s Q : Q (Panic msg) s → wp (panic msg) s Q.
Proof. done. Qed.

Lemma wp_pending s Q : Q Pending s → wp pending s Q.
Proof. done. Qed.

Lemma wp_mono (m : M A) s Q (Q' : outcome A → state → Prop) :
  wp m s Q → (∀ o s', Q o s' → Q' o s') → wp m s Q'.
Proof. unfold wp. auto. Qed.

End wp.

Lemma wp_emit (e : event) (s : state) (Q : outcome () → state → Prop) :
  Q (Done ()) {| trace := (trace s ++ [e])%list; files := files s |} → wp (emit e) s Q.
Proof. done. Qed.

(** A conditional print adds one event or none, without a case split. *)
Lemma wp_when_emit (c : bool) (e : event) (s : state) (Q : outcome () → state → Prop) :
  Q (Done ()) {| trace := (trace s ++ (if c then [e] else []))%list; files := files s |} →
  wp (when c (emit e)) s Q.
Proof. destruct c, s; unfold wp; simpl; by rewrite ?app_nil_r. Qed.

Lemma wp_get_files (s : state) (Q : outcome (gmap string node) → state → Prop) :
  Q (Done (files s)) s → wp get_files s Q.
Proof. done. Qed.

Lemma wp_put_files (fs : gmap string node) (s : state) (Q : outcome () → state → Prop) :
  Q (Done ()) {| trace := trace s; files := fs |} → wp (put_files fs) s Q.
Proof. done. Qed.

Ltac unfold_calls :=
  unfold now, print, println, getCurrentNode, printSessions,
    beaker_CreateSession, beaker_Session_Get, beaker_Session_Patch, user_Current,
    docker_NewRuntime, rt_PullImage, rt_CreateContainer, container_Start, container_Attach,
    container_Exec, rt_ListContainers, container_Info, os_Stat,
    http_Get, beaker_Cluster_Get, confirm, getExecutorConfig.

(** One step of symbolic execution. *)
Ltac wp_step :=
  lazymatch goal with
  | |- wp (mret _) _ _ => apply wp_ret
  | |- wp (_ ≫= _) _ _ => apply wp_bind
  | |- wp (call _ _) _ _ => apply wp_call
  | |- wp (ask _) _ _ => apply wp_ask
  | |- wp (emit _) _ _ => apply wp_emit
  | |- wp (when _ (emit _)) _ _ => apply wp_when_emit
  | |- wp (when _ (print _)) _ _ => apply wp_when_emit
  | |- wp (when _ (println _)) _ _ => apply wp_when_emit
  | |- wp get_files _ _ => apply wp_get_files
  | |- wp (put_files _) _ _ => apply wp_put_files
  | |- wp (panic _) _ _ => apply wp_panic
  | |- wp pending _ _ => apply wp_pending
  | |- wp (let x := ?v in @?b x) ?s ?Q =>
      let y := fresh x in
      set (y := v); change (wp (b y) s Q)
  | |- wp _ _ _ => progress unfold_calls
  end; cbn beta iota delta [trace files].

Ltac wp_steps := repeat wp_step.

(** Case split on the answer that the next [match] or [if] looks at. *)
Ltac wp_case :=
  lazymatch goal with
  | |- wp (match ?x with _ => _ end) _ _ => destruct x eqn:?
  end; cbn beta iota delta [trace files].

Ltac wp_start :=
  unfold emitted;
  match goal with
  | |- context [?m ?s] =>
      lazymatch type of s with state => idtac end;
      lazymatch type of m with
      | M _ => pattern (m s); apply wp_run; cbn [fst snd]
      end
  end.

Ltac no_member H :=
  repeat (apply elem_of_cons in H as [H|H]; [discriminate H|]); by apply not_elem_of_nil in H.

Ltac members H :=
  repeat first
    [ apply elem_of_app in H as [H|H]
    | apply elem_of_cons in H as [H|H]; [try discriminate H|]
    | apply not_elem_of_nil in H; destruct H ].

(** ** Traces and strings *)

Lemma emitted_app {A : Type} (m : M A) (s : state) (evs : list event) :
  trace (m s).2 = (trace s ++ evs)%list → emitted m s = evs.
Proof. unfold emitted. intros ->. by rewrite drop_app_length. Qed.

Lemma strings_HasPrefix_app (p rest : string) : strings_HasPrefix (p +:+ rest) p = true.
Proof. induction p as [|c p IH]; simpl; [done|]. by rewrite Ascii.eqb_refl. Qed.

Lemma strings_HasPrefix_inv (s p : string) :
  strings_HasPrefix s p = true → ∃ rest, s = p +:+ rest.
Proof.
  revert s. induction p as [|c p IH]; intros s H; simpl in *.
  - by exists s.
  - destruct s as [|d s]; [done|].
    destruct (Ascii.eqb c d) eqn:E; [|done].
    apply Ascii.eqb_eq in E as ->. destruct (IH _ H) as [rest ->]. by exists rest.
Qed.

(** ** Attach errors *)

(** C2, as the code has it.  [handleAttachErr] turns into success every
    error whose text begins with "exited with code ", whatever the code:
    130 and 1 alike.  Any other error, and no error, are returned as they
    came. *)
Theorem handleAttachErr_prefix :
  handleAttachErr (Some (Foreign "exited with code 130")) = None ∧
  handleAttachErr (Some (Foreign "exited with code 1")) = None ∧
  handleAttachErr None = None ∧
  (∀ e rest, Error e = "exited with code " +:+ rest → handleAttachErr (Some e) = None) ∧
  (∀ e, (∀ rest, Error e ≠ "exited with code " +:+ rest) → handleAttachErr (Some e) = Some e).
Proof.
  repeat split; try reflexivity.
  - intros e rest H. unfold handleAttachErr. rewrite H.
    by rewrite (strings_HasPrefix_app "exited with code " rest).
  - intros e H. unfold handleAttachErr.
    destruct (strings_HasPrefix (Error e) "exited with code ") eqn:E; [|done].
    apply strings_HasPrefix_inv in E as [rest E]. by destruct (H rest).
Qed.

(** C2: the two directions at concrete errors. *)
Lemma handleAttachErr_prefix_witness :
  handleAttachErr (Some (Errorf "exited with code 2")) = None ∧
  handleAttachErr (Some (Errorf "container not found")) = Some (Errorf "container not found").
Proof.
  split.
  - apply (proj1 (proj2 (proj2 (proj2 handleAttachErr_prefix))) (Errorf "exited with code 2") "2").
    reflexivity.
  - apply (proj2 (proj2 (proj2 (proj2 handleAttachErr_prefix))) (Errorf "container not found")).
    intros rest. simpl. discriminate.
Defined.

(** C2 fails as stated: the error "exited with code 1" is not propagated. *)
Lemma handleAttachErr_code_1 :
  handleAttachErr (Some (Foreign "exited with code 1")) = None ∧
  handleAttachErr (Some (Foreign "exited with code 1")) ≠ Some (Foreign "exited with code 1").
Proof. split; [reflexivity|discriminate]. Qed.

(** ** Session update *)

(** C10.  Every [session update] sends one patch for the session, and only
    one, under the command's context, as the first thing it does.  The patch carries an
    execution state whose only field that can be set is [Canceled]: the
    current time with [--cancel], nothing without it, so that without the
    flag the patch carries the empty execution state and is sent all the
    same. *)
Theorem update_always_patches (w : World) (cancel : bool) (session : string) (s : state) :
  ∃ rest,
    emitted (newSessionUpdateCommand w cancel session) s =
      SessionPatched Ctx session
        {| patch_State := Some {| Scheduled := None; Started := None; Ended := None;
                                  Finalized := None;
                                  Canceled := if cancel then Some (clock w (trace s)) else None |} |}
      :: rest ∧
    Forall (λ e, is_patch e = false) rest ∧
    (if cancel then True
     else emitted (newSessionUpdateCommand w cancel session) s =
            SessionPatched Ctx session {| patch_State := Some ExecutionState_zero |} :: rest).
Proof.
  wp_start. unfold newSessionUpdateCommand.
  destruct cancel; wp_steps; wp_case; wp_steps; cbn [trace].
  all: rewrite <- ?app_assoc, drop_app_length; eexists;
    split_and!; [reflexivity|by repeat constructor|reflexivity].
Qed.

(** ** Locating the running container *)

(** C8.  When the fetched session was never started, or has ended, or is
    finalized, [findRunningContainer] fails with one of three errors that
    differ from each other; the checks are made in that order and the first
    that applies names the error.  The only event is the fetch of the
    session: the error comes back before any call to the container runtime
    driver.  [session attach] and [session exec] return that error with the
    same trace. *)
Theorem findRunningContainer_rejects (w : World) (session : string) (s : state) (info : Session) :
  answer_SessionGet w (trace s) session = Ok info →
  Started (State info) = None ∨ Ended (State info) ≠ None ∨ Finalized (State info) ≠ None →
  ∃ err : error,
    ((Started (State info) = None ∧ err = Errorf "session not started") ∨
     (Started (State info) ≠ None ∧ Ended (State info) ≠ None ∧
        err = Errorf "session already ended") ∨
     (Started (State info) ≠ None ∧ Ended (State info) = None ∧
        Finalized (State info) ≠ None ∧ err = Errorf "session already finalized")) ∧
    ((findRunningContainer w session s).1 = Done (Err err) ∧
     emitted (findRunningContainer w session) s = [SessionGet session (Ok info)]) ∧
    (∀ command,
       (newSessionExecCommand w session command s).1 = Done (Some err) ∧
       emitted (newSessionExecCommand w session command) s = [SessionGet session (Ok info)]) ∧
    ((newSessionAttachCommand w session s).1 = Done (Some err) ∧
     emitted (newSessionAttachCommand w session) s = [SessionGet session (Ok info)]) ∧
    Forall (λ e, driver_call e = false) [SessionGet session (Ok info)] ∧
    Errorf "session not started" ≠ Errorf "session already ended" ∧
    Errorf "session not started" ≠ Errorf "session already finalized" ∧
    Errorf "session already ended" ≠ Errorf "session already finalized".
Proof.
  intros Hget Hstate.
  assert (Hcase : ∃ err : error,
    (Started (State info) = None ∧ err = Errorf "session not started") ∨
    (Started (State info) ≠ None ∧ Ended (State info) ≠ None ∧
       err = Errorf "session already ended") ∨
    (Started (State info) ≠ None ∧ Ended (State info) = None ∧
       Finalized (State info) ≠ None ∧ err = Errorf "session already finalized")).
  { destruct (Started (State info)) as [t1|] eqn:H1; [|eauto].
    destruct (Ended (State info)) as [t2|] eqn:H2; [eauto 10|].
    destruct (Finalized (State info)) as [t3|] eqn:H3; [eauto 10|].
    destruct Hstate as [?|[?|?]]; done. }
  destruct Hcase as [err Hcase]. exists err. split; [exact Hcase|].
  assert (Hfind : wp (findRunningContainer w session) s (λ o s',
            o = Done (Err err) ∧ trace s' = (trace s ++ [SessionGet session (Ok info)])%list)).
  { unfold findRunningContainer. wp_steps. rewrite Hget. cbv beta iota.
    destruct Hcase as [[H ->] | [(H1 & H2 & ->) | (H1 & H2 & H3 & ->)]].
    - rewrite bool_decide_true by done. by wp_steps.
    - rewrite bool_decide_false by done. rewrite bool_decide_true by done. by wp_steps.
    - rewrite bool_decide_false by done.
      rewrite bool_decide_false by (intros Hn; by apply Hn).
      rewrite bool_decide_true by done. by wp_steps. }
  assert (Hrest : ∀ k : result container → M (option error),
            (∀ e, k (Err e) = mret (Some e)) →
            wp (findRunningContainer w session ≫= k) s (λ o s',
              o = Done (Some err) ∧
              drop (length (trace s)) (trace s') = [SessionGet session (Ok info)])).
  { intros k Hk. wp_step. eapply wp_mono; [exact Hfind|]. intros o s' [-> Ht].
    rewrite Hk. wp_steps. by rewrite Ht, drop_app_length. }
  unfold wp in Hfind. destruct Hfind as [Ho Ht].
  split_and!; try done.
  - by apply emitted_app.
  - intros command. unfold emitted. by apply Hrest.
  - by apply Hrest.
  - unfold emitted. by apply Hrest.
  - by repeat constructor.
Qed.

(** ** The scheduling wait *)

Lemma awaitSessionSchedule_loop_shape (w : World) (id : string) (fuel : nat) (s : state) :
  wp (awaitSessionSchedule_loop w fuel id) s (λ o s',
    ∃ (infos : list Session) (by_ctx : bool),
      Forall (λ info, Scheduled (State info) = None) infos ∧
      files s' = files s ∧
      trace s' = (trace s ++ wait_trace w id infos o by_ctx)%list ∧
      match o with
      | Pending => length infos = fuel
      | Done (Ok info) => Scheduled (State info) ≠ None ∧ (length infos < fuel)%nat ∧ by_ctx = false
      | Done (Err e) => (length infos < fuel)%nat
      | Panic _ => False
      end).
Proof.
  revert s. induction fuel as [|fuel IH]; intros s; cbn [awaitSessionSchedule_loop].
  { wp_steps. exists [], false. unfold wait_trace, poll_rounds. simpl. by rewrite app_nil_r. }
  wp_steps. wp_case.
  { wp_steps. exists [], true. split_and!; [constructor|done|done|simpl; lia]. }
  wp_steps. wp_case.
  2:{ wp_steps. exists [], false. cbn [trace files].
      split_and!; [constructor|done|by rewrite <- app_assoc|simpl; lia]. }
  case_bool_decide as Hsched.
  { wp_steps. exists [], false. cbn [trace files].
    split_and!; [constructor|done| |done|simpl; lia|done].
    unfold wait_trace, wait_end, poll_rounds. simpl. rewrite <- !app_assoc. simpl.
    by destruct (quiet w). }
  assert (Hnone : Scheduled (State a) = None)
    by (destruct (Scheduled (State a)); [by destruct Hsched|done]).
  wp_steps. eapply wp_mono; [apply IH|]. cbn [trace files].
  intros o s' (infos & by_ctx & Hall & Hfiles & Htrace & Ho).
  exists (a :: infos), by_ctx. split_and!; [by constructor|done| |].
  - rewrite Htrace. unfold wait_trace, poll_rounds, poll_round. cbn [map concat].
    rewrite <- !app_assoc. simpl. by destruct (quiet w).
  - destruct o as [[info|e]| |]; simpl; [intuition lia|lia|done|lia].
Qed.

Lemma awaitSessionSchedule_shape (w : World) (id : string) (fuel : nat) (s : state) :
  wp (awaitSessionSchedule w fuel id) s (λ o s',
    ∃ (infos : list Session) (by_ctx : bool),
      Forall (λ info, Scheduled (State info) = None) infos ∧
      files s' = files s ∧
      trace s' = (trace s ++ wait_banner w ++ wait_trace w id infos o by_ctx)%list ∧
      match o with
      | Pending => length infos = fuel
      | Done (Ok info) => Scheduled (State info) ≠ None ∧ (length infos < fuel)%nat ∧ by_ctx = false
      | Done (Err e) => (length infos < fuel)%nat
      | Panic _ => False
      end).
Proof.
  unfold awaitSessionSchedule. wp_steps.
  eapply wp_mono; [apply awaitSessionSchedule_loop_shape|]. cbn [trace files].
  intros o s' (infos & by_ctx & Hall & Hfiles & Htrace & Ho).
  exists infos, by_ctx. split_and!; try done.
  rewrite Htrace. unfold wait_banner. rewrite <- !app_assoc. simpl.
  by destruct (quiet w).
Qed.

Lemma timer_settings_rounds (w : World) (id : string) (infos : list Session) :
  timer_settings (poll_rounds w id infos) = repeat time_Second (length infos).
Proof.
  induction infos as [|info infos IH]; [done|].
  unfold poll_rounds, timer_settings in *. cbn [map concat].
  rewrite omap_app, IH. unfold poll_round. by destruct (quiet w).
Qed.

Lemma fetches_rounds (w : World) (id : string) (infos : list Session) :
  fetches (poll_rounds w id infos) = map (λ info, (id, Ok info)) infos.
Proof.
  induction infos as [|info infos IH]; [done|].
  unfold poll_rounds, fetches in *. cbn [map concat].
  rewrite omap_app, IH. unfold poll_round. by destruct (quiet w).
Qed.

(** While the context stays live and every fetch finds the session
    unscheduled, no amount of fuel ends the loop. *)
Lemma awaitSessionSchedule_loop_pending (w : World) (id : string) :
  (∀ t, ctx_Done w t = None) →
  (∀ t, ∃ info, answer_SessionGet w t id = Ok info ∧ Scheduled (State info) = None) →
  ∀ fuel s, (awaitSessionSchedule_loop w fuel id s).1 = Pending.
Proof.
  intros Hctx Hget fuel. induction fuel as [|fuel IH]; intros s; [done|].
  wp_start. cbn [awaitSessionSchedule_loop]. wp_steps. rewrite Hctx. cbv beta iota.
  wp_steps. destruct (Hget (trace s ++ [TimerFired])%list) as (info & -> & Hnone).
  cbv beta iota. rewrite bool_decide_false by (intros Hn; by apply Hn).
  wp_steps. unfold wp. apply IH.
Qed.

(** The way forward: the answers of the scheduler decide how the loop
    ends.  With the context live, [infos] the answers of the first fetches,
    all unscheduled, and [r] the answer of the next, an error or a scheduled
    session, the loop ends with [r] after exactly these fetches. *)
Lemma awaitSessionSchedule_loop_forward (w : World) (id : string) (infos : list Session)
    (r : result Session) :
  match r with Ok info => Scheduled (State info) ≠ None | Err _ => True end →
  ∀ (fuel : nat) (s : state),
    (∀ j info, infos !! j = Some info →
       Scheduled (State info) = None ∧
       ctx_Done w (trace s ++ poll_rounds w id (take j infos)) = None ∧
       answer_SessionGet w (trace s ++ poll_rounds w id (take j infos) ++ [TimerFired]) id
         = Ok info) →
    ctx_Done w (trace s ++ poll_rounds w id infos) = None →
    answer_SessionGet w (trace s ++ poll_rounds w id infos ++ [TimerFired]) id = r →
    (length infos < fuel)%nat →
    wp (awaitSessionSchedule_loop w fuel id) s (λ o s',
      o = Done r ∧
      trace s' = (trace s ++ poll_rounds w id infos ++ wait_end w id r false)%list).
Proof.
  intros Hr. induction infos as [|info infos IH]; intros fuel s Hinfos Hctx Hget Hfuel;
    (destruct fuel as [|fuel]; [simpl in Hfuel; lia|]); cbn [awaitSessionSchedule_loop].
  - unfold poll_rounds in Hctx, Hget. cbn [map concat app] in Hctx, Hget.
    rewrite app_nil_r in Hctx. wp_steps. rewrite Hctx. cbn beta iota. wp_steps.
    rewrite Hget. destruct r as [info|e]; cbn beta iota.
    + rewrite bool_decide_eq_true_2 by done. wp_steps. split; [done|].
      unfold poll_rounds, wait_end. cbn [map concat app]. rewrite <- !app_assoc.
      cbn [app]. by destruct (quiet w).
    + wp_steps. split; [done|]. unfold poll_rounds, wait_end. cbn [map concat app].
      by rewrite <- !app_assoc.
  - destruct (Hinfos 0%nat info eq_refl) as (Hnone & Hctx0 & Hget0).
    unfold poll_rounds in Hctx0, Hget0. cbn [take map concat app] in Hctx0, Hget0.
    rewrite app_nil_r in Hctx0. wp_steps. rewrite Hctx0. cbn beta iota. wp_steps.
    rewrite Hget0. cbn beta iota.
    rewrite bool_decide_eq_false_2 by (by rewrite Hnone; intros []).
    wp_steps.
    assert (Hround : ∀ l : list event,
      (((((trace s ++ [TimerFired]) ++ [SessionGet id (Ok info)]) ++
         (if negb (quiet w) then [Stdout "."] else [])) ++ [TimerSet time_Second]) ++ l)%list =
      (trace s ++ poll_round w id info ++ l)%list).
    { intros l. unfold poll_round. rewrite <- !app_assoc. cbn [app].
      by destruct (quiet w). }
    eapply wp_mono.
    { apply (IH fuel); cbn [trace].
      - intros j info' Hj. destruct (Hinfos (S j) info' Hj) as (Hn' & Hc' & Hg').
        unfold poll_rounds in Hc', Hg'. cbn [take map concat] in Hc', Hg'.
        rewrite <- ?app_assoc in Hc', Hg'. fold (poll_rounds w id (take j infos)) in Hc', Hg'.
        rewrite <- ?app_assoc in Hg'. by rewrite !Hround.
      - unfold poll_rounds in Hctx. cbn [map concat] in Hctx. rewrite <- ?app_assoc in Hctx.
        fold (poll_rounds w id infos) in Hctx. by rewrite Hround.
      - unfold poll_rounds in Hget. cbn [map concat] in Hget. rewrite <- ?app_assoc in Hget.
        fold (poll_rounds w id infos) in Hget. rewrite <- ?app_assoc in Hget.
        by rewrite Hround.
      - simpl in Hfuel. lia. }
    cbn [trace]. intros o s' (-> & ->). split; [done|].
    rewrite Hround. unfold poll_rounds. cbn [map concat]. by rewrite <- !app_assoc.
Qed.

(** C6.  A scheduling wait sets its timer to zero, then turns: the timer
    fires, the session is fetched.  Every fetch that finds the session
    unscheduled sets the timer to one second again, so the timer settings of
    a run are 0 followed by one second as many times as there were such
    fetches, with no other value and no bound on their number.  The wait
    returns the first session fetched with a scheduled timestamp; a fetch
    that fails ends it at once with that error, and nothing is fetched
    again.  As long as the context is not done and the session stays
    unscheduled the wait goes on: whatever the fuel, the run is still
    pending and has fetched once per unit of fuel.  And it is the
    scheduler's answers that decide: with the context live, when the first
    fetches answer with the unscheduled sessions [infos] and the next with
    [r], an error or a scheduled session, the wait returns [r], having
    fetched exactly that many times. *)
Theorem awaitSessionSchedule_polling (w : World) (id : string) (fuel : nat) (s : state) :
  let o := (awaitSessionSchedule w fuel id s).1 in
  let evs := emitted (awaitSessionSchedule w fuel id) s in
  (∃ (infos : list Session) (by_ctx : bool),
     Forall (λ info, Scheduled (State info) = None) infos ∧
     evs = (wait_banner w ++ wait_trace w id infos o by_ctx)%list ∧
     timer_settings evs = 0 :: repeat time_Second (length infos) ∧
     match o with
     | Done (Ok info) =>
         Scheduled (State info) ≠ None ∧
         fetches evs = (map (λ i, (id, Ok i)) infos ++ [(id, Ok info)])%list
     | Done (Err e) =>
         (by_ctx = true ∧ fetches evs = map (λ i, (id, Ok i)) infos) ∨
         (by_ctx = false ∧ fetches evs = (map (λ i, (id, Ok i)) infos ++ [(id, Err e)])%list)
     | Pending => length infos = fuel ∧ fetches evs = map (λ i, (id, Ok i)) infos
     | Panic _ => False
     end) ∧
  ((∀ t, ctx_Done w t = None) →
   (∀ t, ∃ info, answer_SessionGet w t id = Ok info ∧ Scheduled (State info) = None) →
   o = Pending ∧ length (fetches evs) = fuel) ∧
  (∀ (infos : list Session) (r : result Session),
     (∀ j info, infos !! j = Some info →
        Scheduled (State info) = None ∧
        ctx_Done w (trace s ++ wait_banner w ++ poll_rounds w id (take j infos)) = None ∧
        answer_SessionGet w
          (trace s ++ wait_banner w ++ poll_rounds w id (take j infos) ++ [TimerFired]) id
          = Ok info) →
     ctx_Done w (trace s ++ wait_banner w ++ poll_rounds w id infos) = None →
     answer_SessionGet w
       (trace s ++ wait_banner w ++ poll_rounds w id infos ++ [TimerFired]) id = r →
     match r with Ok info => Scheduled (State info) ≠ None | Err _ => True end →
     (length infos < fuel)%nat →
     o = Done r ∧
     evs = (wait_banner w ++ wait_trace w id infos (Done r) false)%list ∧
     fetches evs = (map (λ i, (id, Ok i)) infos ++ [(id, r)])%list).
Proof.
  intros o evs.
  assert (Hshape : ∃ (infos : list Session) (by_ctx : bool),
     Forall (λ info, Scheduled (State info) = None) infos ∧
     evs = (wait_banner w ++ wait_trace w id infos o by_ctx)%list ∧
     timer_settings evs = 0 :: repeat time_Second (length infos) ∧
     match o with
     | Done (Ok info) =>
         Scheduled (State info) ≠ None ∧
         fetches evs = (map (λ i, (id, Ok i)) infos ++ [(id, Ok info)])%list
     | Done (Err e) =>
         (by_ctx = true ∧ fetches evs = map (λ i, (id, Ok i)) infos) ∨
         (by_ctx = false ∧ fetches evs = (map (λ i, (id, Ok i)) infos ++ [(id, Err e)])%list)
     | Pending => length infos = fuel ∧ fetches evs = map (λ i, (id, Ok i)) infos
     | Panic _ => False
     end).
  { subst o evs. unfold emitted.
    pose proof (awaitSessionSchedule_shape w id fuel s) as H. unfold wp in H.
    destruct (awaitSessionSchedule w fuel id s) as [o s']. cbn [fst snd] in *.
    destruct H as (infos & by_ctx & Hall & _ & -> & Ho).
    rewrite drop_app_length. exists infos, by_ctx.
    assert (Hb : timer_settings (wait_banner w) = [0] ∧ fetches (wait_banner w) = [])
      by (unfold wait_banner; by destruct (quiet w)).
    destruct Hb as [Hbt Hbf].
    pose proof (timer_settings_rounds w id infos) as Hrt.
    pose proof (fetches_rounds w id infos) as Hrf.
    unfold timer_settings, fetches, wait_trace in *.
    rewrite !omap_app, Hbt, Hbf, Hrt, Hrf. cbn [app].
    split_and!; [done|done| |].
    - destruct o as [[info|e]| |]; unfold wait_end; try destruct by_ctx;
        try destruct (quiet w); simpl; by rewrite ?app_nil_r.
    - destruct o as [[info|e]| |]; [| | done |].
      + destruct Ho as (? & ? & ->). split; [done|]. unfold wait_end.
        by destruct (quiet w).
      + destruct by_ctx; [left|right]; (split; [done|]); simpl; by rewrite ?app_nil_r.
      + split; [done|]. simpl. by rewrite app_nil_r. }
  split; [exact Hshape|]. split.
  { intros Hctx Hget.
    assert (Ho : o = Pending).
    { subst o. wp_start. unfold awaitSessionSchedule. wp_steps.
      unfold wp. by apply awaitSessionSchedule_loop_pending. }
    split; [done|].
    destruct Hshape as (infos & by_ctx & _ & _ & _ & Hcase). rewrite Ho in Hcase.
    destruct Hcase as [<- ->]. by rewrite length_map. }
  clear Hshape. intros infos r Hinfos Hctx Hget Hr Hfuel.
  assert (Hrun : o = Done r ∧
                 evs = (wait_banner w ++ wait_trace w id infos (Done r) false)%list).
  { subst o evs. wp_start. unfold awaitSessionSchedule. wp_steps.
    assert (Hb : ∀ l : list event,
      (((trace s ++ (if negb (quiet w)
                     then [Stdout "Waiting for session to be scheduled"] else [])) ++
        [TimerSet 0]) ++ l)%list = (trace s ++ wait_banner w ++ l)%list).
    { intros l. unfold wait_banner. rewrite <- !app_assoc. by destruct (quiet w). }
    eapply wp_mono.
    { apply (awaitSessionSchedule_loop_forward w id infos r Hr fuel); cbn [trace].
      - intros j info Hj. destruct (Hinfos j info Hj) as (? & ? & ?). by rewrite !Hb.
      - by rewrite Hb.
      - by rewrite Hb.
      - done. }
    cbn [trace]. intros o s' (-> & ->). split; [done|].
    by rewrite Hb, drop_app_length. }
  destruct Hrun as (Ho & Hevs). split; [done|]. split; [done|].
  rewrite Hevs. unfold fetches, wait_trace.
  assert (Hbf : fetches (wait_banner w) = [])
    by (unfold wait_banner; by destruct (quiet w)).
  pose proof (fetches_rounds w id infos) as Hrf. unfold fetches in Hbf, Hrf.
  rewrite !omap_app, Hbf, Hrf. cbn [app]. f_equal.
  unfold wait_end. destruct r; [by destruct (quiet w)|done].
Qed.

(** ** The launch *)

Lemma Forall_wait_banner (w : World) : Forall (λ e, wait_event e = true) (wait_banner w).
Proof. unfold wait_banner. destruct (quiet w); by repeat constructor. Qed.

Lemma Forall_poll_rounds (w : World) (id : string) (infos : list Session) :
  Forall (λ e, wait_event e = true) (poll_rounds w id infos).
Proof.
  unfold poll_rounds. apply Forall_concat, Forall_map, Forall_forall. intros info _.
  unfold poll_round. destruct (quiet w); by repeat constructor.
Qed.

Lemma Forall_wait_end (w : World) (id : string) (r : result Session) (by_ctx : bool) :
  Forall (λ e, wait_event e = true) (wait_end w id r by_ctx).
Proof. unfold wait_end. destruct r, by_ctx, (quiet w); by repeat constructor. Qed.

Lemma no_CtxDone_in_rounds (w : World) (id : string) (infos : list Session) (e : error) :
  CtxDone e ∉ (wait_banner w ++ poll_rounds w id infos)%list.
Proof.
  intros [H|H]%elem_of_app.
  - unfold wait_banner in H. destruct (quiet w); simpl in H; no_member H.
  - induction infos as [|info infos IH]; [by apply not_elem_of_nil in H|].
    unfold poll_rounds in *. cbn [map concat] in H.
    apply elem_of_app in H as [H|H]; [|by apply IH].
    unfold poll_round in H. destruct (quiet w); simpl in H; no_member H.
Qed.

Lemma wait_event_not_member (evs : list event) (e : event) :
  Forall (λ e, wait_event e = true) evs → wait_event e = false → e ∉ evs.
Proof.
  intros Hall He Hin. rewrite Forall_forall in Hall. apply Hall in Hin. congruence.
Qed.

(** The wait adds nothing but its own events, whatever its outcome; a
    [CtxDone] among them is the last one and is the wait's result. *)
Lemma awaitSessionSchedule_events (w : World) (id : string) (fuel : nat) (s : state) :
  wp (awaitSessionSchedule w fuel id) s (λ o s',
    files s' = files s ∧
    ∃ evs, trace s' = (trace s ++ evs)%list ∧
           Forall (λ e, wait_event e = true) evs ∧
           (∀ e, CtxDone e ∈ evs →
                 o = Done (Err e) ∧
                 ∃ pre, evs = (pre ++ [CtxDone e])%list ∧ Forall (λ e, wait_event e = true) pre) ∧
           (∀ info, o = Done (Ok info) → SessionGet id (Ok info) ∈ evs)).
Proof.
  eapply wp_mono; [apply awaitSessionSchedule_shape|].
  intros o s' (infos & by_ctx & _ & Hfiles & -> & Ho). split; [done|].
  pose proof (Forall_wait_banner w) as Hb.
  pose proof (Forall_poll_rounds w id infos) as Hr.
  pose proof (no_CtxDone_in_rounds w id infos) as Hno.
  eexists. split; [done|]. unfold wait_trace.
  destruct o as [[info|e]| |]; [| |done|].
  - pose proof (Forall_wait_end w id (Ok info) by_ctx) as He.
    split_and!.
    + by rewrite !Forall_app.
    + intros e Hin. exfalso. rewrite app_assoc in Hin.
      apply elem_of_app in Hin as [Hin|Hin]; [by apply Hno in Hin|].
      unfold wait_end in Hin. destruct (quiet w); simpl in Hin; no_member Hin.
    + intros ? [= <-]. unfold wait_end. rewrite !elem_of_app. right; right; left.
      apply elem_of_cons; right. apply elem_of_cons; by left.
  - pose proof (Forall_wait_end w id (Err e) by_ctx) as He.
    split_and!.
    + by rewrite !Forall_app.
    + intros e' Hin. rewrite app_assoc in Hin.
      apply elem_of_app in Hin as [Hin|Hin]; [by apply Hno in Hin|].
      unfold wait_end in Hin. destruct by_ctx; [|no_member Hin].
      apply list_elem_of_singleton in Hin as [= ->]. split; [done|].
      exists (wait_banner w ++ poll_rounds w id infos)%list. rewrite <- app_assoc.
      split; [done|]. by rewrite Forall_app.
    + intros ? [=].
  - split_and!.
    + rewrite !Forall_app. split_and!; [done..|constructor].
    + intros e Hin. rewrite app_nil_r in Hin. by apply Hno in Hin.
    + intros ? [=].
Qed.

(** What a scheduling wait leaves behind: only its own events, no change of
    the file system, and a session only if a fetch showed it scheduled. *)
Lemma awaitSessionSchedule_result (w : World) (id : string) (fuel : nat) (s : state) :
  wp (awaitSessionSchedule w fuel id) s (λ o s',
    files s' = files s ∧
    ∃ evs, trace s' = (trace s ++ evs)%list ∧
           Forall (λ e, wait_event e = true) evs ∧
           match o with
           | Done (Ok info) => SessionGet id (Ok info) ∈ evs ∧ Scheduled (State info) ≠ None
           | Done (Err _) | Pending => True
           | Panic _ => False
           end).
Proof.
  pose proof (awaitSessionSchedule_shape w id fuel s) as H1.
  pose proof (awaitSessionSchedule_events w id fuel s) as H2.
  unfold wp in *.
  destruct H1 as (infos & by_ctx & _ & _ & _ & Ho).
  destruct H2 as (Hfiles & evs & Htrace & Hall & _ & Hok).
  split; [done|]. exists evs. split_and!; [done..|].
  destruct (awaitSessionSchedule w fuel id s).1 as [[info|e]| |]; [|done..].
  split; [by apply Hok|]. by destruct Ho.
Qed.

(** A launch, from the wait on: every way it can go, with the answers of
    the world that decide it, each at the trace at which it was asked. *)
Lemma startSession_run (w : World) (fuel : nat) (sessionID image : string)
    (command : option (list string)) (s : state) :
  let wait := awaitSessionSchedule w fuel sessionID s in
  let run := startSession w fuel sessionID image command s in
  files run.2 = files s ∧
  ∃ wait_evs,
    trace wait.2 = (trace s ++ wait_evs)%list ∧
    Forall (λ e, wait_event e = true) wait_evs ∧
    match wait.1 with
    | Done (Ok session) =>
        SessionGet sessionID (Ok session) ∈ wait_evs ∧
        match Limits session with
        | None => (∃ msg, run.1 = Panic msg) ∧ trace run.2 = trace wait.2
        | Some limits =>
            let t1 := (trace wait.2 ++ reserved_line w limits)%list in
            match answer_UserCurrent w t1 with
            | Err e => run.1 = Done (Some e) ∧ trace run.2 = (t1 ++ [UserCurrent])%list
            | Ok u =>
                let net := do_Stat "/net" (os_fault w (t1 ++ [UserCurrent]) (Stat "/net"))
                             (files s) in
                let t2 := (t1 ++ [UserCurrent; Stat "/net"])%list in
                let opts :=
                  {| Name := strings_ToLower w ("session-" +:+ ID session);
                  Image := image;
                  Command := command;
                  Labels := <[sessionContainerLabel := ID session]>
                              (<[sessionGPULabel := strings_Join (GPUs limits) ","]> ∅);
                  Env := if negb (String.eqb (HomeDir u) EmptyString)
                         then <["HOME" := HomeDir u]> ∅ else ∅;
                  Mounts :=
                    (if negb (String.eqb (HomeDir u) EmptyString)
                     then [{| HostPath := HomeDir u; ContainerPath := HomeDir u |}] else []) ++
                    (if negb (from_option os_IsNotExist false net)
                     then [{| HostPath := "/net"; ContainerPath := "/net" |}] else []);
                  opts_CPUCount := CPUCount limits;
                  opts_GPUs := GPUs limits;
                  opts_Memory := Memory limits;
                  Interactive := true;
                  User := Uid u +:+ ":" +:+ Gid u;
                  WorkingDir := HomeDir u |} in
                ∃ n c r rest,
                  (1 ≤ n ≤ 5)%nat ∧
                  run.1 = Done r ∧
                  trace run.2 = (t2 ++ rest)%list ∧
                  List.filter driver_call rest = take n (launch_calls image (quiet w) opts c) ∧
                  (n = 1%nat → answer_NewRuntime w t2 ≠ None) ∧
                  (n = 2%nat →
                   answer_PullImage w (t2 ++ [NewRuntime] ++ pulling_line w) image ≠ None) ∧
                  ((3 < n)%nat →
                   answer_CreateContainer w
                     (t2 ++ [NewRuntime] ++ pulling_line w ++ [PullImage image (quiet w)]) opts
                     = Ok c) ∧
                  (r = None → n = 5%nat)
            end
        end
    | Done (Err e) => run.1 = Done (Some e) ∧ trace run.2 = trace wait.2
    | Pending => run.1 = Pending ∧ trace run.2 = trace wait.2
    | Panic _ => False
    end.
Proof.
  intros wait run. subst wait run.
  pose proof (awaitSessionSchedule_result w sessionID fuel s) as Hw. unfold wp in Hw.
  pattern (startSession w fuel sessionID image command s). apply wp_run. cbn [fst snd].
  unfold startSession. wp_step. unfold wp at 1.
  destruct (awaitSessionSchedule w fuel sessionID s) as [o1 s1]. cbn [fst snd] in *.
  destruct Hw as (Hfiles & evs & Htrace & Hall & Hok).
  destruct o1 as [[session|e]| |]; [| |done|].
  2:{ wp_steps. split; [done|]. by exists evs. }
  2:{ split; [done|]. by exists evs. }
  destruct Hok as [Hok _].
  wp_step. wp_case.
  2:{ wp_steps. split; [done|]. exists evs. split_and!; [done..| |done]. by eexists. }
  wp_steps. fold (reserved_line w r).
  assert (Hres : (if negb (quiet w)
                  then [StdoutReserved (length (GPUs r)) (CPUCount r) (Memory r)]
                  else []) = reserved_line w r)
    by (unfold reserved_line; by destruct (quiet w)).
  rewrite Hres. clear Hres.
  wp_case.
  2:{ wp_steps. split; [done|]. exists evs. by split_and!. }
  wp_steps. rewrite Hfiles.
  set (net := do_Stat "/net" _ (files s)).
  set (t2 := ((trace s1 ++ reserved_line w r) ++ [UserCurrent; Stat "/net"])%list).
  replace ((((trace s1 ++ reserved_line w r) ++ [UserCurrent]) ++ [Stat "/net"])%list)
    with t2 by (subst t2; by rewrite <- !app_assoc).
  set (opts0 := {| Name := strings_ToLower w ("session-" +:+ ID session); Image := image |}).
  assert (Hopts : opts0 =
    {| Name := strings_ToLower w ("session-" +:+ ID session);
       Image := image;
       Command := command;
       Labels := <[sessionContainerLabel := ID session]>
                   (<[sessionGPULabel := strings_Join (GPUs r) ","]> ∅);
       Env := if negb (String.eqb (HomeDir a) EmptyString)
              then <["HOME" := HomeDir a]> ∅ else ∅;
       Mounts :=
         (if negb (String.eqb (HomeDir a) EmptyString)
          then [{| HostPath := HomeDir a; ContainerPath := HomeDir a |}] else []) ++
         (if negb (from_option os_IsNotExist false net)
          then [{| HostPath := "/net"; ContainerPath := "/net" |}] else []);
       opts_CPUCount := CPUCount r;
       opts_GPUs := GPUs r;
       opts_Memory := Memory r;
       Interactive := true;
       User := Uid a +:+ ":" +:+ Gid a;
       WorkingDir := HomeDir a |}).
  { subst opts0. f_equal. destruct (negb (from_option os_IsNotExist false net)); [done|].
    by rewrite app_nil_r. }
  assert (Himg : Image opts0 = image) by done.
  rewrite <- Hopts. clearbody opts0 net. clear Hopts.
  assert (Hpull : (if negb (quiet w) then [Stdout ("Pulling image..." +:+ newline)] else [])
                  = pulling_line w)
    by (unfold pulling_line; by destruct (quiet w)).
  assert (Hpd : List.filter driver_call (pulling_line w) = [])
    by (unfold pulling_line; by destruct (quiet w)).
  lazymatch goal with
  | |- wp _ _ ?Q =>
      assert (Hfin : ∀ (o : outcome (option error)) (rest : list event) (n : nat)
                       (c : container),
        (1 ≤ n ≤ 5)%nat →
        List.filter driver_call rest = take n (launch_calls image (quiet w) opts0 c) →
        (n = 1%nat → answer_NewRuntime w t2 ≠ None) →
        (n = 2%nat →
         answer_PullImage w (t2 ++ [NewRuntime] ++ pulling_line w) image ≠ None) →
        ((3 < n)%nat →
         answer_CreateContainer w
           (t2 ++ [NewRuntime] ++ pulling_line w ++ [PullImage image (quiet w)]) opts0
           = Ok c) →
        (∃ r', o = Done r' ∧ (r' = None → n = 5%nat)) →
        Q o {| trace := (t2 ++ rest)%list; files := files s |})
  end.
  { intros o rest n c Hn Hrest H1 H2 H3 (r' & -> & Hr'). split; [done|]. exists evs.
    split_and!; [done..|]. exists n, c, r', rest. cbn [trace].
    split_and!; [lia|lia|done..]. }
  wp_case.
  { wp_steps. apply (Hfin _ [NewRuntime] 1%nat EmptyString);
      [lia|done|intros _; congruence|intros [=]|lia|by eexists]. }
  wp_steps. rewrite Hpull, Himg, <- ?app_assoc. wp_case.
  { wp_steps. rewrite <- ?app_assoc.
    apply (Hfin _ ([NewRuntime] ++ pulling_line w ++ [PullImage image (quiet w)])%list
             2%nat EmptyString);
      [lia|by rewrite !List.filter_app, Hpd|intros [=]|intros _; congruence|lia|by eexists]. }
  wp_steps. rewrite <- ?app_assoc. wp_case.
  2:{ wp_steps. rewrite <- ?app_assoc.
      apply (Hfin _ ([NewRuntime] ++ pulling_line w ++ [PullImage image (quiet w)] ++
                     [CreateContainer opts0])%list 3%nat EmptyString);
        [lia|by rewrite !List.filter_app, Hpd|intros [=]|intros [=]|lia|by eexists]. }
  wp_steps. wp_case.
  { wp_steps. rewrite <- ?app_assoc.
    apply (Hfin _ ([NewRuntime] ++ pulling_line w ++ [PullImage image (quiet w)] ++
                   [CreateContainer opts0] ++ [ContainerStart a0])%list 4%nat a0);
      [lia|by rewrite !List.filter_app, Hpd|intros [=]|intros [=]|done|by eexists]. }
  wp_steps. rewrite <- ?app_assoc.
  apply (Hfin _ ([NewRuntime] ++ pulling_line w ++ [PullImage image (quiet w)] ++
                 [CreateContainer opts0] ++ [ContainerStart a0] ++
                 [ContainerAttach a0])%list 5%nat a0);
    [lia|by rewrite !List.filter_app, Hpd|intros [=]|intros [=]|done|by eexists].
Qed.


(** The spec a launch hands to the runtime, whole: it is built from the
    session the wait returned, from the current user as the system named it
    right after the wait, and from what the [Stat] of [/net] answered. *)
Lemma startSession_spec_eq (w : World) (fuel : nat) (sessionID image : string)
    (command : option (list string)) (s : state) (opts : ContainerOpts) :
  CreateContainer opts ∈ emitted (startSession w fuel sessionID image command) s →
  ∃ session limits u,
    (awaitSessionSchedule w fuel sessionID s).1 = Done (Ok session) ∧
    SessionGet sessionID (Ok session) ∈ emitted (startSession w fuel sessionID image command) s ∧
    Limits session = Some limits ∧
    answer_UserCurrent w
      (trace (awaitSessionSchedule w fuel sessionID s).2 ++ reserved_line w limits) = Ok u ∧
    opts =
      {| Name := strings_ToLower w ("session-" +:+ ID session);
         Image := image;
         Command := command;
         Labels := <[sessionContainerLabel := ID session]>
                     (<[sessionGPULabel := strings_Join (GPUs limits) ","]> ∅);
         Env := if negb (String.eqb (HomeDir u) EmptyString)
                then <["HOME" := HomeDir u]> ∅ else ∅;
         Mounts :=
           (if negb (String.eqb (HomeDir u) EmptyString)
            then [{| HostPath := HomeDir u; ContainerPath := HomeDir u |}] else []) ++
           (if negb (from_option os_IsNotExist false
                       (do_Stat "/net"
                          (os_fault w
                             ((trace (awaitSessionSchedule w fuel sessionID s).2 ++
                               reserved_line w limits) ++ [UserCurrent])
                             (Stat "/net"))
                          (files s)))
            then [{| HostPath := "/net"; ContainerPath := "/net" |}] else []);
         opts_CPUCount := CPUCount limits;
         opts_GPUs := GPUs limits;
         opts_Memory := Memory limits;
         Interactive := true;
         User := Uid u +:+ ":" +:+ Gid u;
         WorkingDir := HomeDir u |}.
Proof.
  pose proof (startSession_run w fuel sessionID image command s) as H. cbn zeta in H.
  destruct H as (_ & wait_evs & Hwt & Hall & Hcase).
  assert (Hno : CreateContainer opts ∉ wait_evs) by by apply wait_event_not_member.
  unfold emitted.
  destruct (awaitSessionSchedule w fuel sessionID s).1 as [[session|e]| |]; [| |done|].
  2,3: destruct Hcase as [_ ->]; rewrite Hwt, drop_app_length; intros Hin;
       by apply Hno in Hin.
  destruct Hcase as [Hget Hcase].
  destruct (Limits session) as [limits|] eqn:Hlim.
  2:{ destruct Hcase as [_ ->]. rewrite Hwt, drop_app_length. intros Hin.
      by apply Hno in Hin. }
  assert (Hres : CreateContainer opts ∉ reserved_line w limits).
  { unfold reserved_line. destruct (quiet w); intros Hin; no_member Hin. }
  destruct (answer_UserCurrent w _) as [u|e] eqn:Huser.
  2:{ destruct Hcase as [_ ->]. rewrite Hwt, <- !app_assoc, drop_app_length. intros Hin.
      apply elem_of_app in Hin as [Hin|Hin]; [by apply Hno in Hin|].
      apply elem_of_app in Hin as [Hin|Hin]; [by apply Hres in Hin|]. no_member Hin. }
  destruct Hcase as (n & c & r & rest & Hn & _ & Ht & Hrest & _).
  rewrite Ht, Hwt, <- !app_assoc, drop_app_length. intros Hin.
  exists session, limits, u. split; [done|]. split.
  { apply elem_of_app. by left. }
  split; [done|]. split; [by rewrite <- Hwt|].
  apply elem_of_app in Hin as [Hin|Hin]; [by apply Hno in Hin|].
  apply elem_of_app in Hin as [Hin|Hin]; [by apply Hres in Hin|].
  apply elem_of_cons in Hin as [Hin|Hin]; [discriminate Hin|].
  apply elem_of_cons in Hin as [Hin|Hin]; [discriminate Hin|].
  assert (Hin' : CreateContainer opts ∈ List.filter driver_call rest).
  { apply list_elem_of_In, List.filter_In. split; [by apply list_elem_of_In|done]. }
  rewrite Hrest in Hin'. apply elem_of_take in Hin' as (i & Hi & _).
  rewrite <- Hwt.
  destruct i as [|[|[|[|[|i]]]]]; simpl in Hi; by inversion Hi.
Qed.

(** C9.  Whatever container spec a launch hands to the runtime, it is built
    from the session the wait returned: its name is "session-" followed by
    the lower-cased ID of that session, its labels hold that ID under
    [sessionContainerLabel] and the session's GPUs joined by commas under
    [sessionGPULabel]; with no GPUs the latter label is the empty string.
    And the launch does hand over such a spec: when the wait returns a
    session with limits, the current user is known, the runtime opens and
    the image is pulled, a spec so named and labelled is sent. *)
Theorem startSession_container_spec (w : World) (fuel : nat) (sessionID image : string)
    (command : option (list string)) (s : state) :
  (∀ opts,
     CreateContainer opts ∈ emitted (startSession w fuel sessionID image command) s →
     ∃ session limits,
       (awaitSessionSchedule w fuel sessionID s).1 = Done (Ok session) ∧
       SessionGet sessionID (Ok session)
         ∈ emitted (startSession w fuel sessionID image command) s ∧
       Limits session = Some limits ∧
       Name opts = "session-" +:+ strings_ToLower w (ID session) ∧
       Labels opts !! sessionContainerLabel = Some (ID session) ∧
       Labels opts !! sessionGPULabel = Some (strings_Join (GPUs limits) ",") ∧
       (GPUs limits = [] → Labels opts !! sessionGPULabel = Some EmptyString)) ∧
  (∀ session limits u,
     (awaitSessionSchedule w fuel sessionID s).1 = Done (Ok session) →
     Limits session = Some limits →
     let t1 := (trace (awaitSessionSchedule w fuel sessionID s).2 ++
                reserved_line w limits)%list in
     answer_UserCurrent w t1 = Ok u →
     let t2 := (t1 ++ [UserCurrent; Stat "/net"])%list in
     answer_NewRuntime w t2 = None →
     answer_PullImage w (t2 ++ [NewRuntime] ++ pulling_line w) image = None →
     ∃ opts,
       CreateContainer opts ∈ emitted (startSession w fuel sessionID image command) s ∧
       Name opts = "session-" +:+ strings_ToLower w (ID session) ∧
       Labels opts !! sessionContainerLabel = Some (ID session) ∧
       Labels opts !! sessionGPULabel = Some (strings_Join (GPUs limits) ",")).
Proof.
  split.
  - intros opts Hin.
    destruct (startSession_spec_eq _ _ _ _ _ _ _ Hin)
      as (session & limits & u & Hwait & Hget & Hlim & _ & ->).
    exists session, limits. cbn [Name Labels].
    split_and!; [ done | done | done | done
                | by rewrite lookup_insert_eq
                | by rewrite lookup_insert_ne, lookup_insert_eq
                | intros ->; by rewrite lookup_insert_ne, lookup_insert_eq ].
  - intros session limits u Hwait Hlim t1 Huser t2 Hrt Hpull. subst t1 t2.
    pose proof (startSession_run w fuel sessionID image command s) as H. cbn zeta in H.
    destruct H as (_ & wait_evs & Hwt & _ & Hcase).
    rewrite Hwait in Hcase. destruct Hcase as [_ Hcase].
    rewrite Hlim, Huser in Hcase.
    destruct Hcase as (n & c & r & rest & Hn & _ & Ht & Hrest & H1 & H2 & _).
    assert (Hn3 : (3 ≤ n)%nat).
    { destruct n as [|[|[|n]]]; [lia| | |lia].
      - by destruct (H1 eq_refl).
      - by destruct (H2 eq_refl). }
    match type of Hrest with
    | _ = take _ (launch_calls _ _ ?o _) => set (opts0 := o) in *
    end.
    exists opts0. split.
    { unfold emitted. rewrite Ht, Hwt, <- !app_assoc, drop_app_length.
      apply elem_of_app. right. apply elem_of_app. right.
      do 2 (apply elem_of_cons; right).
      assert (Hin : CreateContainer opts0 ∈ List.filter driver_call rest).
      { rewrite Hrest. apply list_elem_of_lookup_2 with 2%nat.
        rewrite lookup_take_lt by lia. reflexivity. }
      apply list_elem_of_In, List.filter_In in Hin as [Hin _]. apply list_elem_of_In, Hin. }
    subst opts0. cbn [Name Labels].
    split_and!; [ done
                | by rewrite lookup_insert_eq
                | by rewrite lookup_insert_ne, lookup_insert_eq ].
Qed.

(** ** Session create *)

Lemma wait_event_no_patch (evs : list event) :
  Forall (λ e, wait_event e = true) evs → Forall (λ e, is_patch e = false) evs.
Proof. intros H. eapply Forall_impl; [exact H|]. by intros []. Qed.

(** A launch never patches the session; a [CtxDone] in its trace is its last
    event and its error. *)
Lemma startSession_events (w : World) (fuel : nat) (sessionID image : string)
    (command : option (list string)) (s : state) :
  wp (startSession w fuel sessionID image command) s (λ o s',
    ∃ evs, trace s' = (trace s ++ evs)%list ∧
           Forall (λ e, is_patch e = false) evs ∧
           (∀ e, CtxDone e ∈ evs →
                 o = Done (Some e) ∧ ∃ pre, evs = (pre ++ [CtxDone e])%list)).
Proof.
  unfold startSession. wp_step.
  eapply wp_mono; [apply awaitSessionSchedule_events|].
  intros o s1 (_ & evs & Htrace & Hall & Hctx & _).
  pose proof (wait_event_no_patch _ Hall) as Hnp.
  destruct o as [[session|e]| |].
  2:{ wp_steps. exists evs. split_and!; [done..|].
      intros e' Hin. destruct (Hctx _ Hin) as ([= ->] & pre & -> & _). eauto. }
  2,3: exists evs; split_and!; [done..|]; intros e' Hin; by destruct (Hctx _ Hin).
  assert (Hno : ∀ e, CtxDone e ∉ evs) by (intros e Hin; by destruct (Hctx _ Hin)).
  clear Hctx.
  wp_step. wp_case; wp_steps.
  2:{ eexists. rewrite Htrace. split_and!; [done..|]. intros e Hin. by apply Hno in Hin. }
  repeat (wp_case; wp_steps).
  all: eexists; rewrite Htrace, <- ?app_assoc; split; [reflexivity|].
  all: split; [ rewrite Forall_app; split; [done|];
                destruct (negb (quiet w)); by repeat constructor
              | intros e' Hin; exfalso; members Hin; try (by apply Hno in Hin);
                destruct (negb (quiet w)); members Hin ].
Qed.

(** C1, as the code has it.  The scheduling wait itself never patches a
    session.  But [session create] answers every failure of [startSession]
    with the cancellation patch, and a wait cut short by the context is such
    a failure: when the trace of a create shows [CtxDone e], that event is
    followed by exactly one more, the patch that cancels the created session
    under [context.Background()]; nothing before it is a patch, and the
    command returns [e]. *)
Theorem create_cancelled_wait_patches (w : World) (fuel : nat) (gpus : Z)
    (image name node : string) (args : list string) (s : state) (e : error) :
  (∀ fuel' id s', Forall (λ ev, is_patch ev = false) (emitted (awaitSessionSchedule w fuel' id) s')) ∧
  (CtxDone e ∈ emitted (newSessionCreateCommand w fuel gpus image name node args) s →
   ∃ pre spec session launch,
     answer_CreateSession w (trace s ++ pre) spec = Ok session ∧
     emitted (newSessionCreateCommand w fuel gpus image name node args) s =
       (pre ++ [CreateSession spec] ++ launch ++
        [CtxDone e;
         SessionPatched Background (ID session)
           {| patch_State :=
                Some {| Scheduled := None; Started := None; Ended := None; Finalized := None;
                        Canceled := Some (clock w (trace s ++ pre ++ [CreateSession spec] ++
                                                   launch ++ [CtxDone e])) |} |}])%list ∧
     Forall (λ ev, is_patch ev = false) (pre ++ [CreateSession spec] ++ launch ++ [CtxDone e]) ∧
     (newSessionCreateCommand w fuel gpus image name node args s).1 = Done (Some e)).
Proof.
  split.
  { intros fuel' id s'. wp_start.
    eapply wp_mono; [apply awaitSessionSchedule_events|].
    intros o s1 (_ & evs & -> & Hall & _). rewrite drop_app_length.
    by apply wait_event_no_patch. }
  wp_start. unfold newSessionCreateCommand. wp_step.
  assert (Hnode : wp (if (node =? EmptyString)%string
             then getCurrentNode w ≫= λ r : result string,
                    mret match r with
                         | Ok n => Ok n
                         | Err e0 => Err (Wrapf "failed to detect node; use --node flag" e0)
                         end
             else mret (Ok node)) s (λ o s', ∃ pre r, o = Done r ∧ files s' = files s ∧
               trace s' = (trace s ++ pre)%list ∧
               Forall (λ ev, is_patch ev = false) pre ∧ ∀ e, CtxDone e ∉ pre)).
  { wp_case; wp_steps; eexists _, _; (split; [done|]); (split; [done|]).
    - split; [done|]. split; [by repeat constructor|]. intros e' Hin. no_member Hin.
    - split; [by rewrite app_nil_r|]. split; [constructor|]. intros e' Hin. no_member Hin. }
  eapply wp_mono; [exact Hnode|]. clear Hnode.
  intros o s0 (pre & r & -> & _ & Ht0 & Hnp0 & Hnc0).
  destruct r as [node0|e0]; wp_steps.
  2:{ rewrite Ht0, drop_app_length. intros Hin. by apply Hnc0 in Hin. }
  wp_case; wp_steps.
  2:{ rewrite Ht0, <- ?app_assoc, drop_app_length. intros Hin.
      members Hin. by apply Hnc0 in Hin. }
  eapply wp_mono; [apply startSession_events|]. cbn [trace].
  intros o s1 (evs & Ht1 & Hnp1 & Hctx).
  assert (Hfin : CtxDone e ∈ drop (length (trace s)) (trace s1) → CtxDone e ∈ evs).
  { rewrite Ht1, Ht0, <- ?app_assoc, drop_app_length. intros Hin.
    members Hin; [by apply Hnc0 in Hin|done]. }
  destruct o as [[e1|]| |]; wp_steps.
  2-4: intros Hin; apply Hfin in Hin; by destruct (Hctx _ Hin).
  rewrite Ht1, Ht0, <- ?app_assoc, drop_app_length. intros Hin.
  assert (Hin' : CtxDone e ∈ evs).
  { members Hin; [by apply Hnc0 in Hin|done]. }
  destruct (Hctx _ Hin') as ([= ->] & launch & ->).
  exists pre, {| spec_Name := name; spec_Node := node0; spec_GPUCount := gpus |}, a, launch.
  rewrite Ht0 in *. rewrite <- ?app_assoc. cbn [app].
  split_and!; [done|reflexivity| |done].
  rewrite Forall_app, Forall_cons. by split_and!.
Qed.

(** C1: a create whose wait the context cuts short before the first fetch. *)
Lemma create_cancelled_wait_patches_witness :
  (newSessionCreateCommand world_canceled 3 0 "allenai/base:cuda11.2-ubuntu20.04"
     EmptyString "node-1" [] fresh_host).1 = Done (Some canceled).
Proof.
  destruct (proj2 (create_cancelled_wait_patches world_canceled 3 0
                     "allenai/base:cuda11.2-ubuntu20.04" EmptyString "node-1" [] fresh_host
                     canceled))
    as (pre & spec & session & launch & _ & _ & _ & H).
  - apply list_elem_of_lookup_2 with 2%nat. vm_compute. reflexivity.
  - exact H.
Defined.

(** C1 fails as stated: with the context canceled during the wait, the create
    command patches the session. *)
Lemma create_cancelled_wait_is_patched :
  emitted (newSessionCreateCommand world_canceled 3 0 "allenai/base:cuda11.2-ubuntu20.04"
             EmptyString "node-1" []) fresh_host =
    [ CreateSession {| spec_Name := EmptyString; spec_Node := "node-1"; spec_GPUCount := 0 |};
      TimerSet 0;
      CtxDone canceled;
      SessionPatched Background "01F2ZXCV"
        {| patch_State := Some {| Scheduled := None; Started := None; Ended := None;
                                  Finalized := None; Canceled := Some 3 |} |} ] ∧
  ¬ Forall (λ ev, is_patch ev = false)
      (emitted (newSessionCreateCommand world_canceled 3 0 "allenai/base:cuda11.2-ubuntu20.04"
                  EmptyString "node-1" []) fresh_host).
Proof.
  assert (H : emitted (newSessionCreateCommand world_canceled 3 0
                         "allenai/base:cuda11.2-ubuntu20.04" EmptyString "node-1" [])
                fresh_host =
    [ CreateSession {| spec_Name := EmptyString; spec_Node := "node-1"; spec_GPUCount := 0 |};
      TimerSet 0;
      CtxDone canceled;
      SessionPatched Background "01F2ZXCV"
        {| patch_State := Some {| Scheduled := None; Started := None; Ended := None;
                                  Finalized := None; Canceled := Some 3 |} |} ])
    by (vm_compute; reflexivity).
  split; [exact H|]. rewrite H. intros Hall.
  apply Forall_cons in Hall as [_ Hall]. apply Forall_cons in Hall as [_ Hall].
  apply Forall_cons in Hall as [_ Hall]. apply Forall_cons in Hall as [Hp _]. discriminate Hp.
Qed.

(** ** The session commands at work *)

(** C6: a scheduler that never schedules, three units of fuel; and one that
    schedules the session between the first fetch and the second. *)
Lemma awaitSessionSchedule_polling_witness :
  ((awaitSessionSchedule world_unscheduled 3 "01F2ZXCV" fresh_host).1 = Pending ∧
   length (fetches (emitted (awaitSessionSchedule world_unscheduled 3 "01F2ZXCV") fresh_host))
     = 3%nat) ∧
  ((awaitSessionSchedule world_late 3 "01F2ZXCV" fresh_host).1
     = Done (Ok (example_session (scheduled_at 7))) ∧
   emitted (awaitSessionSchedule world_late 3 "01F2ZXCV") fresh_host =
     (wait_banner world_late ++
      wait_trace world_late "01F2ZXCV" [pending_session]
        (Done (Ok (example_session (scheduled_at 7)))) false)%list ∧
   fetches (emitted (awaitSessionSchedule world_late 3 "01F2ZXCV") fresh_host) =
     [("01F2ZXCV", Ok pending_session);
      ("01F2ZXCV", Ok (example_session (scheduled_at 7)))]).
Proof.
  split.
  - apply (proj1 (proj2 (awaitSessionSchedule_polling world_unscheduled "01F2ZXCV" 3
                           fresh_host))).
    + intros t. reflexivity.
    + intros t. exists (example_session ExecutionState_zero). split; reflexivity.
  - apply (proj2 (proj2 (awaitSessionSchedule_polling world_late "01F2ZXCV" 3 fresh_host))
             [pending_session] (Ok (example_session (scheduled_at 7)))).
    + intros [|j] info Hj; [|by destruct j]. injection Hj as <-.
      split_and!; reflexivity.
    + reflexivity.
    + reflexivity.
    + discriminate.
    + simpl. lia.
Defined.

(** C8: a session that was never started. *)
Lemma findRunningContainer_rejects_witness :
  ∃ err : error,
    (findRunningContainer world_unscheduled "01F2ZXCV" fresh_host).1 = Done (Err err) ∧
    emitted (findRunningContainer world_unscheduled "01F2ZXCV") fresh_host =
      [SessionGet "01F2ZXCV" (Ok (example_session ExecutionState_zero))].
Proof.
  destruct (findRunningContainer_rejects world_unscheduled "01F2ZXCV" fresh_host
              (example_session ExecutionState_zero) eq_refl (or_introl eq_refl))
    as (err & _ & H & _).
  exists err. exact H.
Defined.

(** C9: the launch of a session that the scheduler schedules, with two
    GPUs, after a first answer that showed it pending with another one; the
    command prints what it does. *)
Lemma startSession_container_spec_witness :
  (∃ session limits,
     (awaitSessionSchedule world_late 3 "01F2ZXCV" fresh_host).1 = Done (Ok session) ∧
     SessionGet "01F2ZXCV" (Ok session)
       ∈ emitted (startSession world_late 3 "01F2ZXCV" "allenai/base:cuda11.2-ubuntu20.04" None)
           fresh_host ∧
     Limits session = Some limits ∧
     Name example_opts = "session-" +:+ strings_ToLower world_late (ID session) ∧
     Labels example_opts !! sessionContainerLabel = Some (ID session) ∧
     Labels example_opts !! sessionGPULabel = Some (strings_Join (GPUs limits) ",") ∧
     (GPUs limits = [] → Labels example_opts !! sessionGPULabel = Some EmptyString)) ∧
  (∃ opts,
     CreateContainer opts
       ∈ emitted (startSession world_late 3 "01F2ZXCV" "allenai/base:cuda11.2-ubuntu20.04" None)
           fresh_host ∧
     Name opts = "session-" +:+ strings_ToLower world_late (ID (example_session (scheduled_at 7))) ∧
     Labels opts !! sessionContainerLabel = Some (ID (example_session (scheduled_at 7))) ∧
     Labels opts !! sessionGPULabel = Some (strings_Join (GPUs example_limits) ",")).
Proof.
  split.
  - apply (proj1 (startSession_container_spec world_late 3 "01F2ZXCV"
                    "allenai/base:cuda11.2-ubuntu20.04" None fresh_host)).
    apply list_elem_of_lookup_2 with 15%nat. vm_compute. reflexivity.
  - apply (proj2 (startSession_container_spec world_late 3 "01F2ZXCV"
                    "allenai/base:cuda11.2-ubuntu20.04" None fresh_host)
             (example_session (scheduled_at 7)) example_limits example_user);
      reflexivity.
Defined.

(** ** Confinement *)

Section confined.
Context {A B : Type} (P : string → Prop).

Lemma confined_ret (a : A) : confined P (mret a : M A).
Proof. intros s. exists a, []. simpl. by rewrite app_nil_r. Qed.

Lemma confined_bind (m : M B) (f : B → M A) :
  confined P m → (∀ b, confined P (f b)) → confined P (m ≫= f).
Proof.
  intros Hm Hf s. destruct (Hm s) as (b & evs1 & Ho1 & Ht1 & Hall1 & Hfr1).
  unfold mbind, M_bind. destruct (m s) as [o s1]; cbn [fst snd] in *. subst o.
  destruct (Hf b s1) as (a & evs2 & Ho2 & Ht2 & Hall2 & Hfr2).
  exists a, (evs1 ++ evs2)%list. rewrite Ht2, Ht1, <- app_assoc. split_and!; [done|done| |].
  - by rewrite Forall_app.
  - intros p Hp. by rewrite Hfr2, Hfr1.
Qed.

Lemma confined_call (answer : list event → A) (ev : A → event) :
  (∀ a p, touched (ev a) = Some p → P p) → confined P (call answer ev).
Proof.
  intros H s. eexists _, _. simpl. split_and!; [done|done| |done].
  repeat constructor. apply H.
Qed.

Lemma confined_ask (f : list event → A) : confined P (ask f).
Proof. intros s. eexists _, []. simpl. by rewrite app_nil_r. Qed.

Lemma confined_wp (m : M A) (s : state) :
  confined P m →
  wp m s (λ o s', ∃ a evs, o = Done a ∧ trace s' = (trace s ++ evs)%list ∧
                           Forall (λ e, ∀ p, touched e = Some p → P p) evs ∧
                           ∀ p, ¬ P p → files s' !! p = files s !! p).
Proof. intros H. apply (H s). Qed.

End confined.

Lemma confined_emit (P : string → Prop) (e : event) :
  (∀ p, touched e = Some p → P p) → confined P (emit e).
Proof.
  intros H s. eexists _, _. simpl. split_and!; [done|done| |done]. by repeat constructor.
Qed.

Lemma confined_when (P : string → Prop) (c : bool) (body : M ()) :
  confined P body → confined P (when c body).
Proof. destruct c; [done|]. intros _. apply confined_ret. Qed.

Lemma confined_get_files (P : string → Prop) : confined P get_files.
Proof. intros s. eexists _, []. simpl. by rewrite app_nil_r. Qed.


Lemma confined_os_op (w : World) (P : string → Prop) (ev : event) (op path : string)
    (act : gmap string node → Errno + gmap string node) :
  (∀ p, touched ev = Some p → P p) → P path → local_to path act →
  confined P (os_op w ev op path act).
Proof.
  intros Hev Hpath Hact s. unfold os_op.
  wp_start. wp_steps. wp_case; wp_steps.
  { eexists _, [ev]. split_and!; [done|done|by repeat constructor|done]. }
  wp_case.
  - wp_steps. eexists _, [ev]. split_and!; [done|done|by repeat constructor|done].
  - wp_steps. eexists _, [ev]. split_and!; [done|done|by repeat constructor|].
    intros p Hp. eapply Hact; [done|]. by intros ->.
Qed.


Lemma local_MkdirAll path mode : local_to path (do_MkdirAll path mode).
Proof.
  intros fs fs' p H Hp. unfold do_MkdirAll in H.
  repeat case_match; simplify_eq; by rewrite ?lookup_insert_ne.
Qed.

Lemma local_WriteFile path data mode : local_to path (do_WriteFile path data mode).
Proof.
  intros fs fs' p H Hp. unfold do_WriteFile in H.
  repeat case_match; simplify_eq; by rewrite ?lookup_insert_ne.
Qed.

Lemma local_Create path : local_to path (do_Create path).
Proof. apply local_WriteFile. Qed.

Lemma local_Write path data : local_to path (do_Write path data).
Proof.
  intros fs fs' p H Hp. unfold do_Write in H.
  repeat case_match; simplify_eq; by rewrite ?lookup_insert_ne.
Qed.

Lemma local_Chmod path mode : local_to path (do_Chmod path mode).
Proof.
  intros fs fs' p H Hp. unfold do_Chmod in H.
  repeat case_match; simplify_eq; by rewrite ?lookup_insert_ne.
Qed.

Lemma local_Remove path : local_to path (do_Remove path).
Proof.
  intros fs fs' p H Hp. unfold do_Remove in H.
  repeat case_match; simplify_eq; by rewrite ?lookup_delete_ne.
Qed.

Ltac confined_step :=
  lazymatch goal with
  | |- confined _ (mret _) => apply confined_ret
  | |- confined _ (_ ≫= _) => apply confined_bind; [|intros ?]
  | |- confined _ (call _ _) => apply confined_call; intros ? ?; discriminate
  | |- confined _ (ask _) => apply confined_ask
  | |- confined _ (emit _) => apply confined_emit; intros ?; discriminate
  | |- confined _ (when _ _) => apply confined_when
  | |- confined _ (match ?x with _ => _ end) => destruct x
  end.

(** ** The executor commands *)

Section executor.
Context (w : World).

Lemma confined_runCmd P argv env : confined P (runCmd w argv env).
Proof. unfold runCmd, print. repeat confined_step. Qed.

Lemma confined_startExecutor P : confined P (startExecutor w).
Proof.
  unfold startExecutor, run.
  repeat first [apply confined_runCmd | confined_step].
Qed.

Lemma confined_stopExecutor P : confined P (stopExecutor w).
Proof.
  unfold stopExecutor, run.
  repeat first [apply confined_runCmd | confined_step].
Qed.

Lemma confined_cleanupExecutor P : confined P (cleanupExecutor w).
Proof. apply confined_runCmd. Qed.

Lemma confined_downloadExecutor : confined (λ p, p = executorPath) (downloadExecutor w).
Proof.
  unfold downloadExecutor, getLatestVersion, http_Get, os_Create, file_Write, os_Chmod.
  repeat first
    [ apply confined_os_op;
        [ by intros ? [= <-] | done
        | first [apply local_Create | apply local_Write | apply local_Chmod] ]
    | confined_step ].
Qed.

(** C7.  An upgrade touches no path but the executor binary's: every event
    of it that writes, creates or removes names [executorPath], and every
    other path holds afterwards what it held before.  In particular the
    service unit is unchanged, and so are the config file and the token file
    (their paths are set outside this file and are taken to differ from the
    binary's). *)
Theorem upgrade_touches_binary_only (s : state) :
  let s' := (newExecutorUpgradeCommand w s).2 in
  Forall (λ e, touched e = None ∨ touched e = Some executorPath)
         (emitted (newExecutorUpgradeCommand w) s) ∧
  (∀ p, p ≠ executorPath → files s' !! p = files s !! p) ∧
  files s' !! executorSystemdPath = files s !! executorSystemdPath ∧
  (executorConfigPath w ≠ executorPath →
   files s' !! executorConfigPath w = files s !! executorConfigPath w) ∧
  (executorTokenPath w ≠ executorPath →
   files s' !! executorTokenPath w = files s !! executorTokenPath w).
Proof.
  intros s'.
  assert (H : confined (λ p, p = executorPath) (newExecutorUpgradeCommand w)).
  { unfold newExecutorUpgradeCommand, println.
    repeat first [ apply confined_stopExecutor | apply confined_startExecutor
                 | apply confined_downloadExecutor | confined_step ]. }
  destruct (H s) as (a & evs & _ & Ht & Hall & Hfr). subst s'.
  rewrite (emitted_app _ _ _ Ht). split_and!; auto.
  eapply Forall_impl; [exact Hall|]. intros e He. simpl in He.
  destruct (touched e) as [p|]; [right; f_equal; by apply He|by left].
Qed.
End executor.

Section commands.
Context (w : World).



(** C4, as the code has it.  In a confirmed [stop] whose service-stop step
    succeeded, a failure of the executor's cleanup subcommand is reported
    (the subprocess's output is printed) and is then returned as the error
    of the stop command; "Executor stopped" is not printed. *)
Theorem stop_returns_cleanup_error (s s1 s2 : state) (e : error) :
  answer_confirm w (trace s) stop_prompt = Ok true →
  stopExecutor w {| trace := trace s ++ [Confirm stop_prompt]; files := files s |}
    = (Done None, s1) →
  cleanupExecutor w s1 = (Done (Some e), s2) →
  newExecutorStopCommand w s = (Done (Some e), s2) ∧
  (∃ out,
     trace s2 =
       (trace s1 ++
        [ Exec [executorPath; "cleanup"] ["CONFIG_PATH=" +:+ executorConfigPath w];
          Stdout ("Output from " +:+ strconv_Quote w (executorPath +:+ " cleanup") +:+ ":" +:+
                  newline +:+ out +:+ newline) ])%list) ∧
  Stdout ("Executor stopped" +:+ newline) ∉ drop (length (trace s1)) (trace s2).
Proof.
  intros Hconfirm Hstop Hclean.
  split.
  { unfold newExecutorStopCommand, confirm, call, mbind, M_bind.
    rewrite Hconfirm. cbn [trace files]. rewrite Hstop, Hclean. done. }
  revert Hclean. unfold cleanupExecutor, runCmd. wp_start. wp_steps.
  wp_case; wp_steps; intros [= <- <-]; cbn [trace].
  split.
  - rewrite <- app_assoc. eexists. reflexivity.
  - rewrite <- app_assoc, drop_app_length. intros Hin. no_member Hin.
Qed.
End commands.

(** ** Uninstall *)

Lemma untouched_no_removal (evs : list event) :
  Forall (λ e, ∀ p, touched e = Some p → False) evs → List.filter is_removal evs = [].
Proof.
  induction 1 as [|e evs He _ IH]; [done|]. simpl. rewrite IH.
  destruct e; try done; exfalso; by eapply He.
Qed.

(** Where a marked event sits in a trace whose marked events are [rs]. *)
Lemma filter_nil_not_marked {A : Type} (P : A → bool) (l : list A) (x : A) :
  List.filter P l = [] → x ∈ l → P x = false.
Proof.
  induction l as [|y l IH]; intros Hl Hin; [by apply not_elem_of_nil in Hin|].
  simpl in Hl. destruct (P y) eqn:Hy; [done|].
  apply elem_of_cons in Hin as [->|Hin]; [done|by apply IH].
Qed.

Lemma split_at_marked {A : Type} (P : A → bool) (l0 rs tail pre : list A) (x : A)
    (post : list A) :
  List.filter P l0 = [] → List.filter P tail = [] → Forall (λ y, P y = true) rs →
  (l0 ++ rs ++ tail)%list = (pre ++ x :: post)%list → P x = true →
  ∃ j, rs !! j = Some x ∧ pre = (l0 ++ take j rs)%list ∧ post = (drop (S j) rs ++ tail)%list.
Proof.
  intros Hl0 Htail Hrs Heq Hx. revert pre Heq.
  induction l0 as [|a l0 IH]; intros pre Heq.
  - clear Hl0. revert pre Heq. induction Hrs as [|y rs Hy _ IHrs]; intros pre Heq.
    + exfalso. cbn [app] in Heq.
      assert (Hin : x ∈ tail) by (rewrite Heq; apply elem_of_app; right; by left).
      by rewrite (filter_nil_not_marked P tail x Htail Hin) in Hx.
    + destruct pre as [|z pre]; cbn [app] in Heq; injection Heq as -> Heq.
      * exists 0%nat. by subst post.
      * destruct (IHrs pre Heq) as (j & Hj & -> & ->). by exists (S j).
  - simpl in Hl0. destruct (P a) eqn:Ha; [done|].
    destruct pre as [|z pre]; cbn [app] in Heq; injection Heq as -> Heq.
    + congruence.
    + destruct (IH Hl0 pre Heq) as (j & Hj & -> & ->). by exists j.
Qed.

Section uninstall.
Context (w : World).

(** A file operation whose error is then passed to [fatal], with what the
    system had said: a failure for good was a refusal with that error
    number or came with no refusal; the command goes on after a refusal
    with [ENOENT] or after none. *)
Lemma wp_os_op_verdict (ev : event) (op path : string)
    (act : gmap string node → Errno + gmap string node) (s : state)
    (Q : outcome (option error) → state → Prop) :
  (∀ no s', no ≠ ENOENT →
            os_fault w (trace s) ev = Some no ∨ os_fault w (trace s) ev = None →
            trace s' = (trace s ++ [ev])%list →
            Q (Done (Some (PathError op path no))) s') →
  (∀ r s', fatal r = None →
           os_fault w (trace s) ev = Some ENOENT ∨ os_fault w (trace s) ev = None →
           trace s' = (trace s ++ [ev])%list → Q (Done r) s') →
  wp (os_op w ev op path act) s Q.
Proof.
  intros Hfail Hgo. unfold os_op. wp_steps.
  assert (Hcase : ∀ no s',
            os_fault w (trace s) ev = Some no ∨ os_fault w (trace s) ev = None →
            trace s' = (trace s ++ [ev])%list →
            Q (Done (Some (PathError op path no))) s').
  { intros no s' Hrec Ht. destruct no.
    1:{ apply Hgo; [done| |done]. destruct Hrec; [by left|by right]. }
    all: by apply Hfail. }
  destruct (os_fault w (trace s) ev) as [no|] eqn:Hfault; wp_steps;
    [apply Hcase; [by left|done]|].
  wp_case; wp_steps; [apply Hcase; [by right|done]|apply Hgo; [done|by right|done]].
Qed.

(** A file operation whose error is then passed to [fatal]: either it
    fails for good, or the command goes on. *)
Lemma wp_os_op_fatal (ev : event) (op path : string)
    (act : gmap string node → Errno + gmap string node) (s : state)
    (Q : outcome (option error) → state → Prop) :
  (∀ no s', os_IsNotExist (PathError op path no) = false →
            trace s' = (trace s ++ [ev])%list →
            Q (Done (Some (PathError op path no))) s') →
  (∀ r s', fatal r = None → trace s' = (trace s ++ [ev])%list → Q (Done r) s') →
  wp (os_op w ev op path act) s Q.
Proof.
  intros Hfail Hgo. unfold os_op. wp_steps.
  assert (Hcase : ∀ no s', trace s' = (trace s ++ [ev])%list →
            Q (Done (Some (PathError op path no))) s').
  { intros no s' Ht. destruct (os_IsNotExist (PathError op path no)) eqn:E.
    - apply Hgo; [|done]. unfold fatal. by rewrite E.
    - by apply Hfail. }
  wp_case; wp_steps; [by apply Hcase|].
  wp_case; wp_steps; [by apply Hcase|by apply Hgo].
Qed.

Lemma wp_os_op_no_fault (ev : event) (op path : string)
    (act : gmap string node → Errno + gmap string node) (s : state)
    (Q : outcome (option error) → state → Prop) :
  os_fault w (trace s) ev = None →
  match act (files s) with
  | inl no => Q (Done (Some (PathError op path no)))
                {| trace := (trace s ++ [ev])%list; files := files s |}
  | inr fs' => Q (Done None) {| trace := (trace s ++ [ev])%list; files := fs' |}
  end →
  wp (os_op w ev op path act) s Q.
Proof.
  intros Hno H. unfold os_op. wp_steps. rewrite Hno. cbn beta iota. wp_steps.
  destruct (act (files s)); by wp_steps.
Qed.

Ltac wp_quiet lem :=
  eapply wp_mono; [apply confined_wp, lem|];
  let o := fresh "o" in let s' := fresh "s" in let a := fresh "a" in
  let evs := fresh "evs" in let Ht := fresh "Ht" in let Hq := fresh "Hq" in
  let Hfr := fresh "Hfr" in
  intros o s' (a & evs & -> & Ht & Hq & Hfr); cbn beta iota.

Lemma confined_log {A : Type} (P : string → Prop) (e : option A) (f : A → event) :
  (∀ a p, touched (f a) = Some p → P p) →
  confined P (match e with Some e => emit (f e) | None => mret () end).
Proof. intros H. destruct e; [apply confined_emit, H|apply confined_ret]. Qed.

Lemma shrinks_refl (fs : gmap string node) : shrinks fs fs.
Proof. intros p. by right. Qed.

Lemma shrinks_trans (fs1 fs2 fs3 : gmap string node) :
  shrinks fs1 fs2 → shrinks fs2 fs3 → shrinks fs1 fs3.
Proof.
  intros H12 H23 p. destruct (H12 p) as [? | ->]; [by left|]. apply H23.
Qed.

Lemma shrinks_absent (fs' fs : gmap string node) (p : string) :
  shrinks fs' fs → fs !! p = None → fs' !! p = None.
Proof. intros H Hp. destruct (H p) as [? | ->]; done. Qed.

Lemma shrinks_absent_or_file (fs' fs : gmap string node) (p : string) :
  shrinks fs' fs → absent_or_file fs p → absent_or_file fs' p.
Proof. intros H Hp. unfold absent_or_file. destruct (H p) as [? | ->]; [by left|done]. Qed.

Lemma do_RemoveAll_shrinks (path : string) (fs : gmap string node) :
  ∃ fs', do_RemoveAll path fs = inr fs' ∧ shrinks fs' fs ∧
         (path ≠ EmptyString → ∀ p, under (strip_slashes path) p = true → fs' !! p = None).
Proof.
  unfold do_RemoveAll. destruct (String.eqb_spec path EmptyString) as [->|Hne].
  - exists fs. split_and!; [done|apply shrinks_refl|done].
  - eexists. split_and!; [done| |].
    + intros p. rewrite map_lookup_filter. destruct (fs !! p) as [n|]; [|by left].
      simpl. case_guard; [by right|by left].
    + intros _ p Hp. rewrite map_lookup_filter. destruct (fs !! p) as [n|]; [|done].
      simpl. case_guard as Hg; [|done]. simpl in Hg. congruence.
Qed.

(** Without a refusal, removing what is absent or a regular file leaves
    nothing at the path, and nothing for [fatal] to report. *)
Lemma wp_Remove_lenient (p : string) (s : state) (Q : outcome (option error) → state → Prop) :
  os_fault w (trace s) (Remove p) = None →
  absent_or_file (files s) p →
  (∀ r fs', fatal r = None → shrinks fs' (files s) → fs' !! p = None →
            Q (Done r) {| trace := (trace s ++ [Remove p])%list; files := fs' |}) →
  wp (os_Remove w p) s Q.
Proof.
  intros Hnf Hp HQ. unfold os_Remove. apply wp_os_op_no_fault; [done|].
  unfold do_Remove. destruct Hp as [Hp|(data & mode & Hp)]; rewrite Hp.
  - apply HQ; [done|apply shrinks_refl|done].
  - apply HQ; [done| |apply lookup_delete_eq].
    intros q. destruct (decide (q = p)) as [->|Hq].
    + left. apply lookup_delete_eq.
    + right. by apply lookup_delete_ne.
Qed.

(** What the system said to the removal at each position, against the
    record of the run. *)
Ltac uninstall_verdict :=
  let j := fresh "j" in let ev := fresh "ev" in let no' := fresh "no" in
  let Hj := fresh "Hj" in let Hlt := fresh "Hlt" in let Hf := fresh "Hf" in
  intros j ev no' Hj Hlt Hf;
  destruct j as [|[|[|[|[|j]]]]]; try lia;
  simpl in Hj; injection Hj as <-;
  cbn [take uninstall_targets] in Hf; rewrite ?app_nil_r in Hf;
  match goal with
  | H : os_fault _ ?t ?e = _ ∨ os_fault _ ?t ?e = _ |- _ =>
      lazymatch type of Hf with
      | os_fault _ t e = _ =>
          destruct H as [H|H]; rewrite H in Hf; [injection Hf as <-|discriminate Hf]
      end
  end;
  first
    [ left; lia
    | right; reflexivity
    | match goal with
      | Hno : ?no ≠ ENOENT |- _ =>
          destruct no; [done|..]; (split_and!; [done|done|by eexists _, _])
      end ].

(** C3, as the code has it.  In a confirmed [uninstall] the removals are
    attempted in the order storage directory, token file, service unit,
    config file, binary, whatever became of stopping and cleaning up.  A
    removal that finds its target absent counts as done and the next one is
    attempted; with all five so passed the command succeeds.  A removal that
    fails in any other way ends the command with that error, and the
    removals after it are not attempted.  When no operation is refused and
    each of the four files is absent or a regular file, all five removals
    are attempted, the command succeeds, and afterwards the four files and
    everything under the storage directory are gone.  And whatever the
    system says to a removal decides how the command goes on: refused with
    any error but [ENOENT], that removal is the last event and its error is
    the result; refused with [ENOENT], another removal follows or the
    command succeeds. *)
Theorem uninstall_removals (s : state) (config : configOpts) :
  answer_getExecutorConfig w (trace s) = Ok config →
  answer_confirm w (trace s ++ [GetExecutorConfig])%list
    (uninstall_prompt w (StoragePath config)) = Ok true →
  let o := (newExecutorUninstallCommand w s).1 in
  let s' := (newExecutorUninstallCommand w s).2 in
  let evs := emitted (newExecutorUninstallCommand w) s in
  (∃ n, (1 ≤ n ≤ 5)%nat ∧
        List.filter is_removal evs = take n (uninstall_targets w config) ∧
        match o with
        | Done None => n = 5%nat
        | Done (Some e) =>
            os_IsNotExist e = false ∧
            ∃ op path no, e = PathError op path no ∧
                          touched <$> uninstall_targets w config !! (n - 1)%nat = Some (Some path)
        | _ => False
        end) ∧
  ((∀ t ev, os_fault w t ev = None) →
   Forall (absent_or_file (files s)) (uninstall_files w) →
   o = Done None ∧
   List.filter is_removal evs = uninstall_targets w config ∧
   Forall (λ p, files s' !! p = None) (uninstall_files w) ∧
   (StoragePath config ≠ EmptyString →
    ∀ p, under (strip_slashes (StoragePath config)) p = true → files s' !! p = None)) ∧
  (∀ pre ev post no,
     evs = (pre ++ ev :: post)%list →
     is_removal ev = true →
     os_fault w (trace s ++ pre) ev = Some no →
     match no with
     | ENOENT => List.filter is_removal post ≠ [] ∨ o = Done None
     | _ => post = [] ∧
            ∃ op path, touched ev = Some path ∧ o = Done (Some (PathError op path no))
     end).
Proof.
  intros Hcfg Hconfirm o s' evs.
  assert (Hfirst : ∃ n, (1 ≤ n ≤ 5)%nat ∧
        List.filter is_removal evs = take n (uninstall_targets w config) ∧
        match o with
        | Done None => n = 5%nat
        | Done (Some e) =>
            os_IsNotExist e = false ∧
            ∃ op path no, e = PathError op path no ∧
                          touched <$> uninstall_targets w config !! (n - 1)%nat = Some (Some path)
        | _ => False
        end).
  { subst o s' evs. wp_start. unfold newExecutorUninstallCommand.
    wp_steps. rewrite Hcfg. cbn beta iota. wp_steps. rewrite Hconfirm. cbn beta iota.
    wp_step. wp_quiet (confined_stopExecutor w (λ _, False)).
    wp_step. wp_quiet (confined_log (λ _, False) a
      (λ e, Stderr ("error stopping executor: " +:+ Error e +:+ newline))
      ltac:(intros ? ? [=])).
    wp_step. wp_quiet (confined_cleanupExecutor w (λ _, False)).
    wp_step. wp_quiet (confined_log (λ _, False) a1
      (λ e, Stderr ("error cleaning up executor: " +:+ Error e +:+ newline))
      ltac:(intros ? ? [=])).
    apply untouched_no_removal in Hq, Hq0, Hq1, Hq2.
    cbn [trace] in *.
    assert (Hpre : ∀ tail, List.filter is_removal
              (drop (length (trace s)) (trace s3 ++ tail)) = List.filter is_removal tail).
    { intros tail. rewrite Ht2, Ht1, Ht0, Ht, <- !app_assoc, drop_app_length.
      cbn [app List.filter is_removal]. by rewrite !List.filter_app, Hq, Hq0, Hq1, Hq2. }
    unfold os_RemoveAll, os_Remove.
    wp_step. apply wp_os_op_fatal.
    { intros no s4 Hno Ht4. unfold fatal. rewrite Hno. wp_steps. exists 1%nat. rewrite Ht4, Hpre.
      split_and!; [lia|lia|done|done|by eexists _, _, _]. }
    intros r s4 -> Ht4. cbn beta iota.
    wp_step. apply wp_os_op_fatal.
    { intros no s5 Hno Ht5. unfold fatal. rewrite Hno. wp_steps. exists 2%nat. rewrite Ht5, Ht4, <- app_assoc, Hpre.
      split_and!; [lia|lia|done|done|by eexists _, _, _]. }
    intros r' s5 -> Ht5. cbn beta iota.
    wp_step. apply wp_os_op_fatal.
    { intros no s6 Hno Ht6. unfold fatal. rewrite Hno. wp_steps. exists 3%nat.
      rewrite Ht6, Ht5, Ht4, <- !app_assoc, Hpre.
      split_and!; [lia|lia|done|done|by eexists _, _, _]. }
    intros r'' s6 -> Ht6. cbn beta iota.
    wp_step. apply wp_os_op_fatal.
    { intros no s7 Hno Ht7. unfold fatal. rewrite Hno. wp_steps. exists 4%nat.
      rewrite Ht7, Ht6, Ht5, Ht4, <- !app_assoc, Hpre.
      split_and!; [lia|lia|done|done|by eexists _, _, _]. }
    intros r''' s7 -> Ht7. cbn beta iota.
    wp_step. apply wp_os_op_fatal.
    { intros no s8 Hno Ht8. unfold fatal. rewrite Hno. wp_steps. exists 5%nat.
      rewrite Ht8, Ht7, Ht6, Ht5, Ht4, <- !app_assoc, Hpre.
      split_and!; [lia|lia|done|done|by eexists _, _, _]. }
    intros r'''' s8 -> Ht8. cbn beta iota.
    wp_steps. exists 5%nat. cbn [trace].
    rewrite Ht8, Ht7, Ht6, Ht5, Ht4, <- !app_assoc, Hpre.
    split_and!; [lia|lia| |done].
    cbn [app List.filter is_removal]. by destruct (negb (quiet w)). }
  split; [exact Hfirst|]. split; [|shelve].
  intros Hnf Hfiles.
  apply Forall_cons in Hfiles as [Htok Hfiles]. apply Forall_cons in Hfiles as [Hunit Hfiles].
  apply Forall_cons in Hfiles as [Hcfgp Hfiles]. apply Forall_cons in Hfiles as [Hbin _].
  assert (Hrun : o = Done None ∧
                 Forall (λ p, files s' !! p = None) (uninstall_files w) ∧
                 (StoragePath config ≠ EmptyString →
                  ∀ p, under (strip_slashes (StoragePath config)) p = true →
                       files s' !! p = None)).
  { clear Hfirst. subst o s' evs. wp_start. unfold newExecutorUninstallCommand.
    wp_steps. rewrite Hcfg. cbn beta iota. wp_steps. rewrite Hconfirm. cbn beta iota.
    wp_step. wp_quiet (confined_stopExecutor w (λ _, False)).
    wp_step. wp_quiet (confined_log (λ _, False) a
      (λ e, Stderr ("error stopping executor: " +:+ Error e +:+ newline))
      ltac:(intros ? ? [=])).
    wp_step. wp_quiet (confined_cleanupExecutor w (λ _, False)).
    wp_step. wp_quiet (confined_log (λ _, False) a1
      (λ e, Stderr ("error cleaning up executor: " +:+ Error e +:+ newline))
      ltac:(intros ? ? [=])).
    cbn [files] in *.
    assert (Hsh3 : shrinks (files s3) (files s)).
    { intros p. right. rewrite Hfr2, Hfr1, Hfr0, Hfr by tauto. done. }
    unfold os_RemoveAll.
    wp_step. apply wp_os_op_no_fault; [apply Hnf|].
    destruct (do_RemoveAll_shrinks (StoragePath config) (files s3)) as (fs0 & -> & Hsh0 & Hgone).
    cbn [fatal].
    pose proof (shrinks_trans _ _ _ Hsh0 Hsh3) as HshA.
    wp_step. apply wp_Remove_lenient; [apply Hnf|by eapply shrinks_absent_or_file|].
    intros r1 fs1 -> Hsh1 Habs1. cbn [files] in Hsh1.
    pose proof (shrinks_trans _ _ _ Hsh1 HshA) as HshB.
    wp_step. apply wp_Remove_lenient; [apply Hnf|by eapply shrinks_absent_or_file|].
    intros r2 fs2 -> Hsh2 Habs2. cbn [files] in Hsh2.
    pose proof (shrinks_trans _ _ _ Hsh2 HshB) as HshC.
    wp_step. apply wp_Remove_lenient; [apply Hnf|by eapply shrinks_absent_or_file|].
    intros r3 fs3 -> Hsh3' Habs3. cbn [files] in Hsh3'.
    pose proof (shrinks_trans _ _ _ Hsh3' HshC) as HshD.
    wp_step. apply wp_Remove_lenient; [apply Hnf|by eapply shrinks_absent_or_file|].
    intros r4 fs4 -> Hsh4 Habs4. cbn [files] in Hsh4.
    wp_steps. split_and!; [done| |].
    - repeat constructor; eauto using shrinks_absent.
    - intros Hne p Hp. eauto 10 using shrinks_absent. }
  destruct Hrun as (Ho & Habs & Hgone).
  split_and!; [done| |done|done].
  destruct Hfirst as (n & _ & -> & Hn). rewrite Ho in Hn. by subst n.
  Unshelve.
  clear Hfirst. subst o s' evs. wp_start. unfold newExecutorUninstallCommand.
  wp_steps. rewrite Hcfg. cbn beta iota. wp_steps. rewrite Hconfirm. cbn beta iota.
  wp_step. wp_quiet (confined_stopExecutor w (λ _, False)).
  wp_step. wp_quiet (confined_log (λ _, False) a
    (λ e, Stderr ("error stopping executor: " +:+ Error e +:+ newline))
    ltac:(intros ? ? [=])).
  wp_step. wp_quiet (confined_cleanupExecutor w (λ _, False)).
  wp_step. wp_quiet (confined_log (λ _, False) a1
    (λ e, Stderr ("error cleaning up executor: " +:+ Error e +:+ newline))
    ltac:(intros ? ? [=])).
  apply untouched_no_removal in Hq, Hq0, Hq1, Hq2.
  cbn [trace] in *.
  set (l0 := ([GetExecutorConfig] ++ [Confirm (uninstall_prompt w (StoragePath config))] ++
              evs ++ evs0 ++ evs1 ++ evs2)%list).
  assert (Ht3 : trace s3 = (trace s ++ l0)%list).
  { subst l0. by rewrite Ht2, Ht1, Ht0, Ht, <- !app_assoc. }
  assert (Hl0 : List.filter is_removal l0 = []).
  { subst l0. by rewrite !List.filter_app, Hq, Hq0, Hq1, Hq2. }
  clearbody l0. clear Ht Ht0 Ht1 Ht2 Hq Hq0 Hq1 Hq2 Hfr Hfr0 Hfr1 Hfr2.
  eapply wp_mono with (Q := λ o s',
    ∃ n tail, trace s' = (trace s3 ++ take n (uninstall_targets w config) ++ tail)%list ∧
      (n ≤ 5)%nat ∧
      List.filter is_removal tail = [] ∧
      ∀ j ev no, uninstall_targets w config !! j = Some ev → (j < n)%nat →
        os_fault w (trace s3 ++ take j (uninstall_targets w config)) ev = Some no →
        match no with
        | ENOENT => (S j < n)%nat ∨ o = Done None
        | _ => S j = n ∧ tail = [] ∧
               ∃ op path, touched ev = Some path ∧ o = Done (Some (PathError op path no))
        end).
  2:{ intros o s' (n & tail & Ht' & Hn & Htail & Hidx) pre ev post no Hsplit Hrem Hfault.
      rewrite Ht', Ht3, <- !app_assoc, drop_app_length in Hsplit.
      destruct (split_at_marked is_removal l0 (take n (uninstall_targets w config)) tail
                  pre ev post Hl0 Htail) as (j & Hj & -> & ->); [|done|done|].
      { apply Forall_take. by repeat constructor. }
      apply lookup_take_Some in Hj as [Hj Hlt].
      rewrite take_take, Nat.min_l in Hfault by lia. rewrite app_assoc, <- Ht3 in Hfault.
      specialize (Hidx j ev no Hj Hlt Hfault).
      destruct no;
        [|destruct Hidx as (<- & -> & Hres); split;
          [rewrite drop_ge by (rewrite length_take; lia); done|done]..].
      destruct Hidx as [Hnext|Hdone]; [left|by right].
      rewrite List.filter_app. intros Hnil. apply app_eq_nil in Hnil as [Hnil _].
      clear -Hnil Hnext Hn.
      destruct n as [|[|[|[|[|[|n]]]]]]; try lia;
        destruct j as [|[|[|[|j]]]]; try lia; by simpl in Hnil. }
  assert (Hfatal : ∀ op path no, no ≠ ENOENT →
            fatal (Some (PathError op path no)) = Some (PathError op path no))
    by (intros op path []; done).
  unfold os_RemoveAll, os_Remove.
  wp_step. apply wp_os_op_verdict.
  { intros no s4 Hno Hrec Ht4. rewrite Hfatal by done. wp_steps.
    exists 1%nat, []. rewrite Ht4. split_and!; [done|lia|done|]. uninstall_verdict. }
  intros r1 s4 -> Hrec1 Ht4. cbn beta iota.
  wp_step. apply wp_os_op_verdict; rewrite Ht4, <- ?app_assoc; cbn [app].
  { intros no s5 Hno Hrec Ht5. rewrite Hfatal by done. wp_steps.
    exists 2%nat, []. rewrite Ht5. split_and!; [done|lia|done|]. uninstall_verdict. }
  intros r2 s5 -> Hrec2 Ht5. cbn beta iota.
  wp_step. apply wp_os_op_verdict; rewrite Ht5, <- ?app_assoc; cbn [app].
  { intros no s6 Hno Hrec Ht6. rewrite Hfatal by done. wp_steps.
    exists 3%nat, []. rewrite Ht6. split_and!; [done|lia|done|]. uninstall_verdict. }
  intros r3 s6 -> Hrec3 Ht6. cbn beta iota.
  wp_step. apply wp_os_op_verdict; rewrite Ht6, <- ?app_assoc; cbn [app].
  { intros no s7 Hno Hrec Ht7. rewrite Hfatal by done. wp_steps.
    exists 4%nat, []. rewrite Ht7. split_and!; [done|lia|done|]. uninstall_verdict. }
  intros r4 s7 -> Hrec4 Ht7. cbn beta iota.
  wp_step. apply wp_os_op_verdict; rewrite Ht7, <- ?app_assoc; cbn [app].
  { intros no s8 Hno Hrec Ht8. rewrite Hfatal by done. wp_steps.
    exists 5%nat, []. rewrite Ht8. split_and!; [done|lia|done|]. uninstall_verdict. }
  intros r5 s8 -> Hrec5 Ht8. cbn beta iota.
  wp_steps.
  exists 5%nat, (if negb (quiet w) then [Stdout ("Executor uninstalled" +:+ newline)] else []).
  cbn [trace]. rewrite Ht8, <- ?app_assoc. split_and!; [done|lia|by destruct (negb (quiet w))|].
  uninstall_verdict.
Qed.
End uninstall.

(** ** The executor commands at work *)

(** C3: uninstalling an installed executor, nothing refused; and
    uninstalling it where the removal of the storage directory is refused. *)
Lemma uninstall_removals_witness :
  ((newExecutorUninstallCommand world_unscheduled installed_host).1 = Done None ∧
   List.filter is_removal (emitted (newExecutorUninstallCommand world_unscheduled) installed_host) =
     uninstall_targets world_unscheduled
       {| StoragePath := "/var/beaker"; TokenPath := "/etc/beaker/executor-token";
          Cluster := "ai2/prod" |} ∧
   Forall (λ p, files (newExecutorUninstallCommand world_unscheduled installed_host).2 !! p = None)
     (uninstall_files world_unscheduled) ∧
   ("/var/beaker" ≠ EmptyString →
    ∀ p, under (strip_slashes "/var/beaker") p = true →
         files (newExecutorUninstallCommand world_unscheduled installed_host).2 !! p = None)) ∧
  (∃ op path,
     touched (RemoveAll "/var/beaker") = Some path ∧
     (newExecutorUninstallCommand world_storage_locked installed_host).1 =
       Done (Some (PathError op path EACCES))).
Proof.
  split.
  - apply (proj1 (proj2 (uninstall_removals world_unscheduled installed_host
                    {| StoragePath := "/var/beaker"; TokenPath := "/etc/beaker/executor-token";
                       Cluster := "ai2/prod" |} eq_refl eq_refl))).
    + intros t ev. reflexivity.
    + unfold uninstall_files.
      repeat (apply Forall_cons; split; [right; eexists _, _; vm_compute; reflexivity|]).
      by apply Forall_nil.
  - refine (proj2 (proj2 (proj2 (uninstall_removals world_storage_locked installed_host
                    {| StoragePath := "/var/beaker"; TokenPath := "/etc/beaker/executor-token";
                       Cluster := "ai2/prod" |} eq_refl eq_refl))
             [GetExecutorConfig;
              Confirm (uninstall_prompt world_storage_locked "/var/beaker");
              Exec ["systemctl"; "disable"; "beaker-executor"] [];
              Exec ["systemctl"; "stop"; "beaker-executor"] [];
              Exec ["/usr/bin/beaker-executor"; "cleanup"]
                ["CONFIG_PATH=/etc/beaker/executor.yml"]]
             (RemoveAll "/var/beaker") [] EACCES _ _ _));
      vm_compute; reflexivity.
Defined.

(** C3 fails as stated: when removing the storage directory is refused, the
    other four removals are not attempted and the files stay. *)
Lemma uninstall_stops_at_failed_removal :
  (newExecutorUninstallCommand world_storage_locked installed_host).1 =
    Done (Some (PathError "unlinkat" "/var/beaker" EACCES)) ∧
  List.filter is_removal
    (emitted (newExecutorUninstallCommand world_storage_locked) installed_host) =
    [RemoveAll "/var/beaker"] ∧
  files (newExecutorUninstallCommand world_storage_locked installed_host).2
    !! "/etc/beaker/executor-token" = Some (File "secret" 384).
Proof. vm_compute. done. Qed.

(** C4: a stop whose cleanup subprocess exits with status 1. *)
Lemma stop_returns_cleanup_error_witness :
  newExecutorStopCommand world_cleanup_fails installed_host =
    (Done (Some (Foreign "exit status 1")),
     (cleanupExecutor world_cleanup_fails
        (stopExecutor world_cleanup_fails
           {| trace := [Confirm stop_prompt]; files := files installed_host |}).2).2).
Proof.
  apply (stop_returns_cleanup_error world_cleanup_fails installed_host
           (stopExecutor world_cleanup_fails
              {| trace := [Confirm stop_prompt]; files := files installed_host |}).2
           (cleanupExecutor world_cleanup_fails
              (stopExecutor world_cleanup_fails
                 {| trace := [Confirm stop_prompt]; files := files installed_host |}).2).2
           (Foreign "exit status 1")).
  - reflexivity.
  - reflexivity.
  - reflexivity.
Defined.

(** C4 fails as stated: the service stops, the cleanup fails, and the stop
    command returns the cleanup's error. *)
Lemma stop_fails_when_cleanup_fails :
  (stopExecutor world_cleanup_fails
     {| trace := [Confirm stop_prompt]; files := files installed_host |}).1 = Done None ∧
  (newExecutorStopCommand world_cleanup_fails installed_host).1 =
    Done (Some (Foreign "exit status 1")) ∧
  (newExecutorStopCommand world_cleanup_fails installed_host).1 ≠ Done None.
Proof. vm_compute. split_and!; done. Qed.



(** C7: an upgrade leaves the config file of an installed host as it was. *)
Lemma upgrade_touches_binary_only_witness :
  files (newExecutorUpgradeCommand world_unscheduled installed_host).2
    !! executorConfigPath world_unscheduled =
  files installed_host !! executorConfigPath world_unscheduled.
Proof.
  apply (proj1 (proj2 (proj2 (proj2
           (upgrade_touches_binary_only world_unscheduled installed_host))))).
  vm_compute. discriminate.
Defined.

(** An upgrade that goes well, event by event. *)
Example upgrade_run :
  emitted (newExecutorUpgradeCommand world_unscheduled) installed_host =
    [ Exec ["systemctl"; "disable"; "beaker-executor"] [];
      Exec ["systemctl"; "stop"; "beaker-executor"] [];
      HttpGet versionURL;
      HttpGet "https://storage.googleapis.com/ai2-beaker-public/bin/v1.2.3/executor";
      Create "/usr/bin/beaker-executor";
      Write "/usr/bin/beaker-executor";
      Chmod "/usr/bin/beaker-executor" 448;
      Exec ["systemctl"; "daemon-reload"] [];
      Exec ["systemctl"; "enable"; "beaker-executor"] [];
      Exec ["systemctl"; "start"; "beaker-executor"] [] ] ∧
  files (newExecutorUpgradeCommand world_unscheduled installed_host).2
    !! "/usr/bin/beaker-executor" = Some (File "v1.2.3" 448).
Proof. vm_compute. done. Qed.

(** * More properties *)

Ltac wp_use lem := eapply wp_mono; [apply lem|]; cbn beta iota delta [trace files].

(** ** Session get *)

Lemma newSessionGetCommand_loop_shape (w : World) (args : list string) (acc : list Session)
    (s : state) :
  wp (newSessionGetCommand_loop w args acc) s (λ o s',
    files s' = files s ∧
    ∃ infos : list Session,
      (o = Done (Ok (acc ++ infos)%list) ∧ length infos = length args ∧
       trace s' = (trace s ++ zip_with (λ id info, SessionGet id (Ok info)) args infos)%list) ∨
      (∃ id e, o = Done (Err e) ∧ args !! length infos = Some id ∧
       trace s' = (trace s ++ zip_with (λ id info, SessionGet id (Ok info)) args infos ++
                   [SessionGet id (Err e)])%list)).
Proof.
  revert acc s. induction args as [|id args IH]; intros acc s; cbn [newSessionGetCommand_loop].
  { wp_steps. split; [done|]. exists []. left. by rewrite !app_nil_r. }
  wp_steps. wp_case.
  - wp_use IH.
    intros o s' (Hfiles & infos & Hcase). split; [done|]. exists (a :: infos).
    destruct Hcase as [(-> & Hlen & ->) | (id' & e & -> & Hid & ->)].
    + left. rewrite <- !app_assoc. cbn [length zip_with app]. by rewrite Hlen.
    + right. exists id', e. rewrite <- !app_assoc. by cbn [length zip_with app lookup].
  - wp_steps. split; [done|]. exists []. right. exists id, e. by cbn.
Qed.

(** X1.  [session get] fetches the sessions in the order of its arguments
    and prints them only when every fetch succeeded: then all of them are
    printed by one call, in that order, and the result is that of the
    printing.  The first fetch that fails ends the command with its error:
    the later sessions are not fetched and nothing is printed. *)
Theorem session_get_all_or_nothing (w : World) (args : list string) (s : state) :
  let o := (newSessionGetCommand w args s).1 in
  let evs := emitted (newSessionGetCommand w args) s in
  ∃ infos : list Session,
    (length infos = length args ∧
     evs = (zip_with (λ id info, SessionGet id (Ok info)) args infos ++
            [PrintSessions infos])%list ∧
     o = Done (answer_printSessions w
                 (trace s ++ zip_with (λ id info, SessionGet id (Ok info)) args infos) infos)) ∨
    (∃ id e, args !! length infos = Some id ∧
             evs = (zip_with (λ id info, SessionGet id (Ok info)) args infos ++
                    [SessionGet id (Err e)])%list ∧
             o = Done (Some e)).
Proof.
  intros o evs. subst o evs. wp_start. unfold newSessionGetCommand. wp_step.
  wp_use newSessionGetCommand_loop_shape.
  intros o s' (_ & infos & Hcase).
  destruct Hcase as [(-> & Hlen & Ht) | (id & e & -> & Hid & Ht)]; wp_steps; rewrite Ht;
    exists infos.
  - left. by rewrite <- app_assoc, drop_app_length.
  - right. exists id, e. by rewrite drop_app_length.
Qed.

(** ** Looking for the session's container *)

Lemma findRunningContainer_scan_shape (w : World) (session : string) (cs : list container)
    (s : state) :
  wp (findRunningContainer_scan w session cs) s (λ o s',
    files s' = files s ∧
    ∃ (passed : list container) (rest : list container),
      Forall (λ j, ∃ c info,
                passed !! j = Some c ∧
                answer_Info w (trace s ++ map ContainerInfoOf (take j passed)) c = Ok info ∧
                session_label info ≠ session)
             (seq 0 (length passed)) ∧
      ((o = Done (Ok None) ∧ cs = passed ∧
        trace s' = (trace s ++ map ContainerInfoOf passed)%list) ∨
       (∃ c, cs = (passed ++ c :: rest)%list ∧
             trace s' = (trace s ++ map ContainerInfoOf passed ++ [ContainerInfoOf c])%list ∧
             ((∃ info, o = Done (Ok (Some c)) ∧
                       answer_Info w (trace s ++ map ContainerInfoOf passed) c = Ok info ∧
                       session_label info = session) ∨
              (∃ e, o = Done (Err e) ∧
                    answer_Info w (trace s ++ map ContainerInfoOf passed) c = Err e))))).
Proof.
  unfold session_label.
  revert s. induction cs as [|c cs IH]; intros s; cbn [findRunningContainer_scan].
  { wp_steps. split; [done|]. exists [], []. split; [constructor|]. left. by rewrite app_nil_r. }
  wp_steps. wp_case.
  2:{ wp_steps. split; [done|]. exists [], cs. split; [constructor|]. right. exists c.
      cbn [map app]. rewrite app_nil_r. split_and!; [done..|]. right. by exists e. }
  destruct (String.eqb session _) eqn:Heq;
    [apply String.eqb_eq in Heq|apply String.eqb_neq in Heq; rename Heq into Hne].
  { wp_steps. split; [done|]. exists [], cs. split; [constructor|]. right. exists c.
    cbn [map app]. rewrite app_nil_r. split_and!; [done..|]. left. by exists a. }
  wp_use IH.
  intros o s' (Hfiles & passed & rest & Hall & Hcase). split; [done|].
  exists (c :: passed), rest. split.
  - cbn [length seq]. constructor.
    + exists c, a. cbn. rewrite app_nil_r. split_and!; [done..|]. congruence.
    + rewrite <- seq_shift, Forall_map. eapply Forall_impl; [exact Hall|].
      intros j (c' & info & Hj & Hans & Hlab). exists c', info.
      cbn [take map lookup]. rewrite <- app_assoc in Hans. by split_and!.
  - destruct Hcase as [(-> & -> & ->) | (c' & -> & -> & Hcase)].
    + left. by rewrite <- app_assoc.
    + right. exists c'. rewrite <- !app_assoc. cbn [map app].
      split_and!; [done..|].
      destruct Hcase as [(info & -> & Hans & Hlab) | (e & -> & Hans)];
        rewrite <- app_assoc in Hans; [left|right]; eauto.
Qed.

(** X2.  For a running session, with the runtime open and its containers
    listed, the lookup inspects the containers in the order listed and stops
    at the first whose session label is the session: that container is the
    result, and the ones before it were all inspected and carry another
    label (a missing label reads as the empty string).  An inspection that
    fails ends the lookup with its error.  When every container has been
    inspected and none carries the label, the result is the error
    "container not found". *)
Theorem findRunningContainer_first_match (w : World) (session : string) (s : state)
    (info : Session) (cs : list container) :
  answer_SessionGet w (trace s) session = Ok info →
  running info →
  answer_NewRuntime w (trace s ++ [SessionGet session (Ok info)]) = None →
  answer_ListContainers w (trace s ++ [SessionGet session (Ok info); NewRuntime]) = Ok cs →
  let o := (findRunningContainer w session s).1 in
  let evs := emitted (findRunningContainer w session) s in
  let pre := [SessionGet session (Ok info); NewRuntime; ListContainers] in
  ∃ (passed : list container) (rest : list container),
    Forall (λ j, ∃ c cinfo,
              passed !! j = Some c ∧
              answer_Info w (trace s ++ pre ++ map ContainerInfoOf (take j passed)) c
                = Ok cinfo ∧
              session_label cinfo ≠ session)
           (seq 0 (length passed)) ∧
    ((o = Done (Err (Errorf "container not found")) ∧ cs = passed ∧
      evs = (pre ++ map ContainerInfoOf passed)%list) ∨
     (∃ c, cs = (passed ++ c :: rest)%list ∧
           evs = (pre ++ map ContainerInfoOf passed ++ [ContainerInfoOf c])%list ∧
           ((∃ cinfo, o = Done (Ok c) ∧
                      answer_Info w (trace s ++ pre ++ map ContainerInfoOf passed) c
                        = Ok cinfo ∧
                      session_label cinfo = session) ∨
            (∃ e, o = Done (Err e) ∧
                  answer_Info w (trace s ++ pre ++ map ContainerInfoOf passed) c = Err e)))).
Proof.
  intros Hget (Hst & Hen & Hfi) Hrt Hlist o evs pre. subst o evs pre.
  wp_start. unfold findRunningContainer. wp_steps. rewrite Hget. cbn beta iota.
  rewrite bool_decide_eq_false_2 by done.
  rewrite bool_decide_eq_false_2 by (by rewrite Hen; intros []).
  rewrite bool_decide_eq_false_2 by (by rewrite Hfi; intros []).
  wp_steps. rewrite Hrt. wp_steps. rewrite <- app_assoc. cbn [app]. rewrite Hlist.
  wp_steps. wp_use findRunningContainer_scan_shape.
  intros o s' (_ & passed & rest & Hall & Hcase). cbn [trace] in *.
  assert (Hall' : Forall (λ j, ∃ c cinfo,
              passed !! j = Some c ∧
              answer_Info w (trace s ++ [SessionGet session (Ok info); NewRuntime;
                                         ListContainers] ++
                             map ContainerInfoOf (take j passed)) c = Ok cinfo ∧
              session_label cinfo ≠ session) (seq 0 (length passed))).
  { eapply Forall_impl; [exact Hall|]. intros j (c & cinfo & Hj & Hans & Hlab).
    exists c, cinfo. rewrite <- !app_assoc in Hans. cbn [app] in Hans. by split_and!. }
  destruct Hcase as [(-> & -> & Ht) | (c & -> & Ht & Hcase)].
  - wp_steps. exists passed, rest. split; [done|].
    left. rewrite Ht, <- !app_assoc, drop_app_length. by split_and!.
  - destruct Hcase as [(cinfo & -> & Hans & Hlab) | (e & -> & Hans)]; wp_steps;
      exists passed, rest; (split; [done|]); right; exists c;
      rewrite Ht; rewrite <- !app_assoc in *; cbn [app] in *; rewrite drop_app_length;
      (split; [done|]); (split; [done|]); [left|right]; eauto.
Qed.

(** X2 holds of an example run. *)
Lemma findRunningContainer_first_match_witness :
  ∃ (passed : list container) (rest : list container),
    Forall (λ j, ∃ c cinfo,
              passed !! j = Some c ∧
              answer_Info world_running
                (trace fresh_host ++
                 [SessionGet "01F2ZXCV" (Ok (example_session (started_at 7))); NewRuntime;
                  ListContainers] ++ map ContainerInfoOf (take j passed)) c = Ok cinfo ∧
              session_label cinfo ≠ "01F2ZXCV")
           (seq 0 (length passed)) ∧
    (((findRunningContainer world_running "01F2ZXCV" fresh_host).1
        = Done (Err (Errorf "container not found")) ∧
      ["dead"; "c0ffee"] = passed ∧
      emitted (findRunningContainer world_running "01F2ZXCV") fresh_host =
        ([SessionGet "01F2ZXCV" (Ok (example_session (started_at 7))); NewRuntime;
          ListContainers] ++ map ContainerInfoOf passed)%list) ∨
     (∃ c, ["dead"; "c0ffee"] = (passed ++ c :: rest)%list ∧
           emitted (findRunningContainer world_running "01F2ZXCV") fresh_host =
             ([SessionGet "01F2ZXCV" (Ok (example_session (started_at 7))); NewRuntime;
               ListContainers] ++ map ContainerInfoOf passed ++ [ContainerInfoOf c])%list ∧
           ((∃ cinfo, (findRunningContainer world_running "01F2ZXCV" fresh_host).1
                        = Done (Ok c) ∧
                      answer_Info world_running
                        (trace fresh_host ++
                         [SessionGet "01F2ZXCV" (Ok (example_session (started_at 7)));
                          NewRuntime; ListContainers] ++ map ContainerInfoOf passed) c
                        = Ok cinfo ∧
                      session_label cinfo = "01F2ZXCV") ∨
            (∃ e, (findRunningContainer world_running "01F2ZXCV" fresh_host).1
                    = Done (Err e) ∧
                  answer_Info world_running
                    (trace fresh_host ++
                     [SessionGet "01F2ZXCV" (Ok (example_session (started_at 7)));
                      NewRuntime; ListContainers] ++ map ContainerInfoOf passed) c
                    = Err e)))).
Proof.
  apply (findRunningContainer_first_match world_running "01F2ZXCV" fresh_host
           (example_session (started_at 7)) ["dead"; "c0ffee"]);
    [reflexivity|by repeat split|reflexivity|reflexivity].
Defined.

Lemma Forall_lookup_infos (cs : list container) :
  Forall (λ e, lookup_event e = true) (map ContainerInfoOf cs).
Proof. apply Forall_map, Forall_forall. by intros c _. Qed.

(** The whole lookup: what it adds to the trace are events of the lookup;
    it calls the runtime only for a running session; the container it
    returns is one whose label, read last, is the session. *)
Lemma findRunningContainer_shape (w : World) (session : string) (s : state) :
  wp (findRunningContainer w session) s (λ o s',
    files s' = files s ∧
    ∃ evs, trace s' = (trace s ++ evs)%list ∧
      Forall (λ e, lookup_event e = true) evs ∧
      (Forall (λ e, driver_call e = false) evs ∨
       ∃ info, answer_SessionGet w (trace s) session = Ok info ∧ running info) ∧
      match o with
      | Done (Ok c) =>
          ∃ pre info, evs = (pre ++ [ContainerInfoOf c])%list ∧
                      answer_Info w (trace s ++ pre) c = Ok info ∧
                      session_label info = session
      | Done (Err _) => True
      | _ => False
      end).
Proof.
  unfold findRunningContainer. wp_steps. wp_case.
  2:{ wp_steps. split; [done|]. eexists. split; [done|].
      split_and!; [by repeat constructor|left; by repeat constructor|done]. }
  case_bool_decide as Hst.
  { wp_steps. split; [done|]. eexists. split; [done|].
    split_and!; [by repeat constructor|left; by repeat constructor|done]. }
  case_bool_decide as Hen.
  { wp_steps. split; [done|]. eexists. split; [done|].
    split_and!; [by repeat constructor|left; by repeat constructor|done]. }
  case_bool_decide as Hfi.
  { wp_steps. split; [done|]. eexists. split; [done|].
    split_and!; [by repeat constructor|left; by repeat constructor|done]. }
  assert (Hrun : running a) by done.
  wp_steps. wp_case.
  { wp_steps. split; [done|]. eexists. rewrite <- !app_assoc. split; [done|].
    split_and!; [by repeat constructor|right; by exists a|done]. }
  wp_steps. wp_case.
  2:{ wp_steps. split; [done|]. eexists. rewrite <- !app_assoc. split; [done|].
      split_and!; [by repeat constructor|right; by exists a|done]. }
  wp_step. wp_use findRunningContainer_scan_shape.
  intros o s' (Hfiles & passed & rest & _ & Hcase).
  pose proof (Forall_lookup_infos passed) as Hpassed.
  destruct Hcase as [(-> & _ & Ht) | (c & _ & Ht & Hcase)].
  - wp_steps. split; [done|]. eexists. rewrite Ht, <- !app_assoc. split; [done|].
    split_and!; [|right; by exists a|done]. cbn [app]. by repeat constructor.
  - assert (Hevs : Forall (λ e, lookup_event e = true)
              ([SessionGet session (Ok a)] ++ [NewRuntime] ++ [ListContainers] ++
               map ContainerInfoOf passed ++ [ContainerInfoOf c])).
    { cbn [app]. repeat constructor. rewrite Forall_app. split; [done|by repeat constructor]. }
    destruct Hcase as [(info & -> & Hans & Hlab) | (e & -> & Hans)]; wp_steps.
    + split; [done|]. eexists. rewrite Ht, <- !app_assoc. split; [done|].
      split_and!; [done|right; by exists a|].
      exists ([SessionGet session (Ok a)] ++ [NewRuntime] ++ [ListContainers] ++
              map ContainerInfoOf passed)%list, info.
      rewrite <- !app_assoc in *. by split_and!.
    + split; [done|]. eexists. rewrite Ht, <- !app_assoc. split; [done|].
      split_and!; [done|right; by exists a|done].
Qed.

(** ** The launch, step by step *)


(** X3.  A launch asks the runtime for exactly what the scheduler granted and
    what it was called with: the image and command it was given, the GPUs,
    CPU count and memory of the limits of the session the wait returned, an
    interactive container running as the current user ([uid:gid]) in that
    user's home directory, the user being the one the system named right
    after the wait and its report of the reservation. *)
Theorem startSession_spec_resources (w : World) (fuel : nat) (sessionID image : string)
    (command : option (list string)) (s : state) (opts : ContainerOpts) :
  CreateContainer opts ∈ emitted (startSession w fuel sessionID image command) s →
  ∃ session limits u,
    (awaitSessionSchedule w fuel sessionID s).1 = Done (Ok session) ∧
    SessionGet sessionID (Ok session) ∈ emitted (startSession w fuel sessionID image command) s ∧
    Limits session = Some limits ∧
    answer_UserCurrent w
      (trace (awaitSessionSchedule w fuel sessionID s).2 ++ reserved_line w limits) = Ok u ∧
    Image opts = image ∧
    Command opts = command ∧
    opts_GPUs opts = GPUs limits ∧
    opts_CPUCount opts = CPUCount limits ∧
    opts_Memory opts = Memory limits ∧
    Interactive opts = true ∧
    User opts = Uid u +:+ ":" +:+ Gid u ∧
    WorkingDir opts = HomeDir u.
Proof.
  intros Hin.
  destruct (startSession_spec_eq _ _ _ _ _ _ _ Hin)
    as (session & limits & u & ? & ? & ? & ? & ->).
  exists session, limits, u. by split_and!.
Qed.

(** X3 holds of a run that prints what it does and sees the session pending
    once before it is scheduled. *)
Lemma startSession_spec_resources_witness :
  ∃ session limits u,
    (awaitSessionSchedule world_late 3 "01F2ZXCV" fresh_host).1 = Done (Ok session) ∧
    SessionGet "01F2ZXCV" (Ok session)
      ∈ emitted (startSession world_late 3 "01F2ZXCV" "allenai/base:cuda11.2-ubuntu20.04" None)
          fresh_host ∧
    Limits session = Some limits ∧
    answer_UserCurrent world_late
      (trace (awaitSessionSchedule world_late 3 "01F2ZXCV" fresh_host).2 ++
       reserved_line world_late limits) = Ok u ∧
    Image example_opts = "allenai/base:cuda11.2-ubuntu20.04" ∧
    Command example_opts = None ∧
    opts_GPUs example_opts = GPUs limits ∧
    opts_CPUCount example_opts = CPUCount limits ∧
    opts_Memory example_opts = Memory limits ∧
    Interactive example_opts = true ∧
    User example_opts = Uid u +:+ ":" +:+ Gid u ∧
    WorkingDir example_opts = HomeDir u.
Proof.
  apply startSession_spec_resources.
  apply list_elem_of_lookup_2 with 15%nat. vm_compute. reflexivity.
Defined.

(** X4.  The environment and the mounts of a launched container depend only
    on the current user's home directory and on what the [Stat] of [/net]
    answered: with a home directory, [HOME] is set to it and it is mounted
    at its own path, and without one the environment is empty; [/net] is
    mounted, after the home directory, unless its [Stat] says that it does
    not exist: so when the host has it, and also when the [Stat] fails in
    any other way; there is no other variable and no other mount. *)
Theorem startSession_spec_mounts (w : World) (fuel : nat) (sessionID image : string)
    (command : option (list string)) (s : state) (opts : ContainerOpts) :
  CreateContainer opts ∈ emitted (startSession w fuel sessionID image command) s →
  ∃ session limits u,
    (awaitSessionSchedule w fuel sessionID s).1 = Done (Ok session) ∧
    Limits session = Some limits ∧
    answer_UserCurrent w
      (trace (awaitSessionSchedule w fuel sessionID s).2 ++ reserved_line w limits) = Ok u ∧
    Env opts = (if decide (HomeDir u = EmptyString) then ∅ else {["HOME" := HomeDir u]}) ∧
    Mounts opts =
      ((if decide (HomeDir u = EmptyString) then []
        else [{| HostPath := HomeDir u; ContainerPath := HomeDir u |}]) ++
       match os_fault w
               ((trace (awaitSessionSchedule w fuel sessionID s).2 ++ reserved_line w limits) ++
                [UserCurrent])
               (Stat "/net") with
       | Some ENOENT => []
       | Some _ => [{| HostPath := "/net"; ContainerPath := "/net" |}]
       | None =>
           if decide (files s !! "/net" = None) then []
           else [{| HostPath := "/net"; ContainerPath := "/net" |}]
       end)%list.
Proof.
  intros Hin.
  destruct (startSession_spec_eq _ _ _ _ _ _ _ Hin)
    as (session & limits & u & ? & _ & ? & ? & ->).
  exists session, limits, u. split_and!; [done..| |]; cbn [Env Mounts].
  - destruct (String.eqb (HomeDir u) EmptyString) eqn:Hhome;
      [apply String.eqb_eq in Hhome|apply String.eqb_neq in Hhome];
      by destruct (decide (HomeDir u = EmptyString)).
  - f_equal.
    + destruct (String.eqb (HomeDir u) EmptyString) eqn:Hhome;
        [apply String.eqb_eq in Hhome|apply String.eqb_neq in Hhome];
        by destruct (decide (HomeDir u = EmptyString)).
    + unfold do_Stat. destruct (os_fault w _ (Stat "/net")) as [[]|]; try done.
      destruct (files s !! "/net") eqn:Hnet; by destruct (decide _).
Qed.

(** X4 holds of a run on a host that has [/net]. *)
Lemma startSession_spec_mounts_witness :
  ∃ session limits u,
    (awaitSessionSchedule world_late 3 "01F2ZXCV" host_with_net).1 = Done (Ok session) ∧
    Limits session = Some limits ∧
    answer_UserCurrent world_late
      (trace (awaitSessionSchedule world_late 3 "01F2ZXCV" host_with_net).2 ++
       reserved_line world_late limits) = Ok u ∧
    Env opts_with_net =
      (if decide (HomeDir u = EmptyString) then ∅ else {["HOME" := HomeDir u]}) ∧
    Mounts opts_with_net =
      ((if decide (HomeDir u = EmptyString) then []
        else [{| HostPath := HomeDir u; ContainerPath := HomeDir u |}]) ++
       match os_fault world_late
               ((trace (awaitSessionSchedule world_late 3 "01F2ZXCV" host_with_net).2 ++
                 reserved_line world_late limits) ++ [UserCurrent])
               (Stat "/net") with
       | Some ENOENT => []
       | Some _ => [{| HostPath := "/net"; ContainerPath := "/net" |}]
       | None =>
           if decide (files host_with_net !! "/net" = None) then []
           else [{| HostPath := "/net"; ContainerPath := "/net" |}]
       end)%list.
Proof.
  apply (startSession_spec_mounts world_late 3 "01F2ZXCV"
           "allenai/base:cuda11.2-ubuntu20.04" None host_with_net opts_with_net).
  apply list_elem_of_lookup_2 with 15%nat. vm_compute. reflexivity.
Defined.

Lemma wait_event_no_driver_call (evs : list event) :
  Forall (λ e, wait_event e = true) evs → List.filter driver_call evs = [].
Proof.
  induction 1 as [|e evs He _ IH]; [done|]. simpl. rewrite IH. by destruct e.
Qed.

(** X5.  The calls a launch makes to the container runtime are an initial
    part of: open the runtime, pull the image, create the container, start
    it, attach to it.  No step is skipped or repeated; the container that is
    started and attached to is the one the runtime returned for the spec;
    and the launch succeeds only after all five calls. *)
Theorem startSession_launch_order (w : World) (fuel : nat) (sessionID image : string)
    (command : option (list string)) (s : state) :
  ∃ (n : nat) (opts : ContainerOpts) (c : container),
    List.filter driver_call (emitted (startSession w fuel sessionID image command) s) =
      take n (launch_calls image (quiet w) opts c) ∧
    ((3 < n)%nat → ∃ pre, answer_CreateContainer w (trace s ++ pre) opts = Ok c) ∧
    ((startSession w fuel sessionID image command s).1 = Done None → n = 5%nat).
Proof.
  pose proof (startSession_run w fuel sessionID image command s) as H. cbn zeta in H.
  destruct H as (_ & wait_evs & Hwt & Hall & Hcase).
  pose proof (wait_event_no_driver_call _ Hall) as Hwait.
  unfold emitted.
  destruct (awaitSessionSchedule w fuel sessionID s).1 as [[session|e]| |]; [| |done|].
  2,3: destruct Hcase as [Ho ->]; rewrite Hwt, drop_app_length, Hwait;
       exists 0%nat, example_opts, EmptyString; (split; [done|]); (split; [lia|]);
       by rewrite Ho.
  destruct Hcase as [_ Hcase].
  destruct (Limits session) as [limits|].
  2:{ destruct Hcase as [[msg Ho] ->]. rewrite Hwt, drop_app_length, Hwait.
      exists 0%nat, example_opts, EmptyString. split; [done|]. split; [lia|].
      by rewrite Ho. }
  assert (Hres : List.filter driver_call (reserved_line w limits) = []).
  { unfold reserved_line. by destruct (quiet w). }
  destruct (answer_UserCurrent w _) as [u|e].
  2:{ destruct Hcase as [Ho ->]. rewrite Hwt, <- !app_assoc, drop_app_length.
      rewrite !List.filter_app, Hwait, Hres.
      exists 0%nat, example_opts, EmptyString. split; [done|]. split; [lia|].
      by rewrite Ho. }
  destruct Hcase as (n & c & r & rest & Hn & Ho & Ht & Hrest & _ & _ & Hc & Hr).
  rewrite Ht, Hwt, <- !app_assoc, drop_app_length.
  rewrite !List.filter_app, Hwait, Hres. cbn [app List.filter driver_call].
  eexists n, _, c. split; [exact Hrest|]. split.
  - intros H3. specialize (Hc H3).
    exists (wait_evs ++ reserved_line w limits ++ [UserCurrent; Stat "/net"] ++
            [NewRuntime] ++ pulling_line w ++ [PullImage image (quiet w)])%list.
    match type of Hc with
    | answer_CreateContainer _ ?t _ = _ =>
        replace (trace s ++ wait_evs ++ reserved_line w limits ++ [UserCurrent; Stat "/net"] ++
                 [NewRuntime] ++ pulling_line w ++ [PullImage image (quiet w)])%list with t;
        [exact Hc|]
    end.
    by rewrite Hwt, <- !app_assoc.
  - rewrite Ho. intros [= ->]. by apply Hr.
Qed.

(** X6.  A session that the scheduler reports as scheduled but without
    resource limits stops the launch with a nil dereference: nothing is
    asked of the container runtime. *)
Theorem startSession_nil_limits (w : World) (fuel : nat) (sessionID image : string)
    (command : option (list string)) (s : state) (session : Session) :
  (awaitSessionSchedule w fuel sessionID s).1 = Done (Ok session) →
  Limits session = None →
  (∃ msg, (startSession w fuel sessionID image command s).1 = Panic msg) ∧
  Forall (λ e, driver_call e = false) (emitted (startSession w fuel sessionID image command) s).
Proof.
  intros Hwait Hlim.
  pose proof (awaitSessionSchedule_result w sessionID fuel s) as H. unfold wp in H.
  destruct H as (_ & evs & Htrace & Hall & _).
  unfold emitted, startSession, mbind, M_bind.
  destruct (awaitSessionSchedule w fuel sessionID s) as [o s1]. simpl in Hwait, Htrace.
  subst o. cbn beta iota. rewrite Hlim. cbn.
  split; [by eexists|]. rewrite Htrace, drop_app_length.
  eapply Forall_impl; [exact Hall|]. intros e He. by destruct e.
Qed.

(** X6 holds of an example run. *)
Lemma startSession_nil_limits_witness :
  (∃ msg, (startSession world_no_limits 3 "01F2ZXCV" "allenai/base:cuda11.2-ubuntu20.04" None
             fresh_host).1 = Panic msg) ∧
  Forall (λ e, driver_call e = false)
    (emitted (startSession world_no_limits 3 "01F2ZXCV" "allenai/base:cuda11.2-ubuntu20.04" None)
       fresh_host).
Proof.
  apply (startSession_nil_limits world_no_limits 3 "01F2ZXCV" "allenai/base:cuda11.2-ubuntu20.04"
           None fresh_host unlimited_session); reflexivity.
Defined.

(** ** attach and exec *)

Lemma lookup_then (w : World) (session : string) (s : state) (ev : container → event)
    (answer : list event → container → option error) (c0 : container) :
  (∀ c, lookup_event (ev c) = false) →
  (∀ c, ev c = ev c0 → c = c0) →
  let m := r ← findRunningContainer w session;
           match r with
           | Err e => mret (Some e)
           | Ok c => x ← call (λ t, answer t c) (λ _, ev c); mret (handleAttachErr x)
           end in
  ev c0 ∈ emitted m s →
  (∃ info, answer_SessionGet w (trace s) session = Ok info ∧ running info) ∧
  ∃ pre cinfo,
    emitted m s = (pre ++ [ContainerInfoOf c0; ev c0])%list ∧
    Forall (λ e, lookup_event e = true) pre ∧
    answer_Info w (trace s ++ pre) c0 = Ok cinfo ∧
    session_label cinfo = session ∧
    (m s).1 = Done (handleAttachErr (answer (trace s ++ pre ++ [ContainerInfoOf c0])%list c0)).
Proof.
  intros Hev Hinj m. subst m. wp_start. wp_step. wp_use findRunningContainer_shape.
  intros o s1 (_ & evs & Htrace & Hall & Hrun & Ho).
  assert (Hno : ev c0 ∉ evs).
  { intros Hin. rewrite Forall_forall in Hall. apply Hall in Hin. by rewrite Hev in Hin. }
  destruct o as [[c|e]| |]; [| |done..].
  2:{ wp_steps. rewrite Htrace, drop_app_length. intros Hin. by apply Hno in Hin. }
  destruct Ho as (pre & cinfo & -> & Hinfo & Hlabel).
  wp_steps. rewrite Htrace, <- !app_assoc, drop_app_length, app_assoc. intros Hin.
  apply elem_of_app in Hin as [Hin|Hin]; [by apply Hno in Hin|].
  apply list_elem_of_singleton in Hin. symmetry in Hin. apply Hinj in Hin. subst c.
  rewrite <- app_assoc.
  split.
  { destruct Hrun as [Hnone|Hrun]; [|done].
    apply Forall_app in Hnone as [_ Hnone]. apply Forall_cons in Hnone as [Hnone _]. done. }
  exists pre, cinfo. apply Forall_app in Hall as [Hall _].
  rewrite <- ?app_assoc. by split_and!.
Qed.

(** X7.  When [session exec] runs a command in a container, the fetched
    session is running, the container is the one inspected last and its
    session label is the session asked for; the command is the arguments
    after the session, unchanged (nil when there are none); and the result
    is the error of that execution, but for an exit code, which is not an
    error. *)
Theorem exec_runs_in_session_container (w : World) (session : string) (command : list string)
    (s : state) (c : container) (cmd : option (list string)) :
  ContainerExec c cmd ∈ emitted (newSessionExecCommand w session command) s →
  cmd = match command with [] => None | _ => Some command end ∧
  (∃ info, answer_SessionGet w (trace s) session = Ok info ∧ running info) ∧
  ∃ pre cinfo,
    emitted (newSessionExecCommand w session command) s =
      (pre ++ [ContainerInfoOf c; ContainerExec c cmd])%list ∧
    Forall (λ e, lookup_event e = true) pre ∧
    answer_Info w (trace s ++ pre) c = Ok cinfo ∧
    session_label cinfo = session ∧
    (newSessionExecCommand w session command s).1 =
      Done (handleAttachErr (answer_Exec w (trace s ++ pre ++ [ContainerInfoOf c]) c cmd)).
Proof.
  intros Hin.
  assert (Hcmd : cmd = match command with [] => None | _ => Some command end).
  { revert Hin. wp_start. unfold newSessionExecCommand. wp_step.
    wp_use findRunningContainer_shape.
    intros o s1 (_ & evs & Htrace & Hall & _ & Ho).
    assert (Hno : ContainerExec c cmd ∉ evs).
    { intros Hin. rewrite Forall_forall in Hall. by apply Hall in Hin. }
    destruct o as [[c'|e]| |]; [| |done..]; wp_steps;
      rewrite Htrace, <- ?app_assoc, drop_app_length; intros Hin.
    - apply elem_of_app in Hin as [Hin|Hin]; [by apply Hno in Hin|].
      apply list_elem_of_singleton in Hin. by inversion Hin.
    - by apply Hno in Hin. }
  split; [done|]. subst cmd.
  apply (lookup_then w session s
           (λ c, ContainerExec c match command with [] => None | _ => Some command end)
           (λ t c, answer_Exec w t c match command with [] => None | _ => Some command end)
           c); [done|by intros c' [= ->]|exact Hin].
Qed.

(** X7 holds of an example run. *)
Lemma exec_runs_in_session_container_witness :
  Some ["ls"; "-l"] = Some ["ls"; "-l"] ∧
  (∃ info, answer_SessionGet world_running (trace fresh_host) "01F2ZXCV" = Ok info ∧
           running info) ∧
  ∃ pre cinfo,
    emitted (newSessionExecCommand world_running "01F2ZXCV" ["ls"; "-l"]) fresh_host =
      (pre ++ [ContainerInfoOf "c0ffee"; ContainerExec "c0ffee" (Some ["ls"; "-l"])])%list ∧
    Forall (λ e, lookup_event e = true) pre ∧
    answer_Info world_running (trace fresh_host ++ pre) "c0ffee" = Ok cinfo ∧
    session_label cinfo = "01F2ZXCV" ∧
    (newSessionExecCommand world_running "01F2ZXCV" ["ls"; "-l"] fresh_host).1 =
      Done (handleAttachErr
              (answer_Exec world_running (trace fresh_host ++ pre ++ [ContainerInfoOf "c0ffee"])
                 "c0ffee" (Some ["ls"; "-l"]))).
Proof.
  apply (exec_runs_in_session_container world_running "01F2ZXCV" ["ls"; "-l"] fresh_host
           "c0ffee" (Some ["ls"; "-l"])).
  apply list_elem_of_lookup_2 with 5%nat. vm_compute. reflexivity.
Defined.

(** X8.  When [session attach] attaches to a container, the fetched session
    is running, the container is the one inspected last and its session
    label is the session asked for; the result is the error of the
    attachment, but for an exit code, which is not an error. *)
Theorem attach_joins_session_container (w : World) (session : string) (s : state)
    (c : container) :
  ContainerAttach c ∈ emitted (newSessionAttachCommand w session) s →
  (∃ info, answer_SessionGet w (trace s) session = Ok info ∧ running info) ∧
  ∃ pre cinfo,
    emitted (newSessionAttachCommand w session) s =
      (pre ++ [ContainerInfoOf c; ContainerAttach c])%list ∧
    Forall (λ e, lookup_event e = true) pre ∧
    answer_Info w (trace s ++ pre) c = Ok cinfo ∧
    session_label cinfo = session ∧
    (newSessionAttachCommand w session s).1 =
      Done (handleAttachErr (answer_Attach w (trace s ++ pre ++ [ContainerInfoOf c]) c)).
Proof.
  apply (lookup_then w session s ContainerAttach (answer_Attach w) c);
    [done|by intros c' [= ->]].
Qed.

(** X8 holds of an example run. *)
Lemma attach_joins_session_container_witness :
  (∃ info, answer_SessionGet world_running (trace fresh_host) "01F2ZXCV" = Ok info ∧
           running info) ∧
  ∃ pre cinfo,
    emitted (newSessionAttachCommand world_running "01F2ZXCV") fresh_host =
      (pre ++ [ContainerInfoOf "c0ffee"; ContainerAttach "c0ffee"])%list ∧
    Forall (λ e, lookup_event e = true) pre ∧
    answer_Info world_running (trace fresh_host ++ pre) "c0ffee" = Ok cinfo ∧
    session_label cinfo = "01F2ZXCV" ∧
    (newSessionAttachCommand world_running "01F2ZXCV" fresh_host).1 =
      Done (handleAttachErr
              (answer_Attach world_running (trace fresh_host ++ pre ++ [ContainerInfoOf "c0ffee"])
                 "c0ffee")).
Proof.
  apply (attach_joins_session_container world_running "01F2ZXCV" fresh_host "c0ffee").
  apply list_elem_of_lookup_2 with 5%nat. vm_compute. reflexivity.
Defined.

(** ** session create *)

Lemma state_eta (s : state) (t : list event) (fs : gmap string node) :
  trace s = t → files s = fs → s = {| trace := t; files := fs |}.
Proof. destruct s. simpl. by intros -> ->. Qed.

(** A create, taken apart: the node, the request, the launch, the patch. *)
Lemma newSessionCreateCommand_shape (w : World) (fuel : nat) (gpus : Z)
    (image name node : string) (args : list string) (s : state) :
  let m := newSessionCreateCommand w fuel gpus image name node args in
  let command := match args with [] => None | _ => Some args end in
  (∃ e, node = EmptyString ∧ answer_getCurrentNode w (trace s) = Err e ∧
        emitted m s = [GetCurrentNode] ∧
        (m s).1 = Done (Some (Wrapf "failed to detect node; use --node flag" e))) ∨
  ∃ pre node',
    ((node = EmptyString ∧ pre = [GetCurrentNode] ∧
      answer_getCurrentNode w (trace s) = Ok node') ∨
     (node ≠ EmptyString ∧ pre = [] ∧ node' = node)) ∧
    let spec := {| spec_Name := name; spec_Node := node'; spec_GPUCount := gpus |} in
    match answer_CreateSession w (trace s ++ pre) spec with
    | Err e => emitted m s = (pre ++ [CreateSession spec])%list ∧ (m s).1 = Done (Some e)
    | Ok session =>
        ∃ s2, trace s2 = (trace s ++ pre ++ [CreateSession spec])%list ∧ files s2 = files s ∧
          let run := startSession w fuel (ID session) image command s2 in
          (m s).1 = run.1 ∧
          emitted m s =
            (pre ++ [CreateSession spec] ++
             emitted (startSession w fuel (ID session) image command) s2 ++
             match run.1 with
             | Done (Some _) =>
                 [SessionPatched Background (ID session)
                    {| patch_State :=
                         Some {| Scheduled := None; Started := None; Ended := None;
                                 Finalized := None;
                                 Canceled := Some (clock w (trace run.2)) |} |}]
             | _ => []
             end)%list
    end.
Proof.
  intros m command. subst m.
  assert (Hlaunch : ∀ (pre : list event) (node' : string) (s1 : state),
    trace s1 = (trace s ++ pre)%list → files s1 = files s →
    wp (r ← beaker_CreateSession w
              {| spec_Name := name; spec_Node := node'; spec_GPUCount := gpus |};
        match r with
        | Err e => mret (Some e)
        | Ok session =>
            started ← startSession w fuel (ID session) image command;
            match started with
            | Some e =>
                t ← now w;
                _ ← beaker_Session_Patch w Background (ID session)
                      {| patch_State := Some {| Scheduled := None; Started := None;
                                                Ended := None; Finalized := None;
                                                Canceled := t |} |};
                mret (Some e)
            | None => mret None
            end
        end) s1 (λ o s',
      let spec := {| spec_Name := name; spec_Node := node'; spec_GPUCount := gpus |} in
      match answer_CreateSession w (trace s ++ pre) spec with
      | Err e => drop (length (trace s)) (trace s') = (pre ++ [CreateSession spec])%list ∧
                 o = Done (Some e)
      | Ok session =>
          ∃ s2, trace s2 = (trace s ++ pre ++ [CreateSession spec])%list ∧ files s2 = files s ∧
            let run := startSession w fuel (ID session) image command s2 in
            o = run.1 ∧
            drop (length (trace s)) (trace s') =
              (pre ++ [CreateSession spec] ++
               emitted (startSession w fuel (ID session) image command) s2 ++
               match run.1 with
               | Done (Some _) =>
                   [SessionPatched Background (ID session)
                      {| patch_State :=
                           Some {| Scheduled := None; Started := None; Ended := None;
                                   Finalized := None;
                                   Canceled := Some (clock w (trace run.2)) |} |}]
               | _ => []
               end)%list
      end)).
  { intros pre node' s1 Ht Hf. wp_steps. rewrite Ht.
    destruct (answer_CreateSession w (trace s ++ pre) _) as [session|e]; wp_steps.
    2:{ by rewrite <- app_assoc, drop_app_length. }
    set (s2 := {| trace := ((trace s ++ pre) ++ [CreateSession _])%list; files := files s1 |}).
    pose proof (startSession_events w fuel (ID session) image command s2) as Hev.
    unfold wp in Hev. unfold wp at 1. unfold emitted.
    destruct (startSession w fuel (ID session) image command s2) as [o s'] eqn:Hrun.
    destruct Hev as (evs & Htrace & _). cbn [fst snd] in *.
    assert (Hdrop : drop (length (trace s2)) (trace s') = evs)
      by by rewrite Htrace, drop_app_length.
    assert (Ht2 : trace s2 = (trace s ++ pre ++ [CreateSession
              {| spec_Name := name; spec_Node := node'; spec_GPUCount := gpus |}])%list)
      by (subst s2; cbn [trace]; by rewrite <- app_assoc).
    destruct o as [[e|]|msg|]; wp_steps; exists s2; (split; [done|]); (split; [done|]);
      rewrite Hrun; cbn [fst snd]; (split; [done|]);
      rewrite Hdrop, Htrace, Ht2, <- ?app_assoc, drop_app_length;
      by rewrite ?app_nil_r. }
  wp_start. unfold newSessionCreateCommand. wp_step.
  destruct (String.eqb node EmptyString) eqn:Hnode;
    [apply String.eqb_eq in Hnode|apply String.eqb_neq in Hnode].
  - wp_steps. destruct (answer_getCurrentNode w (trace s)) as [node'|e] eqn:Hans;
      cbn beta iota.
    2:{ wp_steps. left. exists e. by rewrite drop_app_length. }
    wp_use (Hlaunch [GetCurrentNode] node'); [done..|].
    intros o s' H. right. exists [GetCurrentNode], node'. split; [by left|]. exact H.
  - wp_step. cbn beta iota.
    wp_use (Hlaunch [] node); [by rewrite app_nil_r|done|].
    intros o s' H. right. exists [], node. split; [by right|]. exact H.
Qed.

(** X9.  [session create] sends the scheduler at most one patch, and only as
    its very last event.  It sends none when it succeeds, none when it fails
    before a session exists (the node could not be detected, or the request
    to create the session failed), and none when the launch panics or is
    still waiting.  When the launch of a created session returns an error,
    it sends exactly one: under [context.Background()], for the session that
    was created, setting only [Canceled], to the time after the launch. *)
Theorem create_patch_discipline (w : World) (fuel : nat) (gpus : Z)
    (image name node : string) (args : list string) (s : state) :
  ∃ evs patches,
    emitted (newSessionCreateCommand w fuel gpus image name node args) s = (evs ++ patches)%list ∧
    Forall (λ ev, is_patch ev = false) evs ∧
    match (newSessionCreateCommand w fuel gpus image name node args s).1 with
    | Done (Some e) =>
        (patches = [] ∧
         ((∃ e', answer_getCurrentNode w (trace s) = Err e' ∧ evs = [GetCurrentNode] ∧
                 e = Wrapf "failed to detect node; use --node flag" e') ∨
          (∃ pre spec, evs = (pre ++ [CreateSession spec])%list ∧
                       answer_CreateSession w (trace s ++ pre) spec = Err e))) ∨
        (∃ pre spec session launch,
           answer_CreateSession w (trace s ++ pre) spec = Ok session ∧
           evs = (pre ++ [CreateSession spec] ++ launch)%list ∧
           patches =
             [SessionPatched Background (ID session)
                {| patch_State :=
                     Some {| Scheduled := None; Started := None; Ended := None;
                             Finalized := None;
                             Canceled := Some (clock w (trace s ++ evs)) |} |}])
    | _ => patches = []
    end.
Proof.
  destruct (newSessionCreateCommand_shape w fuel gpus image name node args s)
    as [(e & _ & Hans & -> & ->)|(pre & node' & Hnode & Hcase)].
  { exists [GetCurrentNode], []. split; [done|]. split; [by repeat constructor|].
    left. split; [done|]. left. by exists e. }
  assert (Hpre : Forall (λ ev, is_patch ev = false) pre).
  { destruct Hnode as [(_ & -> & _)|(_ & -> & _)]; by repeat constructor. }
  cbn zeta in Hcase.
  destruct (answer_CreateSession w (trace s ++ pre) _) as [session|e] eqn:Hcreate.
  2:{ destruct Hcase as [-> ->]. eexists _, []. rewrite app_nil_r. split; [done|].
      split; [apply Forall_app; split; [done|by repeat constructor]|].
      left. split; [done|]. right. by eexists _, _. }
  destruct Hcase as (s2 & Ht2 & _ & -> & ->).
  pose proof (startSession_events w fuel (ID session) image
                match args with [] => None | _ => Some args end s2) as Hev.
  unfold wp in Hev. destruct Hev as (launch & Htrace & Hnp & _).
  rewrite (emitted_app _ _ _ Htrace).
  eexists (pre ++ [CreateSession _] ++ launch)%list, _.
  split; [by rewrite <- !app_assoc|].
  split; [apply Forall_app; split; [done|apply Forall_cons; split; [done|done]]|].
  destruct (startSession w fuel (ID session) image _ s2).1 as [[e|]|msg|]; [|done..].
  right. eexists pre, _, session, launch. split; [exact Hcreate|]. split; [done|].
  by rewrite Htrace, Ht2, <- !app_assoc.
Qed.

(** X10.  The container that [session create] asks the runtime for belongs to
    the session it created.  The run is: the lookup of the current node
    (only when no [--node] was given), the request to the scheduler, and
    then the rest; the request carries the name and GPU count of the flags
    and the node (the [--node] flag when given, and otherwise the node that
    lookup answered); the wait that follows the request is for the ID the
    scheduler answered to it, and returns a session; and the container,
    asked for after the request, gets the image of the [--image] flag, the
    arguments as its command (nil when there are none), and as its session
    label the ID of the session the wait returned. *)
Theorem create_container_for_created_session (w : World) (fuel : nat) (gpus : Z)
    (image name node : string) (args : list string) (s : state) (opts : ContainerOpts) :
  CreateContainer opts ∈ emitted (newSessionCreateCommand w fuel gpus image name node args) s →
  ∃ pre spec session fetched rest,
    emitted (newSessionCreateCommand w fuel gpus image name node args) s =
      (pre ++ CreateSession spec :: rest)%list ∧
    answer_CreateSession w (trace s ++ pre) spec = Ok session ∧
    spec_Name spec = name ∧ spec_GPUCount spec = gpus ∧
    (if String.eqb node EmptyString
     then pre = [GetCurrentNode] ∧ answer_getCurrentNode w (trace s) = Ok (spec_Node spec)
     else pre = [] ∧ spec_Node spec = node) ∧
    (awaitSessionSchedule w fuel (ID session)
       {| trace := (trace s ++ pre ++ [CreateSession spec])%list; files := files s |}).1 =
      Done (Ok fetched) ∧
    SessionGet (ID session) (Ok fetched) ∈ rest ∧
    CreateContainer opts ∈ rest ∧
    Image opts = image ∧
    Command opts = match args with [] => None | _ => Some args end ∧
    Labels opts !! sessionContainerLabel = Some (ID fetched).
Proof.
  destruct (newSessionCreateCommand_shape w fuel gpus image name node args s)
    as [(e & _ & Hans & -> & _)|(pre & node' & Hnode & Hcase)].
  { intros Hin. no_member Hin. }
  assert (Hpre : CreateContainer opts ∉ pre).
  { destruct Hnode as [(_ & -> & _)|(_ & -> & _)]; intros Hin; no_member Hin. }
  cbn zeta in Hcase.
  destruct (answer_CreateSession w (trace s ++ pre) _) as [session|e] eqn:Hcreate.
  { destruct Hcase as (s2 & Ht2 & Hf2 & _ & ->). intros Hin.
    apply elem_of_app in Hin as [Hin|Hin]; [by apply Hpre in Hin|].
    apply elem_of_cons in Hin as [Hin|Hin]; [discriminate Hin|].
    apply elem_of_app in Hin as [Hin|Hin].
    2:{ destruct (startSession _ _ _ _ _ _).1 as [[?|]| |]; no_member Hin. }
    destruct (startSession_spec_eq _ _ _ _ _ _ _ Hin)
      as (fetched & limits & u & Hwait & Hget & _ & _ & Hopts).
    rewrite (state_eta _ _ _ Ht2 Hf2) in Hwait.
    exists pre, {| spec_Name := name; spec_Node := node'; spec_GPUCount := gpus |},
      session, fetched. eexists.
    split; [reflexivity|]. split; [exact Hcreate|]. split; [done|]. split; [done|]. split.
    { destruct Hnode as [(-> & -> & Hn)|(Hn & -> & ->)]; [done|].
      apply String.eqb_neq in Hn. by rewrite Hn. }
    split; [exact Hwait|].
    split; [apply elem_of_app; by left|]. split; [apply elem_of_app; by left|].
    rewrite Hopts. split; [done|]. split; [done|].
    cbn [Labels]. by rewrite lookup_insert_eq. }
  destruct Hcase as [-> _]. intros Hin.
  apply elem_of_app in Hin as [Hin|Hin]; [by apply Hpre in Hin|]. no_member Hin.
Qed.

(** X10 holds of a run that looks the node up, prints what it does, and sees
    the session pending once before it is scheduled. *)
Lemma create_container_for_created_session_witness :
  ∃ pre spec session fetched rest,
    emitted (newSessionCreateCommand world_late 3 2 "allenai/base:cuda11.2-ubuntu20.04"
               "dev" EmptyString []) fresh_host =
      (pre ++ CreateSession spec :: rest)%list ∧
    answer_CreateSession world_late (trace fresh_host ++ pre) spec = Ok session ∧
    spec_Name spec = "dev" ∧ spec_GPUCount spec = 2 ∧
    (if String.eqb EmptyString EmptyString
     then pre = [GetCurrentNode] ∧
          answer_getCurrentNode world_late (trace fresh_host) = Ok (spec_Node spec)
     else pre = [] ∧ spec_Node spec = EmptyString) ∧
    (awaitSessionSchedule world_late 3 (ID session)
       {| trace := (trace fresh_host ++ pre ++ [CreateSession spec])%list;
          files := files fresh_host |}).1 = Done (Ok fetched) ∧
    SessionGet (ID session) (Ok fetched) ∈ rest ∧
    CreateContainer example_opts ∈ rest ∧
    Image example_opts = "allenai/base:cuda11.2-ubuntu20.04" ∧
    Command example_opts = None ∧
    Labels example_opts !! sessionContainerLabel = Some (ID fetched).
Proof.
  apply (create_container_for_created_session world_late 3 2
           "allenai/base:cuda11.2-ubuntu20.04" "dev" EmptyString [] fresh_host example_opts).
  apply list_elem_of_lookup_2 with 17%nat. vm_compute. reflexivity.
Defined.

(** ** The executor commands follow their scripts *)

Lemma filter_take_all {A : Type} (P : A → bool) (l : list A) (n : nat) :
  Forall (λ x, P x = true) l → List.filter P (take n l) = take n l.
Proof.
  intros Hall. revert n. induction Hall as [|x l Hx _ IH]; intros [|n]; simpl; try done.
  by rewrite Hx, IH.
Qed.

Lemma scripted_filter (b : bool) (script : list event) (s : state)
    (o : outcome (option error)) (s' : state) :
  Forall (λ e, is_action e = true) script →
  scripted b script s o s' →
  ∃ n r, (n ≤ length script)%nat ∧ o = Done r ∧
         List.filter is_action (drop (length (trace s)) (trace s')) = take n script ∧
         (r = None → n = length script).
Proof.
  intros Hall (n & r & tail & Hn & -> & -> & Htail & Hr). exists n, r.
  rewrite drop_app_length, List.filter_app, Htail, app_nil_r, filter_take_all by done.
  split_and!; [done..|]. intros Hnone. by apply Hr.
Qed.

Lemma scripted_emitted (b : bool) (script : list event) (m : M (option error)) (s : state) :
  Forall (λ e, is_action e = true) script →
  wp m s (scripted b script s) →
  ∃ n r, (n ≤ length script)%nat ∧ (m s).1 = Done r ∧
         List.filter is_action (emitted m s) = take n script ∧
         (r = None → n = length script).
Proof. intros Hall Hm. by apply (scripted_filter b). Qed.

(** One step [m] and, if it succeeded, [f]. *)
Lemma scripted_seq (b : bool) (script1 script2 : list event) (m f : M (option error))
    (s : state) :
  wp m s (scripted true script1 s) →
  (∀ s1, trace s1 = (trace s ++ script1)%list → wp f s1 (scripted b script2 s1)) →
  wp (e ← m; match e with Some e => mret (Some e) | None => f end) s
     (scripted b (script1 ++ script2) s).
Proof.
  intros Hm Hf. wp_step. eapply wp_mono; [exact Hm|].
  intros o s1 (n & r & tail & Hn & -> & Ht & Htail & Hr). destruct r as [e|]; wp_steps.
  - exists n, (Some e), tail. rewrite length_app, take_app_le by done.
    split_and!; [lia|done..].
  - destruct (Hr eq_refl) as [-> Hsilent]. rewrite (Hsilent eq_refl) in Ht.
    rewrite take_ge, app_nil_r in Ht by done.
    eapply wp_mono; [by apply Hf|].
    intros o s2 (n & r & tail2 & Hn2 & -> & Ht2 & Htail2 & Hr2).
    exists (length script1 + n)%nat, r, tail2. rewrite length_app, take_app_add.
    split_and!; [lia|done| |done|].
    + by rewrite Ht2, Ht, <- !app_assoc.
    + intros Hnone. destruct (Hr2 Hnone) as [-> ?]. done.
Qed.

(** The script of a run that began earlier. *)
Lemma scripted_prefix (b : bool) (pre script : list event) (s s1 : state)
    (o : outcome (option error)) (s' : state) :
  trace s1 = (trace s ++ pre)%list →
  scripted b script s1 o s' → scripted b (pre ++ script) s o s'.
Proof.
  intros Ht (n & r & tail & Hn & -> & Ht' & Htail & Hr).
  exists (length pre + n)%nat, r, tail. rewrite length_app, take_app_add.
  split_and!; [lia|done| |done|].
  - by rewrite Ht', Ht, <- !app_assoc.
  - intros Hnone. destruct (Hr Hnone) as [-> ?]. done.
Qed.

(** The line of output that ends a command. *)
Lemma print_scripted (c : bool) (text : string) (s : state) :
  wp (_ ← when c (println text); mret None) s (scripted false [] s).
Proof.
  wp_steps. exists 0%nat, None, (if c then [Stdout (text +:+ newline)] else []).
  split_and!; [done..|by destruct c|done].
Qed.

Lemma fail_scripted (b : bool) (script : list event) (e : error) (s : state) :
  wp (mret (Some e)) s (scripted b script s).
Proof.
  wp_steps. exists 0%nat, (Some e), []. rewrite take_0, !app_nil_r.
  split_and!; [lia|done..].
Qed.

(** A step that is made, and fails. *)
Lemma step_failed (b : bool) (pre : list event) (ev : event) (rest : list event)
    (e : error) (s : state) :
  scripted b (pre ++ ev :: rest) s (Done (Some e))
    {| trace := (trace s ++ pre ++ [ev])%list; files := files s |}.
Proof.
  exists (length (pre ++ [ev])), (Some e), [].
  rewrite (cons_middle ev pre rest), app_assoc, take_app_length, app_nil_r, !length_app.
  split_and!; [simpl; lia|done..].
Qed.

(** A scripted run without subprocesses that does something when it fails
    is driven. *)
Lemma scripted_driven (w : World) (b : bool) (script : list event) (s : state)
    (o : outcome (option error)) (s' : state) :
  Forall (λ e, ∀ argv env, e ≠ Exec argv env) script →
  scripted b script s o s' →
  (∃ ev rest, trace s' = (trace s ++ ev :: rest)%list ∧ is_action ev = true) →
  driven w b script s o s'.
Proof.
  intros Hno (n & r & tail & Hn & -> & Ht & Htail & Hr) (ev & rest & Ht' & Hev).
  exists n, r, tail. split_and!; [done..| |].
  - intros _. destruct n as [|n]; [|lia].
    rewrite Ht in Ht'. apply app_inv_head in Ht'. rewrite take_0 in Ht'. simpl in Ht'.
    subst tail. simpl in Htail. by rewrite Hev in Htail.
  - intros j argv env Hj _. pose proof (Forall_lookup_1 _ _ _ _ Hno Hj) as Hne.
    by destruct (Hne argv env).
Qed.

(** One driven step [m] and, if it succeeded, [f]. *)
Lemma driven_seq (w : World) (b : bool) (script1 script2 : list event)
    (m f : M (option error)) (s : state) :
  wp m s (driven w true script1 s) →
  (∀ s1, trace s1 = (trace s ++ script1)%list → wp f s1 (driven w b script2 s1)) →
  wp (e ← m; match e with Some e => mret (Some e) | None => f end) s
     (driven w b (script1 ++ script2) s).
Proof.
  intros Hm Hf. wp_step. eapply wp_mono; [exact Hm|].
  intros o s1 (n & r & tail & Hn & -> & Ht & Htail & Hr & Hpos & Hrun).
  destruct r as [e|]; wp_steps.
  - exists n, (Some e), tail. rewrite length_app, take_app_le by done.
    split_and!; [lia|done..|].
    intros j argv env Hj Hlt. rewrite take_app_le by lia.
    apply Hrun; [|done]. by rewrite lookup_app_l in Hj by lia.
  - destruct (Hr eq_refl) as [-> Hsilent]. rewrite (Hsilent eq_refl) in Ht.
    rewrite take_ge, app_nil_r in Ht by done.
    eapply wp_mono; [by apply Hf|].
    intros o s2 (n & r & tail2 & Hn2 & -> & Ht2 & Htail2 & Hr2 & Hpos2 & Hrun2).
    exists (length script1 + n)%nat, r, tail2. rewrite length_app, take_app_add.
    split_and!; [lia|done| |done| | |].
    + by rewrite Ht2, Ht, <- !app_assoc.
    + intros Hnone. destruct (Hr2 Hnone) as [-> ?]. done.
    + intros Hsome. specialize (Hpos2 Hsome). lia.
    + intros j argv env Hj Hlt. destruct (decide (j < length script1)%nat) as [Hj1|Hj1].
      * rewrite lookup_app_l in Hj by done. rewrite take_app_le by lia.
        rewrite (Hrun j argv env Hj Hj1).
        destruct (decide (S j = length script1)),
                 (decide (S j = (length script1 + n)%nat)); try done.
        all: destruct r as [err|]; [|done].
        all: assert (0 < n)%nat by (by apply Hpos2); lia.
      * rewrite lookup_app_r in Hj by lia.
        replace (take j (script1 ++ script2)) with
          (script1 ++ take (j - length script1) script2)%list
          by (rewrite take_app_ge by lia; done).
        rewrite app_assoc, <- Ht. rewrite (Hrun2 _ argv env Hj) by lia.
        destruct (decide (S (j - length script1) = n)),
                 (decide (S j = (length script1 + n)%nat)); try done; lia.
Qed.

Lemma print_driven (w : World) (c : bool) (text : string) (s : state) :
  wp (_ ← when c (println text); mret None) s (driven w false [] s).
Proof.
  wp_steps. exists 0%nat, None, (if c then [Stdout (text +:+ newline)] else []).
  split_and!; [done|done|done|by destruct c|done|done|].
  intros j argv env Hj. done.
Qed.

(** What a driven run leaves in the trace. *)
Lemma driven_emitted (w : World) (b : bool) (script : list event) (m : M (option error))
    (s : state) :
  wp m s (driven w b script s) →
  ∃ n r tail,
    (n ≤ length script)%nat ∧ (r ≠ None → (0 < n)%nat) ∧
    (m s).1 = Done r ∧
    emitted m s = (take n script ++ tail)%list ∧
    List.filter is_action tail = [] ∧
    (r = None → n = length script) ∧
    (∀ j argv env, script !! j = Some (Exec argv env) → (j < n)%nat →
       (answer_Run w (trace s ++ take j script) argv env).2 =
         if decide (S j = n) then r else None).
Proof.
  unfold wp, emitted. intros (n & r & tail & Hn & Ho & Ht & Htail & Hr & Hpos & Hrun).
  exists n, r, tail. rewrite Ht, drop_app_length.
  split_and!; [done..| |done]. intros Hnone. by apply Hr.
Qed.

(** The steps of a script are counted by what the run did. *)
Lemma script_length (script tail : list event) (n : nat) :
  Forall (λ e, is_action e = true) script → (n ≤ length script)%nat →
  List.filter is_action tail = [] →
  length (List.filter is_action (take n script ++ tail)) = n.
Proof.
  intros Hall Hn Htail.
  rewrite List.filter_app, Htail, app_nil_r, filter_take_all, length_take by done. lia.
Qed.

(** A step and what follows it on success, as runs. *)
Lemma seq_run (m f : M (option error)) (s : state) :
  (e ← m; match e with Some e => mret (Some e) | None => f end) s =
  match (m s).1 with
  | Done None => f (m s).2
  | _ => m s
  end.
Proof. unfold mbind, M_bind. by destruct (m s) as [[[e|]|msg|] s1]. Qed.

Section scripts.
Context (w : World).

Lemma runCmd_scripted (argv env : list string) (s : state) :
  wp (runCmd w argv env) s (scripted true [Exec argv env] s).
Proof.
  unfold runCmd. wp_steps. wp_case; wp_steps.
  - eexists 1%nat, (Some e), [Stdout _]. rewrite <- app_assoc. by split_and!.
  - exists 1%nat, None, []. rewrite app_nil_r. by split_and!.
Qed.

Lemma startExecutor_scripted (s : state) :
  wp (startExecutor w) s (scripted true (run_steps systemctl_start) s).
Proof.
  apply (scripted_seq true [_] [_; _]); [apply runCmd_scripted|]. intros s1 _.
  apply (scripted_seq true [_] [_]); [apply runCmd_scripted|]. intros s2 _.
  apply runCmd_scripted.
Qed.

Lemma os_op_scripted (ev : event) (op path : string)
    (act : gmap string node → Errno + gmap string node) (s : state) :
  wp (os_op w ev op path act) s (scripted true [ev] s).
Proof.
  unfold os_op. wp_steps. wp_case; wp_steps; [by eexists 1%nat, (Some _), []|].
  wp_case; wp_steps; [by eexists 1%nat, (Some _), []|by exists 1%nat, None, []].
Qed.

Lemma downloadExecutor_scripted (s : state) :
  wp (downloadExecutor w) s (scripted true (download_steps (latest_version w (trace s))) s).
Proof.
  unfold downloadExecutor, getLatestVersion, latest_version. wp_steps.
  wp_case; wp_steps; [|apply (step_failed true [])].
  wp_case; wp_steps; [apply (step_failed true [])|].
  wp_case; [|wp_steps; rewrite <- app_assoc; apply (step_failed true [_])].
  eapply wp_mono with
    (Q := scripted true [Create executorPath; Write executorPath; Chmod executorPath 448] _).
  { apply (scripted_seq true [Create executorPath]
             [Write executorPath; Chmod executorPath 448]);
      [apply os_op_scripted|]. intros s1 _.
    apply (scripted_seq true [Write executorPath] [Chmod executorPath 448]);
      [apply os_op_scripted|]. intros s2 _.
    destruct (BodyErr a0); [apply fail_scripted|apply os_op_scripted]. }
  intros o s'. apply (scripted_prefix true [HttpGet versionURL; HttpGet _]).
  cbn [trace]. by rewrite <- app_assoc.
Qed.

Lemma runCmd_driven (argv env : list string) (s : state) :
  wp (runCmd w argv env) s (driven w true [Exec argv env] s).
Proof.
  unfold runCmd. wp_steps.
  destruct (answer_Run w (trace s) argv env) as [out [e|]] eqn:Hans;
    cbn beta iota delta [fst snd trace files]; wp_steps.
  - eexists 1%nat, (Some e), [Stdout _]. rewrite <- app_assoc.
    split_and!; [done|done|done|done|done|intros _; lia|].
    intros j argv' env' Hj Hlt. destruct j as [|j]; [|lia]. simpl in Hj.
    injection Hj as <- <-. simpl. by rewrite app_nil_r, Hans.
  - exists 1%nat, None, []. rewrite app_nil_r.
    split_and!; [done|done|done|done|done|intros _; lia|].
    intros j argv' env' Hj Hlt. destruct j as [|j]; [|lia]. simpl in Hj.
    injection Hj as <- <-. simpl. by rewrite app_nil_r, Hans.
Qed.

Lemma stopExecutor_driven (s : state) :
  wp (stopExecutor w) s (driven w true (run_steps systemctl_stop) s).
Proof.
  apply (driven_seq w true [_] [_]); [apply runCmd_driven|]. intros s1 _.
  apply runCmd_driven.
Qed.

Lemma startExecutor_driven (s : state) :
  wp (startExecutor w) s (driven w true (run_steps systemctl_start) s).
Proof.
  apply (driven_seq w true [_] [_; _]); [apply runCmd_driven|]. intros s1 _.
  apply (driven_seq w true [_] [_]); [apply runCmd_driven|]. intros s2 _.
  apply runCmd_driven.
Qed.

(** A download begins with the fetch of the version. *)
Lemma downloadExecutor_first (s : state) :
  wp (downloadExecutor w) s (λ _ s',
    ∃ rest, trace s' = (trace s ++ HttpGet versionURL :: rest)%list).
Proof.
  unfold downloadExecutor, getLatestVersion, http_Get, os_Create, file_Write, os_Chmod, os_op.
  repeat first [wp_step | wp_case].
  all: rewrite <- ?app_assoc; by eexists.
Qed.

Lemma downloadExecutor_driven (s : state) :
  wp (downloadExecutor w) s (driven w true (download_steps (latest_version w (trace s))) s).
Proof.
  pose proof (downloadExecutor_scripted s) as H1.
  pose proof (downloadExecutor_first s) as H2. unfold wp in *.
  apply scripted_driven; [|done|].
  - repeat (apply Forall_cons; split; [by intros ??|]). by apply Forall_nil.
  - destruct H2 as [rest ->]. by eexists _, _.
Qed.

(** X11.  Restarting the service is stopping it and then starting it again:
    what [restart] does is an initial part of [systemctl disable], [stop],
    [daemon-reload], [enable], [start], at least the first and all five
    when it succeeds; anything else it adds to the trace is output.  The
    subprocesses decide how far it gets: each is started at the trace the
    ones before it left, every one before the last that was started
    succeeded, and what the last one answered is the result of the command.
    [restart] asks for no confirmation and does not run the executor's
    cleanup. *)
Theorem restart_follows_script (s : state) :
  ∃ n r tail,
    (1 ≤ n ≤ length restart_steps)%nat ∧
    (newExecutorRestartCommand w s).1 = Done r ∧
    emitted (newExecutorRestartCommand w) s = (take n restart_steps ++ tail)%list ∧
    List.filter is_action tail = [] ∧
    (r = None → n = length restart_steps) ∧
    (∀ j argv env,
       restart_steps !! j = Some (Exec argv env) → (j < n)%nat →
       (answer_Run w (trace s ++ take j restart_steps) argv env).2 =
         if decide (S j = n) then r else None).
Proof.
  destruct (driven_emitted w false restart_steps (newExecutorRestartCommand w) s)
    as (n & r & tail & Hn & Hpos & Ho & Hevs & Htail & Hr & Hrun).
  { unfold newExecutorRestartCommand.
    apply driven_seq; [apply stopExecutor_driven|]. intros s1 _.
    rewrite <- (app_nil_r (run_steps systemctl_start)).
    apply driven_seq; [apply startExecutor_driven|]. intros s2 _.
    apply print_driven. }
  exists n, r, tail. split_and!; [|done..].
  destruct r as [e|]; [by apply Hpos|]. rewrite Hr by done. simpl. lia.
Qed.

(** X12.  An upgrade stops the service, replaces the binary and starts the
    service, in that order: what it does is an initial part of
    [systemctl disable], [stop], the fetch of the latest version, the fetch
    of the executor of that version, creating, writing and [chmod 0700] of
    the binary, [systemctl daemon-reload], [enable], [start]; at least the
    first step, and all ten when it succeeds.  Every subprocess before the
    last step made succeeded, and a subprocess that is the last step made
    answered the result of the command.  Once the service is stopped the
    download decides: when it fails, its error is the result and no later
    step is made.  So the binary is touched only after both stop steps
    succeeded, and a subprocess of the start is run only after the download
    succeeded.  ([stopped] is the host once the service is stopped: the two
    stop steps are in the trace, and the files are as the stop left
    them.) *)
Theorem upgrade_follows_script (s : state) :
  let version := latest_version w (trace s ++ run_steps systemctl_stop) in
  let stopped := {| trace := (trace s ++ run_steps systemctl_stop)%list;
                    files := files (stopExecutor w s).2 |} in
  ∃ n r tail,
    (1 ≤ n ≤ length (upgrade_steps version))%nat ∧
    (newExecutorUpgradeCommand w s).1 = Done r ∧
    emitted (newExecutorUpgradeCommand w) s = (take n (upgrade_steps version) ++ tail)%list ∧
    List.filter is_action tail = [] ∧
    (r = None → n = length (upgrade_steps version)) ∧
    (∀ j argv env,
       upgrade_steps version !! j = Some (Exec argv env) → (j < n)%nat →
       (answer_Run w (trace s ++ take j (upgrade_steps version)) argv env).2 =
         if decide (S j = n) then r else None) ∧
    ((2 < n)%nat →
     (downloadExecutor w stopped).1 = Done (if decide (n ≤ 7)%nat then r else None)) ∧
    (∀ ev, ev ∈ emitted (newExecutorUpgradeCommand w) s → touched ev ≠ None →
       (answer_Run w (trace s) ["systemctl"; "disable"; executorService] []).2 = None ∧
       (answer_Run w (trace s ++ [Exec ["systemctl"; "disable"; executorService] []])
          ["systemctl"; "stop"; executorService] []).2 = None) ∧
    (∀ argv env, Exec argv env ∈ emitted (newExecutorUpgradeCommand w) s →
       argv ∈ systemctl_start →
       (downloadExecutor w stopped).1 = Done None).
Proof.
  intros version stopped.
  assert (Hactions : Forall (λ e, is_action e = true) (upgrade_steps version))
    by by repeat constructor.
  destruct (driven_emitted w false (upgrade_steps version) (newExecutorUpgradeCommand w) s)
    as (n & r & tail & Hn & Hpos & Ho & Hevs & Htail & Hr & Hrun).
  { unfold newExecutorUpgradeCommand.
    apply driven_seq; [apply stopExecutor_driven|]. intros s1 Hs1.
    rewrite <- (app_nil_r (run_steps systemctl_start)).
    apply driven_seq.
    { subst version. rewrite <- Hs1. apply downloadExecutor_driven. }
    intros s2 _.
    apply driven_seq; [apply startExecutor_driven|]. intros s3 _.
    apply print_driven. }
  assert (Hdownload : (2 < n)%nat →
    (downloadExecutor w stopped).1 = Done (if decide (n ≤ 7)%nat then r else None)).
  { pose proof (script_length _ _ _ Hactions Hn Htail) as Hk. rewrite <- Hevs in Hk.
    clear Hrun Hr Hpos Hevs Htail tail. intros Hn2.
    revert Ho Hk. unfold emitted, newExecutorUpgradeCommand. rewrite seq_run.
    pose proof (stopExecutor_driven s) as Hs. unfold wp in Hs.
    destruct Hs as (n0 & r0 & tail0 & Hn0 & Ho0 & Ht0 & Htail0 & Hr0 & _).
    assert (Hf0 : files (stopExecutor w s).2 = files (stopExecutor w s).2) by done.
    rewrite Ho0. destruct r0 as [e0|].
    { intros _. rewrite Ht0, drop_app_length, script_length; [simpl in Hn0; lia| |done..].
      by repeat constructor. }
    destruct (Hr0 eq_refl) as [-> Hsilent]. rewrite (Hsilent eq_refl) in Ht0.
    rewrite app_nil_r, take_ge in Ht0 by done.
    rewrite (state_eta _ _ _ Ht0 Hf0). fold stopped. rewrite seq_run.
    pose proof (downloadExecutor_driven stopped) as Hd. unfold wp in Hd.
    destruct Hd as (n1 & r1 & tail1 & Hn1 & Ho1 & Ht1 & Htail1 & Hr1 & Hpos1 & _).
    rewrite Ho1. destruct r1 as [e1|].
    { rewrite Ho1, Ht1. intros [= <-]. cbn [trace stopped].
      rewrite <- app_assoc, drop_app_length, List.filter_app, length_app.
      rewrite script_length; [|by repeat constructor|done..].
      simpl in Hn1 |- *. intros <-. by rewrite decide_True by lia. }
    destruct (Hr1 eq_refl) as [-> Hsilent1]. rewrite (Hsilent1 eq_refl) in Ht1.
    rewrite take_ge, app_nil_r in Ht1 by done.
    pose proof (startExecutor_driven (downloadExecutor w stopped).2) as Hst. unfold wp in Hst.
    rewrite seq_run.
    destruct Hst as (n2 & r2 & tail2 & Hn2' & Ho2 & Ht2 & Htail2 & Hr2 & Hpos2 & _).
    assert (0 < n2)%nat.
    { destruct r2 as [e2|]; [by apply Hpos2|]. destruct (Hr2 eq_refl) as [-> _]. simpl. lia. }
    rewrite Ho2. intros _.
    assert (Hlen : ∀ s', (∃ tail', trace s' = (trace (startExecutor w (downloadExecutor w stopped).2).2
                                               ++ tail')%list ∧
                                    List.filter is_action tail' = []) →
              length (List.filter is_action (drop (length (trace s)) (trace s'))) = n →
              Done None = Done (if decide (n ≤ 7)%nat then r else None)).
    { intros s' (tail' & -> & Htail') <-. rewrite Ht2, Ht1. cbn [trace stopped].
      rewrite <- !app_assoc, drop_app_length, !List.filter_app, !length_app, Htail2, Htail'.
      rewrite !filter_take_all by by repeat constructor.
      rewrite length_take. simpl length. rewrite decide_False; [done|]. simpl in Hn2'. lia. }
    destruct r2 as [e2|].
    - apply Hlen. exists []. by rewrite app_nil_r.
    - apply Hlen. unfold mbind, M_bind.
      destruct (quiet w); cbn; [exists []; by rewrite app_nil_r|by eexists [_]]. }
  exists n, r, tail. split_and!; [|done..| |].
  - destruct r as [e|]; [by apply Hpos|]. rewrite Hr by done. simpl. lia.
  - intros ev Hin Htouched. rewrite Hevs in Hin.
    apply elem_of_app in Hin as [Hin|Hin].
    2:{ apply (filter_nil_not_marked _ _ _ Htail) in Hin. by destruct ev. }
    apply elem_of_take in Hin as (j & Hj & Hlt).
    assert (4 < n)%nat.
    { destruct j as [|[|[|[|j]]]]; simpl in Hj; [by injection Hj as <-..|lia]. }
    pose proof (Hrun 0%nat _ _ eq_refl ltac:(lia)) as H0.
    pose proof (Hrun 1%nat _ _ eq_refl ltac:(lia)) as H1.
    rewrite decide_False in H0 by lia. rewrite decide_False in H1 by lia.
    cbn [take upgrade_steps run_steps systemctl_stop map app] in H0, H1.
    by rewrite app_nil_r in H0.
  - intros argv env Hin Hstart. rewrite Hevs in Hin.
    apply elem_of_app in Hin as [Hin|Hin].
    2:{ by apply (filter_nil_not_marked _ _ _ Htail) in Hin. }
    apply elem_of_take in Hin as (j & Hj & Hlt).
    assert (7 < n)%nat.
    { destruct j as [|[|[|[|[|[|[|j]]]]]]]; simpl in Hj; [..|lia].
      1,2: injection Hj as <- <-; unfold systemctl_start in Hstart; members Hstart.
      all: discriminate Hj. }
    rewrite Hdownload by lia. by rewrite decide_False by lia.
Qed.

Lemma call_scripted (answer : list event → option error) (ev : event) (s : state) :
  wp (call answer (λ _, ev)) s (scripted true [ev] s).
Proof.
  wp_steps. destruct (answer (trace s)) as [e|]; [by eexists 1%nat, (Some _), []|].
  by exists 1%nat, None, [].
Qed.

(** X13.  What an install does is an initial part of: look for the binary,
    look the cluster up, make the config directory, write the token file,
    create and write the config file, create and write the service unit,
    fetch the latest version and the executor of that version, create,
    write and [chmod 0700] the binary, and [systemctl daemon-reload],
    [enable], [start]; whole when it succeeds.  So the service is started
    only with the configuration, the unit and the binary in place. *)
Theorem install_follows_script (storageDir cluster : string) (s : state) :
  let version := latest_version w (trace s ++ install_config_steps w cluster) in
  ∃ n r, (n ≤ length (install_steps w cluster version))%nat ∧
         (newExecutorInstallCommand w storageDir cluster s).1 = Done r ∧
         List.filter is_action (emitted (newExecutorInstallCommand w storageDir cluster) s) =
           take n (install_steps w cluster version) ∧
         (r = None → n = length (install_steps w cluster version)).
Proof.
  intros version.
  apply (scripted_emitted false); [by repeat constructor|].
  unfold newExecutorInstallCommand. wp_steps.
  destruct (do_Stat executorPath _ (files s)) eqn:Hbin; cbn beta iota.
  2:{ wp_steps. apply (step_failed false []). }
  eapply wp_mono with
    (Q := scripted false
            ([ClusterGet cluster] ++ [MkdirAll (executorConfigDir w)] ++
             [WriteFile (executorTokenPath w) 384] ++
             [Create (executorConfigPath w)] ++ [Write (executorConfigPath w)] ++
             [Create executorSystemdPath] ++ [Write executorSystemdPath] ++
             download_steps version ++ run_steps systemctl_start ++ []) _).
  { apply scripted_seq; [apply call_scripted|]. intros s1 Hs1.
    apply scripted_seq; [apply os_op_scripted|]. intros s2 Hs2.
    apply scripted_seq; [apply os_op_scripted|]. intros s3 Hs3.
    apply scripted_seq; [apply os_op_scripted|]. intros s4 Hs4.
    apply scripted_seq; [apply os_op_scripted|]. intros s5 Hs5.
    apply scripted_seq; [apply os_op_scripted|]. intros s6 Hs6.
    apply scripted_seq; [apply os_op_scripted|]. intros s7 Hs7.
    apply scripted_seq.
    { pose proof (downloadExecutor_scripted s7) as H.
      rewrite Hs7, Hs6, Hs5, Hs4, Hs3, Hs2, Hs1 in H at 1. cbn [trace] in H.
      rewrite <- !app_assoc in H. exact H. }
    intros s8 _.
    apply scripted_seq; [apply startExecutor_scripted|]. intros s9 _. apply print_scripted. }
  intros o s' H. cbn beta in H.
  apply (scripted_prefix false [Stat executorPath] _ s) in H; [|done].
  exact H.
Qed.

(** X14.  [stop] asks before it does anything.  When the answer is no the
    command returns nil, and when the question fails it returns that error;
    in both cases the question is its only event.  When the answer is yes,
    what it does after the question is an initial part of
    [systemctl disable], [stop] and the executor's [cleanup] with
    [CONFIG_PATH] set, at least the first of them and all when it succeeds;
    every subprocess before the last that was started succeeded, and what
    the last one answered is the result of the command. *)
Theorem stop_follows_script (s : state) :
  ∃ n r tail,
    (1 ≤ n ≤ length (stop_steps w))%nat ∧
    (newExecutorStopCommand w s).1 = Done r ∧
    emitted (newExecutorStopCommand w) s = (take n (stop_steps w) ++ tail)%list ∧
    List.filter is_action tail = [] ∧
    match answer_confirm w (trace s) stop_prompt with
    | Err e => n = 1%nat ∧ r = Some e ∧ tail = []
    | Ok false => n = 1%nat ∧ r = None ∧ tail = []
    | Ok true =>
        (1 < n)%nat ∧
        (r = None → n = length (stop_steps w)) ∧
        (∀ j argv env,
           stop_steps w !! j = Some (Exec argv env) → (j < n)%nat →
           (answer_Run w (trace s ++ take j (stop_steps w)) argv env).2 =
             if decide (S j = n) then r else None)
    end.
Proof.
  wp_start. unfold newExecutorStopCommand. wp_steps.
  destruct (answer_confirm w (trace s) stop_prompt) as [[|]|e] eqn:Hans; cbn beta iota.
  - eapply wp_mono with
      (Q := driven w false
              (run_steps systemctl_stop ++
               [Exec [executorPath; "cleanup"] ["CONFIG_PATH=" +:+ executorConfigPath w]] ++ [])
              _).
    { apply driven_seq; [apply stopExecutor_driven|]. intros s1 _.
      apply driven_seq; [apply runCmd_driven|]. intros s2 _.
      apply print_driven. }
    intros o s' (n & r & tail & Hn & -> & Ht & Htail & Hr & Hpos & Hrun).
    cbn [trace] in Ht, Hrun.
    assert (Hn0 : (0 < n)%nat).
    { destruct r as [e|]; [by apply Hpos|]. destruct (Hr eq_refl) as [-> _]. simpl. lia. }
    exists (S n), r, tail. rewrite Ht, <- !app_assoc, drop_app_length.
    split_and!; [lia|simpl in *; lia|done|done|done|lia| |].
    + intros Hnone. destruct (Hr Hnone) as [-> _]. done.
    + intros [|j] argv env Hj Hlt; [done|]. simpl in Hj.
      specialize (Hrun j argv env Hj ltac:(lia)). rewrite <- app_assoc in Hrun.
      match type of Hrun with
      | (answer_Run _ (_ ++ ?l) _ _).2 = _ => change (take (S j) (stop_steps w)) with l
      end.
      rewrite Hrun.
      destruct (decide (S j = n)), (decide (S (S j) = S n)); try done; lia.
  - wp_steps. exists 1%nat, None, []. rewrite drop_app_length.
    split_and!; [simpl; lia|simpl; lia|done..].
  - wp_steps. exists 1%nat, (Some e), []. rewrite drop_app_length.
    split_and!; [simpl; lia|simpl; lia|done..].
Qed.

(** X15.  [uninstall] stops no service, runs no subprocess and removes
    nothing unless the executor's configuration could be read and the
    question, which names the storage directory of that configuration, was
    answered with yes. *)
Theorem uninstall_asks_first (s : state) (e : event) :
  e ∈ emitted (newExecutorUninstallCommand w) s →
  is_removal e = true ∨ (∃ argv env, e = Exec argv env) →
  ∃ config,
    answer_getExecutorConfig w (trace s) = Ok config ∧
    answer_confirm w (trace s ++ [GetExecutorConfig])
      (uninstall_prompt w (StoragePath config)) = Ok true.
Proof.
  wp_start. unfold newExecutorUninstallCommand. wp_steps.
  destruct (answer_getExecutorConfig w (trace s)) as [config|err] eqn:Hcfg; cbn beta iota.
  2:{ wp_steps. rewrite drop_app_length. intros Hin [He|(? & ? & ->)]; [|no_member Hin].
      apply list_elem_of_singleton in Hin. by subst e. }
  wp_steps.
  destruct (answer_confirm w (trace s ++ [GetExecutorConfig]) _) as [[|]|err] eqn:Hans;
    cbn beta iota.
  - unfold wp. intros _ _. by exists config.
  - wp_steps. rewrite <- app_assoc, drop_app_length.
    intros Hin [He|(? & ? & ->)]; [|no_member Hin].
    apply elem_of_cons in Hin as [->|Hin]; [done|].
    apply list_elem_of_singleton in Hin. by subst e.
  - wp_steps. rewrite <- app_assoc, drop_app_length.
    intros Hin [He|(? & ? & ->)]; [|no_member Hin].
    apply elem_of_cons in Hin as [->|Hin]; [done|].
    apply list_elem_of_singleton in Hin. by subst e.
Qed.

Lemma wp_os_op_cases (ev : event) (op path : string)
    (act : gmap string node → Errno + gmap string node) (s : state)
    (Q : outcome (option error) → state → Prop) :
  (∀ e, Q (Done (Some e)) {| trace := (trace s ++ [ev])%list; files := files s |}) →
  (∀ fs', act (files s) = inr fs' →
          Q (Done None) {| trace := (trace s ++ [ev])%list; files := fs' |}) →
  wp (os_op w ev op path act) s Q.
Proof.
  intros Hfail Hok. unfold os_op. wp_steps. wp_case; wp_steps; [apply Hfail|].
  wp_case; wp_steps; [apply Hfail|by apply Hok].
Qed.

(** X16.  A download that succeeds leaves at the executor's path the body
    that [executorURL] answered for the latest version, with mode 0700.  The
    version is what [versionURL] answered, trimmed; the steps are the two
    fetches, then creating, writing and [chmod] of the binary, and nothing
    else. *)
Theorem downloadExecutor_installs_latest (s : state) :
  (downloadExecutor w s).1 = Done None →
  ∃ latest resp,
    answer_HttpGet w (trace s) versionURL = Ok latest ∧
    BodyErr latest = None ∧
    answer_HttpGet w (trace s ++ [HttpGet versionURL])
      (executorURL (strings_TrimSpace w (Body latest))) = Ok resp ∧
    BodyErr resp = None ∧
    emitted (downloadExecutor w) s = download_steps (strings_TrimSpace w (Body latest)) ∧
    files (downloadExecutor w s).2 !! executorPath = Some (File (Body resp) 448).
Proof.
  wp_start. unfold downloadExecutor, getLatestVersion. wp_steps.
  destruct (answer_HttpGet w (trace s) versionURL) as [latest|err] eqn:Hlatest; wp_steps;
    [|done].
  destruct (BodyErr latest) eqn:Hbody; wp_steps; [done|].
  destruct (answer_HttpGet w (trace s ++ [HttpGet versionURL]) _) as [resp|err] eqn:Hresp;
    [|by wp_steps].
  cbn beta iota. wp_step.
  apply wp_os_op_cases; cbn beta iota delta [trace files]; [intros; by wp_steps|].
  intros fs1 Hfs1. wp_step.
  apply wp_os_op_cases; cbn beta iota delta [trace files]; [intros; by wp_steps|].
  intros fs2 Hfs2.
  destruct (BodyErr resp) eqn:Hbody2; [by wp_steps|].
  apply wp_os_op_cases; cbn beta iota delta [trace files]; [done|].
  intros fs3 Hfs3 _. exists latest, resp. split_and!; [done..| |].
  - by rewrite <- !app_assoc, drop_app_length.
  - unfold do_Create, do_WriteFile in Hfs1. unfold do_Write in Hfs2. unfold do_Chmod in Hfs3.
    assert (H1 : ∃ m, fs1 !! executorPath = Some (File EmptyString m)).
    { destruct (files s !! executorPath) as [[? m|?]|]; inversion Hfs1;
        eexists; by rewrite lookup_insert_eq. }
    destruct H1 as (m & H1). rewrite H1 in Hfs2. inversion Hfs2; subst fs2.
    rewrite lookup_insert_eq in Hfs3. inversion Hfs3. by rewrite lookup_insert_eq.
Qed.

End scripts.

(** X16 holds of an example run. *)
Lemma downloadExecutor_installs_latest_witness :
  ∃ latest resp,
    answer_HttpGet world_scheduled (trace fresh_host) versionURL = Ok latest ∧
    BodyErr latest = None ∧
    answer_HttpGet world_scheduled (trace fresh_host ++ [HttpGet versionURL])
      (executorURL (strings_TrimSpace world_scheduled (Body latest))) = Ok resp ∧
    BodyErr resp = None ∧
    emitted (downloadExecutor world_scheduled) fresh_host =
      download_steps (strings_TrimSpace world_scheduled (Body latest)) ∧
    files (downloadExecutor world_scheduled fresh_host).2 !! executorPath =
      Some (File (Body resp) 448).
Proof. apply downloadExecutor_installs_latest. vm_compute. reflexivity. Defined.

(** X15 holds of an example run. *)
Lemma uninstall_asks_first_witness :
  ∃ config,
    answer_getExecutorConfig world_scheduled (trace installed_host) = Ok config ∧
    answer_confirm world_scheduled (trace installed_host ++ [GetExecutorConfig])
      (uninstall_prompt world_scheduled (StoragePath config)) = Ok true.
Proof.
  apply (uninstall_asks_first world_scheduled installed_host (Remove executorPath)).
  - apply list_elem_of_lookup_2 with 9%nat. vm_compute. reflexivity.
  - by left.
Defined.

(** ** session list *)

(** X17.  The filter that [session list] sends.  With [--all] it is empty:
    [--cluster], [--node] and [--finalized] are ignored and the current node
    is not looked up.  Otherwise [--finalized] is always sent, the cluster
    when it is not empty, and the node when it is not empty: the node of
    [--node] when that flag was given or a cluster was, and only otherwise
    the current node, which is then looked up first. *)
Theorem session_list_filters (a : SessionList.Answers) (all : bool) (cluster node : string)
    (node_changed finalized : bool) (opts : SessionList.ListSessionOpts) :
  SessionList.ListSessions opts
    ∈ (SessionList.newSessionListCommand a all cluster node node_changed finalized).1 →
  let calls := (SessionList.newSessionListCommand a all cluster node node_changed finalized).1 in
  let optional (s : string) := if String.eqb s EmptyString then None else Some s in
  if all then opts = SessionList.no_opts ∧ SessionList.GetCurrentNode ∉ calls
  else
    SessionList.Finalized opts = Some finalized ∧
    SessionList.Cluster opts = optional cluster ∧
    if negb node_changed && String.eqb cluster EmptyString
    then ∃ current rest,
           SessionList.getCurrentNode a = Ok current ∧
           calls = SessionList.GetCurrentNode :: rest ∧
           SessionList.Node opts = optional current
    else SessionList.Node opts = optional node ∧ SessionList.GetCurrentNode ∉ calls.
Proof.
  unfold SessionList.newSessionListCommand, SessionList.list_and_print.
  destruct all.
  { destruct (SessionList.ListSessions_answer a _); cbn; intros Hin;
      apply elem_of_cons in Hin as [[= ->]|Hin]; try no_member Hin;
      (split; [done|]); intros H; no_member H. }
  destruct (negb node_changed && String.eqb cluster EmptyString) eqn:Hauto.
  - destruct (SessionList.getCurrentNode a) as [current|e]; cbn.
    2:{ intros Hin. no_member Hin. }
    destruct (SessionList.ListSessions_answer a _); cbn; intros Hin;
      apply elem_of_cons in Hin as [[=]|Hin];
      apply elem_of_cons in Hin as [[= ->]|Hin]; try no_member Hin;
      cbn; (split; [done|]); (split; [done|]); by eexists _, _.
  - destruct (SessionList.ListSessions_answer a _); cbn; intros Hin;
      apply elem_of_cons in Hin as [[= ->]|Hin]; try no_member Hin;
      cbn; (split; [done|]); (split; [done|]); (split; [done|]); intros H; no_member H.
Qed.

(** X17 holds of an example run. *)
Lemma session_list_filters_witness :
  SessionList.Finalized
    {| SessionList.Cluster := None; SessionList.Node := Some "node-1";
       SessionList.Finalized := Some false |} = Some false ∧
  SessionList.Cluster
    {| SessionList.Cluster := None; SessionList.Node := Some "node-1";
       SessionList.Finalized := Some false |} = None ∧
  ∃ current rest,
    SessionList.getCurrentNode SessionList.example_list_answers = Ok current ∧
    (SessionList.newSessionListCommand SessionList.example_list_answers false
       EmptyString EmptyString false false).1 = SessionList.GetCurrentNode :: rest ∧
    SessionList.Node
      {| SessionList.Cluster := None; SessionList.Node := Some "node-1";
         SessionList.Finalized := Some false |} =
    (if String.eqb current EmptyString then None else Some current).
Proof.
  apply (session_list_filters SessionList.example_list_answers false EmptyString EmptyString
           false false
           {| SessionList.Cluster := None; SessionList.Node := Some "node-1";
              SessionList.Finalized := Some false |}).
  apply list_elem_of_lookup_2 with 1%nat. vm_compute. reflexivity.
Defined.

(** ** dataset stream-file *)

(** X18.  The file that [stream-file] downloads is the one named on the
    command line; only when none is named, and the dataset is a single-file
    dataset that has a file, it is the first file of the manifest.  It is
    the only download, it follows the lookups of the dataset and of its
    manifest, and the result of the command is the download's error or else
    that of copying what was downloaded to standard output. *)
Theorem stream_file_download (a : StreamFile.Answers) (o : StreamFile.streamFileOptions)
    (d : StreamFile.handle) (filename : string) :
  StreamFile.Download d filename ∈ (StreamFile.run a o).1 →
  StreamFile.Dataset_answer a (StreamFile.dataset o) = Ok d ∧
  (∃ manifest,
     StreamFile.Manifest_answer a d = Ok manifest ∧
     if String.eqb (StreamFile.file o) EmptyString
     then StreamFile.SingleFile manifest = true ∧
          ∃ first rest, StreamFile.Files manifest = first :: rest ∧
                        filename = StreamFile.File first
     else filename = StreamFile.file o) ∧
  match StreamFile.Download_answer a d filename with
  | Err e =>
      StreamFile.run a o =
        ([StreamFile.Dataset (StreamFile.dataset o); StreamFile.Manifest d;
          StreamFile.Download d filename], Some e)
  | Ok data =>
      StreamFile.run a o =
        ([StreamFile.Dataset (StreamFile.dataset o); StreamFile.Manifest d;
          StreamFile.Download d filename; StreamFile.CopyToStdout data],
         StreamFile.Copy_answer a data)
  end.
Proof.
  unfold StreamFile.run, StreamFile.download, StreamFile.errors_WithStack.
  destruct (StreamFile.Dataset_answer a _) as [d'|e]; cbn; [|intros Hin; no_member Hin].
  destruct (StreamFile.Manifest_answer a d') as [manifest|e] eqn:Hm; cbn;
    [|intros Hin; no_member Hin].
  destruct (String.eqb (StreamFile.file o) EmptyString) eqn:Hfile.
  - destruct (StreamFile.SingleFile manifest) eqn:Hsingle; cbn; [|intros Hin; no_member Hin].
    destruct (StreamFile.Files manifest) as [|first rest] eqn:Hfiles; cbn;
      [intros Hin; no_member Hin|].
    destruct (StreamFile.Download_answer a d' (StreamFile.File first)) eqn:Hdl; cbn;
      intros Hin; do 2 (apply elem_of_cons in Hin as [[=]|Hin]);
      apply elem_of_cons in Hin as [[= -> ->]|Hin]; try no_member Hin;
      rewrite ?Hm, ?Hfile, ?Hdl; (split; [done|]); (split; [|done]);
      eexists; (split; [done|]); (split; [done|]); by eexists _, _.
  - destruct (StreamFile.Download_answer a d' (StreamFile.file o)) eqn:Hdl; cbn;
      intros Hin; do 2 (apply elem_of_cons in Hin as [[=]|Hin]);
      apply elem_of_cons in Hin as [[= -> ->]|Hin]; try no_member Hin;
      rewrite ?Hm, ?Hfile, ?Hdl; (split; [done|]); (split; [|done]);
      eexists; by split.
Qed.

(** X18 holds of an example run. *)
Lemma stream_file_download_witness :
  StreamFile.Dataset_answer StreamFile.example_stream_answers "examples/moby"
    = Ok "ds_1hz9k6sgxi0a" ∧
  (∃ manifest,
     StreamFile.Manifest_answer StreamFile.example_stream_answers "ds_1hz9k6sgxi0a"
       = Ok manifest ∧
     StreamFile.SingleFile manifest = true ∧
     ∃ first rest, StreamFile.Files manifest = first :: rest ∧
                   "moby.txt" = StreamFile.File first) ∧
  StreamFile.run StreamFile.example_stream_answers
    {| StreamFile.dataset := "examples/moby"; StreamFile.file := EmptyString |} =
    ([StreamFile.Dataset "examples/moby"; StreamFile.Manifest "ds_1hz9k6sgxi0a";
      StreamFile.Download "ds_1hz9k6sgxi0a" "moby.txt";
      StreamFile.CopyToStdout "Call me Ishmael."],
     StreamFile.Copy_answer StreamFile.example_stream_answers "Call me Ishmael.").
Proof.
  apply (stream_file_download StreamFile.example_stream_answers
           {| StreamFile.dataset := "examples/moby"; StreamFile.file := EmptyString |}
           "ds_1hz9k6sgxi0a" "moby.txt").
  apply list_elem_of_lookup_2 with 2%nat. vm_compute. reflexivity.
Defined.
